(** * The content subresource of the File API: a shallow embedding

    The development follows the content connector of package [file]
    ([ContentREST] and its [contentHandler]): the in-memory [contentStore],
    the MIME allow-list [isValidMIMEType], [buildContentURL], and the handlers
    [handleGet] and [handlePut] behind [ServeHTTP].  The Go standard library
    functions the handlers call ([strings.SplitN], [mime.ParseMediaType], ...)
    are embedded next to them, and the generic object store behind [h.store]
    enters as an interface.

    Around the connector, the development also covers the table convertor of
    the File registry, [VersionToKubeVersion] of the server options, the
    requests of the kubectl plugin, and the file list of the web UI. *)

From Stdlib Require Import ZArith Ascii String List Lia DecimalString.
From Stdlib Require DecimalZ.
From stdpp Require Import base option gmap strings list fin_maps.

Local Open Scope Z_scope.

(** ** Go strings

    A Go [string] is a sequence of bytes: [string] over 8-bit [ascii]. *)

Definition byteOf (c : ascii) : nat := Ascii.nat_of_ascii c.

(** [c >= utf8.RuneSelf] *)
Definition isRuneSelf (c : ascii) : bool := (128 <=? byteOf c)%nat.

Fixpoint isASCII (s : string) : bool :=
  match s with
  | EmptyString => true
  | String c s' => negb (isRuneSelf c) && isASCII s'
  end.

(** The two Unicode-aware library paths whose tables are not part of the
    repository.  Everything else below is computed on bytes. *)
Class GoUnicode : Type := {
  (** [strings.Map(unicode.ToLower, s)]: the path [strings.ToLower] takes as
      soon as [s] holds a byte [>= 0x80]. *)
  unicode_MapToLower : string -> string;
  (** [strconv.Quote(s)], what the [%q] verb of [fmt.Sprintf] prints. *)
  strconv_Quote : string -> string
}.

(** The instance used where a development needs a concrete one: requests whose
    strings are ASCII never reach [unicode_MapToLower]; [%q] of a name made of
    printable ASCII without quote or backslash wraps it in double quotes. *)
Definition asciiUnicode : GoUnicode :=
  {| unicode_MapToLower := fun s => s;
     strconv_Quote := fun s => String "034" s +:+ String "034" EmptyString |}.

Definition lowerByte (c : ascii) : ascii :=
  if ((65 <=? byteOf c) && (byteOf c <=? 90))%nat
  then Ascii.ascii_of_nat (byteOf c + 32) else c.

Fixpoint mapBytes (f : ascii -> ascii) (s : string) : string :=
  match s with
  | EmptyString => EmptyString
  | String c s' => String (f c) (mapBytes f s')
  end.

(** [strings.ToLower] *)
Definition ToLower `{GoUnicode} (s : string) : string :=
  if isASCII s then mapBytes lowerByte s else unicode_MapToLower s.

(** [strings.HasPrefix] *)
Fixpoint HasPrefix (s prefix : string) {struct prefix} : bool :=
  match prefix, s with
  | EmptyString, _ => true
  | String p prefix', String c s' => Ascii.eqb p c && HasPrefix s' prefix'
  | String _ _, EmptyString => false
  end.

(** [s[n:]] for [n <= len(s)] *)
Fixpoint dropBytes (n : nat) (s : string) : string :=
  match n, s with
  | O, _ => s
  | S n', String _ s' => dropBytes n' s'
  | S _, EmptyString => EmptyString
  end.

(** [strings.Cut(s, sep)]: the text before and after the first instance of
    [sep]; [None] is Go's [found == false]. *)
Fixpoint Cut (s sep : string) : option (string * string) :=
  if HasPrefix s sep then Some (EmptyString, dropBytes (String.length sep) s)
  else match s with
       | EmptyString => None
       | String c s' =>
           match Cut s' sep with
           | Some (before, after) => Some (String c before, after)
           | None => None
           end
       end.

(** [strings.SplitN(s, sep, n)] for a non-empty [sep] and [n >= 1], the way
    [genSplit] runs: at most [n - 1] cuts, the remainder in the last slot.
    (For [n > len(s) + 1] Go lowers [n] to [len(s) + 1]; a non-empty [sep]
    cannot be found more than [len(s)] times, so the result is the same.) *)
Fixpoint SplitN (s sep : string) (n : nat) : list string :=
  match n with
  | O => []
  | S O => [s]
  | S n' =>
      match Cut s sep with
      | None => [s]
      | Some (before, after) => before :: SplitN after sep n'
      end
  end.

(** [unicode.IsSpace] on the ASCII range: tab, LF, VT, FF, CR and space. *)
Definition isAsciiSpace (c : ascii) : bool :=
  ((9 <=? byteOf c) && (byteOf c <=? 13) || (byteOf c =? 32))%nat.

(** The UTF-8 encodings of the other runes of [unicode.IsSpace]:
    U+0085 and U+00A0 (two bytes), U+1680, U+2000..U+200A, U+2028, U+2029,
    U+202F, U+205F and U+3000 (three bytes). *)
Definition isSpace2 (a b : ascii) : bool :=
  ((byteOf a =? 194) && ((byteOf b =? 133) || (byteOf b =? 160)))%nat.

Definition isSpace3 (a b c : ascii) : bool :=
  ((byteOf a =? 225) && (byteOf b =? 154) && (byteOf c =? 128)
   || (byteOf a =? 226) && (byteOf b =? 128)
      && ((128 <=? byteOf c) && (byteOf c <=? 138)
          || (byteOf c =? 168) || (byteOf c =? 169) || (byteOf c =? 175))
   || (byteOf a =? 226) && (byteOf b =? 129) && (byteOf c =? 159)
   || (byteOf a =? 227) && (byteOf b =? 128) && (byteOf c =? 128))%nat.

(** [strings.TrimLeftFunc(s, unicode.IsSpace)]: runes are decoded from the
    left; an invalid byte decodes to [utf8.RuneError], which is no space. *)
Fixpoint TrimLeftSpace (s : string) : string :=
  match s with
  | EmptyString => EmptyString
  | String a s1 =>
      if isAsciiSpace a then TrimLeftSpace s1
      else match s1 with
           | EmptyString => s
           | String b s2 =>
               if isSpace2 a b then TrimLeftSpace s2
               else match s2 with
                    | EmptyString => s
                    | String c s3 => if isSpace3 a b c then TrimLeftSpace s3 else s
                    end
           end
  end.

(** The same scan over the reversed string: [utf8.DecodeLastRuneInString]
    steps back to the nearest byte that starts a rune and accepts the rune
    only when it ends at the end of the string. *)
Fixpoint trimLeftSpaceRev (s : string) : string :=
  match s with
  | EmptyString => EmptyString
  | String a s1 =>
      if isAsciiSpace a then trimLeftSpaceRev s1
      else match s1 with
           | EmptyString => s
           | String b s2 =>
               if isSpace2 b a then trimLeftSpaceRev s2
               else match s2 with
                    | EmptyString => s
                    | String c s3 => if isSpace3 c b a then trimLeftSpaceRev s3 else s
                    end
           end
  end.

(** [strings.TrimRightFunc(s, unicode.IsSpace)] *)
Definition TrimRightSpace (s : string) : string :=
  String.rev (trimLeftSpaceRev (String.rev s)).

(** [strings.TrimSpace] *)
Definition TrimSpace (s : string) : string := TrimRightSpace (TrimLeftSpace s).

(** The [%d] verb of [fmt.Sprintf]. *)
Definition formatInt (z : Z) : string := NilEmpty.string_of_int (Z.to_int z).

(** ** Package [mime]: [ParseMediaType] (mediatype.go, grammar.go) *)

(** The bytes of the tspecials of RFC 2045: the characters [( ) < > @ , ; :],
    backslash, double quote, [/], the square brackets, [?] and [=]. *)
Definition tspecials : list nat :=
  [40; 41; 60; 62; 64; 44; 59; 58; 92; 34; 47; 91; 93; 63; 61]%nat.

(** [isTSpecial] *)
Definition isTSpecial (c : ascii) : bool :=
  existsb (Nat.eqb (byteOf c)) tspecials.

(** [isTokenChar]: [r > 0x20 && r < 0x7f && !isTSpecial(r)] *)
Definition isTokenChar (c : ascii) : bool :=
  ((32 <? byteOf c) && (byteOf c <? 127))%nat && negb (isTSpecial c).

(** [consumeToken]: the longest prefix of token characters and the rest; a
    byte [>= 0x80] starts a rune that is no token character. *)
Fixpoint consumeToken (v : string) : string * string :=
  match v with
  | EmptyString => (EmptyString, EmptyString)
  | String c v' =>
      if isTokenChar c
      then let (token, rest) := consumeToken v' in (String c token, rest)
      else (EmptyString, v)
  end.

(** The loop of [consumeValue] over a quoted string, entered after the opening
    quote: the unquoted text and what follows the closing quote, or [None]
    when the loop gives up (a CR or LF, or no closing quote) and Go returns the
    empty value with [v] unconsumed. *)
Fixpoint consumeQuoted (v : string) : option (string * string) :=
  match v with
  | EmptyString => None
  | String r v' =>
      if (byteOf r =? 34)%nat then Some (EmptyString, v')
      else
        let keep := (if ((byteOf r =? 13) || (byteOf r =? 10))%nat then None
                     else prod_map (String r) id <$> consumeQuoted v') in
        if (byteOf r =? 92)%nat
        then match v' with
             | String n v'' =>
                 if isTSpecial n
                 then prod_map (String n) id <$> consumeQuoted v''
                 else keep
             | EmptyString => keep
             end
        else keep
  end.

(** [consumeValue] *)
Definition consumeValue (v : string) : string * string :=
  match v with
  | EmptyString => (EmptyString, EmptyString)
  | String c v' =>
      if negb (byteOf c =? 34)%nat then consumeToken v
      else match consumeQuoted v' with
           | Some (value, rest) => (value, rest)
           | None => (EmptyString, v)
           end
  end.

(** [consumeMediaParam] *)
Definition consumeMediaParam `{GoUnicode} (v : string) : string * string * string :=
  let rest := TrimLeftSpace v in
  if negb (HasPrefix rest ";") then (EmptyString, EmptyString, v)
  else
    let rest := dropBytes 1 rest in
    let rest := TrimLeftSpace rest in
    let (param, rest) := consumeToken rest in
    let param := ToLower param in
    if String.eqb param EmptyString then (EmptyString, EmptyString, v)
    else
      let rest := TrimLeftSpace rest in
      if negb (HasPrefix rest "=") then (EmptyString, EmptyString, v)
      else
        let rest := dropBytes 1 rest in
        let rest := TrimLeftSpace rest in
        let (value, rest2) := consumeValue rest in
        if String.eqb value EmptyString && String.eqb rest2 rest
        then (EmptyString, EmptyString, v)
        else (param, value, rest2).

(** The errors [ParseMediaType] returns. *)
Inductive mimeError : Type :=
| ErrNoMediaType
| ErrExpectedSlash
| ErrExpectedToken
| ErrUnexpectedContent
| ErrInvalidMediaParameter
| ErrDuplicateParameter.

(** [err.Error()] *)
Definition mimeError_Error (e : mimeError) : string :=
  match e with
  | ErrNoMediaType => "mime: no media type"
  | ErrExpectedSlash => "mime: expected slash after first token"
  | ErrExpectedToken => "mime: expected token after slash"
  | ErrUnexpectedContent => "mime: unexpected content after media subtype"
  | ErrInvalidMediaParameter => "mime: invalid media parameter"
  | ErrDuplicateParameter => "mime: duplicate parameter name"
  end.

(** [checkMediaTypeDisposition]; [None] is Go's [nil]. *)
Definition checkMediaTypeDisposition (s : string) : option mimeError :=
  let (typ, rest) := consumeToken s in
  if String.eqb typ EmptyString then Some ErrNoMediaType
  else if String.eqb rest EmptyString then None
  else if negb (HasPrefix rest "/") then Some ErrExpectedSlash
  else
    let (subtype, rest) := consumeToken (dropBytes 1 rest) in
    if String.eqb subtype EmptyString then Some ErrExpectedToken
    else if negb (String.eqb rest EmptyString) then Some ErrUnexpectedContent
    else None.

(** [ishex] and [unhex] *)
Definition ishex (c : ascii) : bool :=
  ((48 <=? byteOf c) && (byteOf c <=? 57)
   || (97 <=? byteOf c) && (byteOf c <=? 102)
   || (65 <=? byteOf c) && (byteOf c <=? 70))%nat.

Definition unhex (c : ascii) : nat :=
  if ((48 <=? byteOf c) && (byteOf c <=? 57))%nat then (byteOf c - 48)%nat
  else if ((97 <=? byteOf c) && (byteOf c <=? 102))%nat then (byteOf c - 97 + 10)%nat
  else if ((65 <=? byteOf c) && (byteOf c <=? 70))%nat then (byteOf c - 65 + 10)%nat
  else 0%nat.

(** [percentHexUnescape]: [None] when a [%] is not followed by two hex
    digits. *)
Fixpoint percentHexUnescape (s : string) : option string :=
  match s with
  | EmptyString => Some EmptyString
  | String c s1 =>
      if (byteOf c =? 37)%nat
      then match s1 with
           | String a (String b s3) =>
               if ishex a && ishex b
               then String (Ascii.ascii_of_nat (unhex a * 16 + unhex b))
                      <$> percentHexUnescape s3
               else None
           | _ => None
           end
      else String c <$> percentHexUnescape s1
  end.

(** [decode2231Enc]: [charset'language'value] with charset us-ascii or
    utf-8. *)
Definition decode2231Enc `{GoUnicode} (v : string) : option string :=
  match Cut v "'" with
  | None => None
  | Some (charset, v) =>
      match Cut v "'" with
      | None => None
      | Some (_, extOtherVals) =>
          let charset := ToLower charset in
          if String.eqb charset "us-ascii" || String.eqb charset "utf-8"
          then percentHexUnescape extOtherVals
          else None
      end
  end.

(** The inner loop [for n := 0; ; n++] that stitches the pieces [key*n] and
    [key*n*] of a continuation: the pair of [valid] and the buffer.  The loop
    stops at the first [n] with neither piece, so it runs at most once more
    than [pieceMap] has entries; [fuel] bounds it. *)
Fixpoint stitchPieces `{GoUnicode} (fuel : nat) (key : string)
    (pieceMap : gmap string string) (n : nat) : bool * string :=
  match fuel with
  | O => (false, EmptyString)
  | S fuel' =>
      let simplePart := key +:+ "*" +:+ formatInt (Z.of_nat n) in
      match pieceMap !! simplePart with
      | Some v =>
          (true, v +:+ snd (stitchPieces fuel' key pieceMap (S n)))
      | None =>
          let encodedPart := simplePart +:+ "*" in
          match pieceMap !! encodedPart with
          | None => (false, EmptyString)
          | Some v =>
              let decv :=
                if (n =? 0)%nat then default EmptyString (decode2231Enc v)
                else default EmptyString (percentHexUnescape v) in
              (true, decv +:+ snd (stitchPieces fuel' key pieceMap (S n)))
          end
      end
  end.

(** One round of [for key, pieceMap := range continuation]. *)
Definition stitchOne `{GoUnicode} (key : string) (pieceMap : gmap string string)
    (params : gmap string string) : gmap string string :=
  let singlePartKey := key +:+ "*" in
  match pieceMap !! singlePartKey with
  | Some v =>
      match decode2231Enc v with
      | Some decv => <[key := decv]> params
      | None => params
      end
  | None =>
      let (valid, buf) := stitchPieces (S (size pieceMap)) key pieceMap 0 in
      if valid then <[key := buf]> params else params
  end.

(** The parameter loop [for len(v) > 0] of [ParseMediaType].  Every round that
    does not leave the loop consumes at least the semicolon of a parameter,
    so [fuel = len(v)] rounds are enough.  [inr] carries the error return
    together with the media type returned beside it. *)
Fixpoint parseParams `{GoUnicode} (fuel : nat) (mediatype v : string)
    (params : gmap string string)
    (continuation : gmap string (gmap string string))
  : gmap string string * gmap string (gmap string string) + string * mimeError :=
  match fuel with
  | O => inl (params, continuation)
  | S fuel' =>
      if String.eqb v EmptyString then inl (params, continuation)
      else
        let v := TrimLeftSpace v in
        if String.eqb v EmptyString then inl (params, continuation)
        else
          let '(key, value, rest) := consumeMediaParam v in
          if String.eqb key EmptyString
          then if String.eqb (TrimSpace rest) ";"
               then inl (params, continuation)
               else inr (mediatype, ErrInvalidMediaParameter)
          else
            match Cut key "*" with
            | Some (baseName, _) =>
                let pmap := default ∅ (continuation !! baseName) in
                match pmap !! key with
                | Some v0 =>
                    if negb (String.eqb v0 value)
                    then inr (EmptyString, ErrDuplicateParameter)
                    else parseParams fuel' mediatype rest params
                           (<[baseName := <[key := value]> pmap]> continuation)
                | None =>
                    parseParams fuel' mediatype rest params
                      (<[baseName := <[key := value]> pmap]> continuation)
                end
            | None =>
                match params !! key with
                | Some v0 =>
                    if negb (String.eqb v0 value)
                    then inr (EmptyString, ErrDuplicateParameter)
                    else parseParams fuel' mediatype rest (<[key := value]> params)
                           continuation
                | None =>
                    parseParams fuel' mediatype rest (<[key := value]> params)
                      continuation
                end
            end
  end.

(** [mime.ParseMediaType]: the media type, the parameters (Go's [nil] map is
    the empty map) and the error ([None] for [nil]). *)
Definition ParseMediaType `{GoUnicode} (v : string)
  : string * gmap string string * option mimeError :=
  let base := match Cut v ";" with Some (before, _) => before | None => v end in
  let mediatype := TrimSpace (ToLower base) in
  match checkMediaTypeDisposition mediatype with
  | Some err => (EmptyString, ∅, Some err)
  | None =>
      let v := dropBytes (String.length base) v in
      match parseParams (String.length v) mediatype v ∅ ∅ with
      | inr (mt, err) => (mt, ∅, Some err)
      | inl (params, continuation) =>
          (mediatype, map_fold stitchOne params continuation, None)
      end
  end.

(** ** The API types (package [cdn], and the [metav1] types they embed) *)

Record metav1_TypeMeta : Type := {
  Kind : string;
  APIVersion : string
}.

(** [metav1.ObjectMeta].  The element types of [OwnerReferences] and
    [ManagedFields] stay opaque: the handlers never look inside. *)
Record metav1_ObjectMeta : Type := {
  Name : string;
  GenerateName : string;
  Namespace : string;
  SelfLink : string;
  UID : string;
  ResourceVersion : string;
  Generation : Z;
  CreationTimestamp : option Z;
  DeletionTimestamp : option Z;
  DeletionGracePeriodSeconds : option Z;
  Labels : gmap string string;
  Annotations : gmap string string;
  OwnerReferences : list string;
  Finalizers : list string;
  ManagedFields : list string
}.

Record FileSpec : Type := {
  URL : string;
  Size : Z;
  ContentType : string;
  ResourceLocation : string
}.

Record FileStatus : Type := {
  Uploaded : bool;
  Error : string
}.

Record File : Type := {
  TypeMeta : metav1_TypeMeta;
  ObjectMeta : metav1_ObjectMeta;
  Spec : FileSpec;
  Status : FileStatus
}.

Record metav1_StatusDetails : Type := {
  details_Name : string;
  details_Group : string;
  details_Kind : string;
  details_UID : string
}.

Record metav1_Status : Type := {
  status_Status : string;
  status_Message : string;
  status_Reason : string;
  status_Details : option metav1_StatusDetails;
  status_Code : Z
}.

Record FileContent : Type := {
  FileContent_TypeMeta : metav1_TypeMeta;
  FileContent_Status : metav1_Status
}.

(** Go's zero values. *)
Definition zeroTypeMeta : metav1_TypeMeta :=
  {| Kind := EmptyString; APIVersion := EmptyString |}.

Definition zeroObjectMeta : metav1_ObjectMeta :=
  {| Name := EmptyString; GenerateName := EmptyString; Namespace := EmptyString;
     SelfLink := EmptyString; UID := EmptyString; ResourceVersion := EmptyString;
     Generation := 0; CreationTimestamp := None; DeletionTimestamp := None;
     DeletionGracePeriodSeconds := None; Labels := ∅; Annotations := ∅;
     OwnerReferences := []; Finalizers := []; ManagedFields := [] |}.

(** [metav1.StatusSuccess], [http.StatusOK] and the other status codes. *)
Definition StatusSuccess : string := "Success".
Definition StatusOK : Z := 200.
Definition StatusCreated : Z := 201.
Definition StatusBadRequest : Z := 400.
Definition StatusNotFound : Z := 404.
Definition StatusMethodNotAllowed : Z := 405.
Definition StatusInternalServerError : Z := 500.

(** [cdnv1alpha1.GroupName] and [cdnv1alpha1.SchemeGroupVersion.Version], with
    the values the comment in [NewServerOptions] and the API paths of
    README.md give them.  No property below depends on the values. *)
Definition GroupName : string := "cdn.k8s.toms.place".
Definition Version : string := "v1alpha1".

(** ** Errors and objects crossing the object-store interface *)

(** [schema.GroupResource] *)
Record GroupResource : Type := {
  Group : string;
  Resource : string
}.

(** [cdn.Resource(resource)] *)
Definition cdn_Resource (resource : string) : GroupResource :=
  {| Group := GroupName; Resource := resource |}.

(** [GroupResource.String] *)
Definition GroupResource_String (gr : GroupResource) : string :=
  if String.eqb (Group gr) EmptyString then Resource gr
  else Resource gr +:+ "." +:+ Group gr.

(** [metav1.StatusReasonNotFound] and [metav1.StatusReasonUnknown], two of the
    values of the string type [metav1.StatusReason]. *)
Definition StatusReasonNotFound : string := "NotFound".
Definition StatusReasonUnknown : string := EmptyString.

(** [knownReasons] of package [apierrors]: the reasons the package has a
    predicate for.  The unknown reason is not among them. *)
Definition knownReasons : list string :=
  ["Unauthorized"; "Forbidden"; "NotFound"; "AlreadyExists"; "Conflict";
   "Gone"; "Invalid"; "ServerTimeout"; "Timeout"; "TooManyRequests";
   "BadRequest"; "MethodNotAllowed"; "NotAcceptable"; "RequestEntityTooLarge";
   "UnsupportedMediaType"; "InternalError"; "Expired"; "ServiceUnavailable"].

(** The errors the handlers see: the status error of [apierrors.NewNotFound];
    any other status error (an [APIStatus]), with the reason, the code and the
    message of its status; and an error that carries no status, with its
    message and the status code a responder answers it with (500 for a plain
    error). *)
Inductive error : Type :=
| NewNotFound (qualifiedResource : GroupResource) (key : string)
| StatusError (reason : string) (code : Z) (message : string)
| OtherError (code : Z) (message : string).

(** [reasonAndCodeForError]: the reason and the code of the status an error
    carries; the unknown reason and code 0 for an error without one. *)
Definition reasonAndCodeForError (err : error) : string * Z :=
  match err with
  | NewNotFound _ _ => (StatusReasonNotFound, StatusNotFound)
  | StatusError reason code _ => (reason, code)
  | OtherError _ _ => (StatusReasonUnknown, 0)
  end.

(** [apierrors.IsNotFound]: the reason is [StatusReasonNotFound], or the
    reason is none of [knownReasons] and the code is 404. *)
Definition IsNotFound (err : error) : bool :=
  let (reason, code) := reasonAndCodeForError err in
  if String.eqb reason StatusReasonNotFound then true
  else if negb (existsb (String.eqb reason) knownReasons)
          && (code =? StatusNotFound)
       then true
       else false.

(** [err.Error()], the [%v] rendering of an error. *)
Definition error_Error `{GoUnicode} (err : error) : string :=
  match err with
  | NewNotFound gr key =>
      GroupResource_String gr +:+ " " +:+ strconv_Quote key +:+ " not found"
  | StatusError _ _ message => message
  | OtherError _ message => message
  end.

(** [fmt.Errorf(message)] *)
Definition Errorf (message : string) : error :=
  OtherError StatusInternalServerError message.

(** A [runtime.Object] as the type assertion [obj.( *cdn.File)] sees it. *)
Inductive Object : Type :=
| FileObject (file : File)
| OtherObject.

(** The request context: [request.NamespaceValue(ctx)]. *)
Record Context : Type := {
  NamespaceValue : string
}.

(** The object store behind [h.store] ([registry.REST], the generic registry
    of the API server): the three calls the handlers make.  [Get] only reads;
    [Create] and [Update] return the next store and the error, if any (the
    handlers drop the object these two return). *)
Class ObjectStore (S : Type) : Type := {
  store_Get : S -> Context -> string -> Object + error;
  store_Create : S -> Context -> File -> S * option error;
  store_Update : S -> Context -> string -> File -> S * option error
}.

(** What a client of the object store relies on when it reads after a write:
    from the store [s], an object created or updated without error is the one
    the next [Get] returns, as far as [Spec] and [Status] go. *)
Definition readsBack {S : Type} `{ObjectStore S} (s : S) : Prop :=
  (forall (s' : S) (c : Context) (f : File),
      store_Create s c f = (s', None) ->
      exists g, store_Get s' c (Name (ObjectMeta f)) = inl (FileObject g)
                /\ Spec g = Spec f /\ Status g = Status f)
  /\ (forall (s' : S) (c : Context) (key : string) (f : File),
        store_Update s c key f = (s', None) ->
        exists g, store_Get s' c key = inl (FileObject g)
                  /\ Spec g = Spec f /\ Status g = Status f).

(** ** The content store and the handler's world *)

(** [contentEntry] *)
Record contentEntry : Type := {
  data : list Byte.byte;
  status : metav1_Status
}.

(** The calls a handler makes on the two stores, in the order it makes
    them, each object-store call with what it returned. *)
Inductive Call : Type :=
| CallGet (key : string) (result : Object + error)
| CallCreate (file : File) (err : option error)
| CallUpdate (key : string) (file : File) (err : option error)
| CallContentPut (key : string) (entry : contentEntry).

(** The state a request runs against: the object store, the package-level
    [contentStore.entries], and the calls made so far (oldest first). *)
Record World (S : Type) : Type := {
  objects : S;
  entries : gmap string contentEntry;
  calls : list Call
}.
Arguments objects {S} _.
Arguments entries {S} _.
Arguments calls {S} _.

(** ** Requests and responses *)

(** [http.Request]: [TLS] is [req.TLS != nil]; [Body] is what [io.Copy] gets
    out of [req.Body], the bytes or the read error. *)
Record Request : Type := {
  Method : string;
  Host : string;
  TLS : bool;
  Header : gmap string (list string);
  Body : list Byte.byte + string
}.

(** [http.Header.Get] for a key in canonical form. *)
Definition Header_Get (h : gmap string (list string)) (key : string) : string :=
  match h !! key with
  | Some (v :: _) => v
  | _ => EmptyString
  end.

(** [http.Header.Set] *)
Definition Header_Set (h : gmap string (list string)) (key value : string)
  : gmap string (list string) :=
  <[key := [value]]> h.

(** The four ways a handler answers. *)
Inductive Response : Type :=
| HttpError (message : string) (code : Z)
    (** [http.Error(w, message, code)] *)
| ResponderError (err : error)
    (** [h.responder.Error(err)] *)
| ResponderObject (statusCode : Z) (obj : FileContent)
    (** [h.responder.Object(statusCode, obj)] *)
| Written (header : gmap string (list string)) (statusCode : Z)
    (body : list Byte.byte).
    (** [w.Header().Set] ..., [w.WriteHeader(statusCode)], [w.Write(body)] *)

(** The status code on the wire; the responder answers a failure status
    that has no code with 500. *)
Definition Response_code (r : Response) : Z :=
  match r with
  | HttpError _ code => code
  | ResponderError (NewNotFound _ _) => StatusNotFound
  | ResponderError (StatusError _ code _) =>
      if code =? 0 then StatusInternalServerError else code
  | ResponderError (OtherError code _) => code
  | ResponderObject statusCode _ => statusCode
  | Written _ statusCode _ => statusCode
  end.

(** [contentHandler] (the fields the handlers read). *)
Record contentHandler : Type := {
  ctx : Context;
  name : string;
  externalHost : string
}.

(** ** The handler monad

    A handler threads the world and may answer and return at any point:
    [inl r] means the response [r] is out and the rest of the body is
    skipped. *)

Definition Handler (S A : Type) : Type := World S -> World S * (Response + A).

Definition ret {S A : Type} (a : A) : Handler S A := fun w => (w, inr a).

Definition reply {S A : Type} (r : Response) : Handler S A := fun w => (w, inl r).

Definition bind {S A B : Type} (m : Handler S A) (k : A -> Handler S B)
  : Handler S B :=
  fun w =>
    match m w with
    | (w', inl r) => (w', inl r)
    | (w', inr a) => k a w'
    end.

Notation "x <- m ;; k" := (bind m (fun x => k))
  (at level 100, m at next level, right associativity).
Notation "m ;;; k" := (bind m (fun _ => k))
  (at level 100, right associativity).

(** A handler body ends in a response either way. *)
Definition serve {S : Type} (m : Handler S Response) (w : World S)
  : World S * Response :=
  match m w with
  | (w', inl r) => (w', r)
  | (w', inr r) => (w', r)
  end.

Definition record {S : Type} (c : Call) (w : World S) : World S :=
  {| objects := objects w; entries := entries w; calls := calls w ++ [c] |}.

Section Handlers.
Context `{U : GoUnicode} {S : Type} `{OS : ObjectStore S}.

(** [h.store.Get(h.ctx, key, &metav1.GetOptions{})] *)
Definition storeGet (c : Context) (key : string) : Handler S (Object + error) :=
  fun w =>
    let result := store_Get (objects w) c key in
    (record (CallGet key result) w, inr result).

(** [h.store.Create(h.ctx, file, ...)] *)
Definition storeCreate (c : Context) (file : File) : Handler S (option error) :=
  fun w =>
    let (s', err) := store_Create (objects w) c file in
    ({| objects := s'; entries := entries w;
        calls := calls w ++ [CallCreate file err] |}, inr err).

(** [h.store.Update(h.ctx, key, rest.DefaultUpdatedObjectInfo(file), ...)] *)
Definition storeUpdate (c : Context) (key : string) (file : File)
  : Handler S (option error) :=
  fun w =>
    let (s', err) := store_Update (objects w) c key file in
    ({| objects := s'; entries := entries w;
        calls := calls w ++ [CallUpdate key file err] |}, inr err).

(** [contentStore.RLock(); entry, hasLocal := contentStore.entries[key];
    contentStore.RUnlock()] *)
Definition contentLookup (key : string) : Handler S (option contentEntry) :=
  fun w => (w, inr (entries w !! key)).

(** [contentStore.Lock(); contentStore.entries[key] = entry;
    contentStore.Unlock()] *)
Definition contentPut (key : string) (entry : contentEntry) : Handler S unit :=
  fun w =>
    ({| objects := objects w; entries := <[key := entry]> (entries w);
        calls := calls w ++ [CallContentPut key entry] |}, inr tt).

(** ** [allowedMIMETypes] and [isValidMIMEType] *)

Definition allowedMIMETypes : gmap string bool :=
  list_to_map
    [("application", true); ("audio", true); ("font", true); ("image", true);
     ("message", true); ("model", true); ("multipart", true); ("text", true);
     ("video", true)].

Definition isValidMIMEType (mediaType : string) : bool :=
  match SplitN mediaType "/" 2 with
  | [topLevel; subType] =>
      if negb (default false (allowedMIMETypes !! topLevel)) then false
      else if String.eqb subType EmptyString then false
      else true
  | _ => false
  end.

(** ** [buildContentURL] *)

Definition buildContentURL (h : contentHandler) (req : Request) : string :=
  let namespace := NamespaceValue (ctx h) in
  let host := externalHost h in
  let host := if String.eqb host EmptyString then Host req else host in
  let scheme := if negb (TLS req) then "http" else "https" in
  let path := "/apis/" +:+ GroupName +:+ "/" +:+ Version +:+ "/namespaces/"
              +:+ namespace +:+ "/files/" +:+ name h +:+ "/content" in
  scheme +:+ "://" +:+ host +:+ path.

(** ** [handleGet] *)

Definition handleGet (h : contentHandler) (req : Request) (headOnly : bool)
  : Handler S Response :=
  r <- storeGet (ctx h) (name h) ;;
  match r with
  | inr err => reply (ResponderError err)
  | inl OtherObject => reply (ResponderError (Errorf "object is not a File"))
  | inl (FileObject file) =>
      local <- contentLookup (name h) ;;
      match local with
      | Some entry =>
          let contentType := ContentType (Spec file) in
          let contentType :=
            if String.eqb contentType EmptyString
            then "application/octet-stream" else contentType in
          let header := Header_Set ∅ "Content-Type" contentType in
          let header :=
            Header_Set header "Content-Length"
              (formatInt (Z.of_nat (length (data entry)))) in
          let header :=
            Header_Set header "Content-Disposition"
              ("attachment; filename=" +:+ strconv_Quote (name h)) in
          reply (Written header StatusOK (if headOnly then [] else data entry))
      | None =>
          reply (ResponderError (NewNotFound (cdn_Resource "file") (name h)))
      end
  end.

(** ** [handlePut] *)

(** The declared content type: the request header, or the default. *)
Definition declaredContentType (req : Request) : string :=
  let contentType := Header_Get (Header req) "Content-Type" in
  if String.eqb contentType EmptyString
  then "application/octet-stream" else contentType.

(** The normalized content type: the media type, with the charset parameter
    when there is one. *)
Definition normalizedContentType (mediaType : string)
    (params : gmap string string) : string :=
  match params !! "charset" with
  | Some charset => mediaType +:+ "; charset=" +:+ charset
  | None => mediaType
  end.

(** The [cdn.File] literal of the create branch. *)
Definition newFile (h : contentHandler) (contentURL : string)
    (contentSize : Z) (contentType : string) : File :=
  {| TypeMeta := zeroTypeMeta;
     ObjectMeta :=
       {| Name := name h; GenerateName := EmptyString; Namespace := EmptyString;
          SelfLink := EmptyString; UID := EmptyString;
          ResourceVersion := EmptyString; Generation := 0;
          CreationTimestamp := None; DeletionTimestamp := None;
          DeletionGracePeriodSeconds := None; Labels := ∅; Annotations := ∅;
          OwnerReferences := []; Finalizers := []; ManagedFields := [] |};
     Spec := {| URL := contentURL; Size := contentSize;
                ContentType := contentType; ResourceLocation := EmptyString |};
     Status := {| Uploaded := true; Error := EmptyString |} |}.

(** The five assignments of the update branch. *)
Definition updatedFile (file : File) (contentURL : string)
    (contentSize : Z) (contentType : string) : File :=
  let file :=
    {| TypeMeta := TypeMeta file; ObjectMeta := ObjectMeta file;
       Spec := {| URL := contentURL; Size := Size (Spec file);
                  ContentType := ContentType (Spec file);
                  ResourceLocation := ResourceLocation (Spec file) |};
       Status := Status file |} in
  let file :=
    {| TypeMeta := TypeMeta file; ObjectMeta := ObjectMeta file;
       Spec := {| URL := URL (Spec file); Size := contentSize;
                  ContentType := ContentType (Spec file);
                  ResourceLocation := ResourceLocation (Spec file) |};
       Status := Status file |} in
  let file :=
    {| TypeMeta := TypeMeta file; ObjectMeta := ObjectMeta file;
       Spec := {| URL := URL (Spec file); Size := Size (Spec file);
                  ContentType := contentType;
                  ResourceLocation := ResourceLocation (Spec file) |};
       Status := Status file |} in
  let file :=
    {| TypeMeta := TypeMeta file; ObjectMeta := ObjectMeta file;
       Spec := Spec file;
       Status := {| Uploaded := true; Error := Error (Status file) |} |} in
  {| TypeMeta := TypeMeta file; ObjectMeta := ObjectMeta file;
     Spec := Spec file;
     Status := {| Uploaded := Uploaded (Status file); Error := EmptyString |} |}.

(** The [metav1.Status] of a finished upload. *)
Definition uploadStatus (h : contentHandler) (contentSize : Z)
    (contentType : string) : metav1_Status :=
  {| status_Status := StatusSuccess;
     status_Message :=
       "content uploaded successfully for file " +:+ name h +:+ " ("
       +:+ formatInt contentSize +:+ " bytes, " +:+ contentType +:+ ")";
     status_Reason := EmptyString;
     status_Details :=
       Some {| details_Name := name h; details_Group := EmptyString;
               details_Kind := "File"; details_UID := EmptyString |};
     status_Code := StatusCreated |}.

(** The create-or-update step: look the File up, then create it or update
    it. *)
Definition upsert (h : contentHandler) (req : Request) (contentSize : Z)
    (contentType : string) : Handler S unit :=
  r <- storeGet (ctx h) (name h) ;;
  match r with
  | inr err =>
      if negb (IsNotFound err) then reply (ResponderError err)
      else
        let contentURL := buildContentURL h req in
        err <- storeCreate (ctx h)
                 (newFile h contentURL contentSize contentType) ;;
        match err with
        | Some err =>
            reply (HttpError ("failed to create file resource: "
                              +:+ error_Error err) StatusInternalServerError)
        | None => ret tt
        end
  | inl OtherObject => reply (ResponderError (Errorf "object is not a File"))
  | inl (FileObject file) =>
      let contentURL := buildContentURL h req in
      err <- storeUpdate (ctx h) (name h)
               (updatedFile file contentURL contentSize contentType) ;;
      match err with
      | Some err =>
          reply (HttpError ("failed to update file resource: "
                            +:+ error_Error err) StatusInternalServerError)
      | None => ret tt
      end
  end.

(** The two messages of a rejected Content-Type. *)
Definition invalidMessage (err : mimeError) : string :=
  "invalid Content-Type: " +:+ mimeError_Error err.

Definition unsupportedMessage (mediaType : string) : string :=
  "unsupported Content-Type: " +:+ mediaType +:+
  " (must be a valid MIME type like text/*, application/*, image/*, etc.)".

(** The tail of [handlePut]: build the status, store content and status,
    answer 201. *)
Definition commit (h : contentHandler) (contentBytes : list Byte.byte)
    (contentSize : Z) (contentType : string) : Handler S Response :=
  let status := uploadStatus h contentSize contentType in
  contentPut (name h) {| data := contentBytes; status := status |} ;;;
  ret (ResponderObject StatusCreated
         {| FileContent_TypeMeta := zeroTypeMeta;
            FileContent_Status := status |}).

Definition handlePut (h : contentHandler) (req : Request) : Handler S Response :=
  match Body req with
  | inr err =>
      reply (HttpError ("failed to read request body: " +:+ err)
               StatusInternalServerError)
  | inl contentBytes =>
      (* [int64(len(contentBytes))]: [len] is an [int], at most 64 bits
         wide, so the conversion never wraps *)
      let contentSize := Z.of_nat (length contentBytes) in
      let contentType := declaredContentType req in
      let '(mediaType, params, err) := ParseMediaType contentType in
      match err with
      | Some err =>
          reply (HttpError (invalidMessage err) StatusBadRequest)
      | None =>
          if negb (isValidMIMEType mediaType)
          then reply (HttpError (unsupportedMessage mediaType) StatusBadRequest)
          else
            let contentType := normalizedContentType mediaType params in
            upsert h req contentSize contentType ;;;
            commit h contentBytes contentSize contentType
      end
  end.

(** ** [ServeHTTP] *)

Definition ServeHTTP (h : contentHandler) (req : Request) (w : World S)
  : World S * Response :=
  if String.eqb (Method req) "GET" then serve (handleGet h req false) w
  else if String.eqb (Method req) "HEAD" then serve (handleGet h req true) w
  else if String.eqb (Method req) "PUT" then serve (handlePut h req) w
  else (w, HttpError ("method " +:+ Method req +:+ " not allowed")
             StatusMethodNotAllowed).

End Handlers.

(** ** A reference object store

    The generic registry reduced to what the handlers can observe: Files keyed
    by namespace and name, and for each of the three calls an error the store
    can be told to fail with (an unreachable backend, a conflict, ...). *)

Record MemStore : Type := {
  files : gmap (string * string) File;
  failGet : option error;
  failCreate : option error;
  failUpdate : option error
}.

Definition MemStore_Get (s : MemStore) (c : Context) (key : string)
  : Object + error :=
  match failGet s with
  | Some err => inr err
  | None =>
      match files s !! (NamespaceValue c, key) with
      | Some file => inl (FileObject file)
      | None => inr (NewNotFound (cdn_Resource "files") key)
      end
  end.

Definition MemStore_put (s : MemStore) (c : Context) (key : string)
    (file : File) : MemStore :=
  {| files := <[(NamespaceValue c, key) := file]> (files s);
     failGet := failGet s; failCreate := failCreate s;
     failUpdate := failUpdate s |}.

Definition MemStore_Create (s : MemStore) (c : Context) (file : File)
  : MemStore * option error :=
  match failCreate s with
  | Some err => (s, Some err)
  | None =>
      match files s !! (NamespaceValue c, Name (ObjectMeta file)) with
      | Some _ =>
          (s, Some (StatusError "AlreadyExists" 409 "already exists"))
      | None => (MemStore_put s c (Name (ObjectMeta file)) file, None)
      end
  end.

Definition MemStore_Update (s : MemStore) (c : Context) (key : string)
    (file : File) : MemStore * option error :=
  match failUpdate s with
  | Some err => (s, Some err)
  | None =>
      match files s !! (NamespaceValue c, key) with
      | None => (s, Some (NewNotFound (cdn_Resource "files") key))
      | Some _ => (MemStore_put s c key file, None)
      end
  end.

#[export] Instance MemStore_ObjectStore : ObjectStore MemStore :=
  {| store_Get := MemStore_Get;
     store_Create := MemStore_Create;
     store_Update := MemStore_Update |}.

Definition emptyStore : MemStore :=
  {| files := ∅; failGet := None; failCreate := None; failUpdate := None |}.

Definition emptyWorld : World MemStore :=
  {| objects := emptyStore; entries := ∅; calls := [] |}.

(** A handler, a PUT and a GET to run the embedding on. *)
Definition helloHandler : contentHandler :=
  {| ctx := {| NamespaceValue := "default" |}; name := "hello";
     externalHost := EmptyString |}.

Definition hi : list Byte.byte := [Byte.x68; Byte.x69].

Definition putRequest (contentType : string) (body : list Byte.byte) : Request :=
  {| Method := "PUT"; Host := "cdn.example:8443"; TLS := true;
     Header := {["Content-Type" := [contentType]]}; Body := inl body |}.

Definition getRequest : Request :=
  {| Method := "GET"; Host := "cdn.example:8443"; TLS := true;
     Header := ∅; Body := inl [] |}.

Definition plainPut : Request := putRequest "text/plain" hi.

Definition charsetPut : Request := putRequest "text/plain; charset=utf-8" hi.

(** The world after [charsetPut] on the empty reference store. *)
Definition uploadedWorld : World MemStore :=
  fst (ServeHTTP (U := asciiUnicode) helloHandler charsetPut emptyWorld).

(** A File another client has created and labelled, with a failed upload on
    record, and the world that holds it. *)
Definition labelledFile : File :=
  {| TypeMeta := {| Kind := "File"; APIVersion := "cdn.k8s.toms.place/v1alpha1" |};
     ObjectMeta :=
       {| Name := "hello"; GenerateName := EmptyString; Namespace := "default";
          SelfLink := EmptyString; UID := "0b4ceb5a"; ResourceVersion := "41";
          Generation := 1; CreationTimestamp := Some 1700000000;
          DeletionTimestamp := None; DeletionGracePeriodSeconds := None;
          Labels := {["team" := "web"]}; Annotations := {["note" := "logo"]};
          OwnerReferences := []; Finalizers := ["cdn/cleanup"];
          ManagedFields := [] |};
     Spec := {| URL := EmptyString; Size := 0; ContentType := "image/png";
                ResourceLocation := "/path/to/content" |};
     Status := {| Uploaded := false; Error := "upload interrupted" |} |}.

Definition labelledWorld : World MemStore :=
  {| objects := {| files := {[("default", "hello") := labelledFile]};
                   failGet := None; failCreate := None; failUpdate := None |};
     entries := ∅; calls := [] |}.

(** A world whose object store cannot be reached. *)
Definition unavailable : error :=
  StatusError "ServiceUnavailable" 503 "storage is unavailable".

Definition brokenWorld : World MemStore :=
  {| objects := {| files := ∅; failGet := Some unavailable;
                   failCreate := None; failUpdate := None |};
     entries := ∅; calls := [] |}.

(** A world whose lookups are answered 404 without a reason, as by a proxy
    that stands before the store: no not-found error of the API machinery,
    yet one that [IsNotFound] takes as not found. *)
Definition pageNotFound : error :=
  StatusError StatusReasonUnknown 404 "404 page not found".

Definition proxiedWorld : World MemStore :=
  {| objects := {| files := ∅; failGet := Some pageNotFound;
                   failCreate := None; failUpdate := None |};
     entries := ∅; calls := [] |}.

(** ** The vocabulary of the properties *)

(** The top-level categories of the allow-list, as the specification lists
    them. *)
Definition allowedCategories : list string :=
  ["application"; "audio"; "font"; "image"; "message"; "model"; "multipart";
   "text"; "video"].

(** A metadata upsert: a [Create] or an [Update] on the object store. *)
Definition isUpsert (c : Call) : bool :=
  match c with
  | CallCreate _ _ | CallUpdate _ _ _ => true
  | _ => false
  end.

(** An upsert that returned no error. *)
Definition upsertSucceeded (c : Call) : bool :=
  match c with
  | CallCreate _ None | CallUpdate _ _ None => true
  | _ => false
  end.

Definition isContentPut (c : Call) : bool :=
  match c with
  | CallContentPut _ _ => true
  | _ => false
  end.

(** The file an upsert call carries. *)
Definition upsertedFile (c : Call) : option File :=
  match c with
  | CallCreate file _ | CallUpdate _ file _ => Some file
  | _ => None
  end.

(** "Store write before metadata upsert": each upsert in a sequence of calls
    has a content commit before it. *)
Definition contentCommittedFirst (cs : list Call) : Prop :=
  forall pre c post,
    cs = pre ++ c :: post -> isUpsert c = true ->
    exists key entry, In (CallContentPut key entry) pre.

(** "Metadata upsert before store write": each content commit in a sequence of
    calls has an upsert that returned no error before it, and no upsert after
    it. *)
Definition upsertedFirst (cs : list Call) : Prop :=
  forall pre key entry post,
    cs = pre ++ CallContentPut key entry :: post ->
    (exists c, In c pre /\ upsertSucceeded c = true)
    /\ (forall c, In c post -> isUpsert c = false).

(** The success status descriptor of the entry stored under [key]: status
    Success, code 201, a message and details naming the resource. *)
Definition successEntry (key : string) (entry : contentEntry) : Prop :=
  status_Status (status entry) = StatusSuccess
  /\ status_Code (status entry) = StatusCreated
  /\ (exists contentType,
        status_Message (status entry) =
        "content uploaded successfully for file " +:+ key +:+ " ("
        +:+ formatInt (Z.of_nat (length (data entry))) +:+ " bytes, "
        +:+ contentType +:+ ")")
  /\ (exists details, status_Details (status entry) = Some details
                      /\ details_Name details = key).

Section Reachability.
Context `{U : GoUnicode} {S : Type} `{OS : ObjectStore S}.

(** The worlds the server can be in: it starts with an empty content store,
    serves requests one after the other, and in between the object store
    moves under the other clients of the API (any CRUD on Files). *)
Inductive reachable : World S -> Prop :=
| reachable_start (s : S) :
    reachable {| objects := s; entries := ∅; calls := [] |}
| reachable_serve (w : World S) (h : contentHandler) (req : Request) :
    reachable w -> reachable (fst (ServeHTTP h req w))
| reachable_environment (w : World S) (s : S) :
    reachable w ->
    reachable {| objects := s; entries := entries w; calls := calls w |}.

End Reachability.

(** ** The rest of [ContentREST] *)

(** [ContentREST.ConnectMethods] *)
Definition ConnectMethods : list string := ["GET"; "HEAD"; "PUT"].

(** ** The table convertor of the File registry ([fileTableConvertor]) *)

(** A cell of a table row ([interface{}]): the convertor puts strings, an
    [int64] and a [bool] there. *)
Inductive Cell : Type :=
| CellString (s : string)
| CellInt (z : Z)
| CellBool (b : bool).

(** The OpenAPI type of a cell, as a column definition names it. *)
Definition cellType (c : Cell) : string :=
  match c with
  | CellString _ => "string"
  | CellInt _ => "integer"
  | CellBool _ => "boolean"
  end.

(** [metav1.TableRow]: [Object] is [runtime.RawExtension{Object: file}]. *)
Record TableRow : Type := {
  Cells : list Cell;
  row_Object : File
}.

(** [metav1.TableColumnDefinition] *)
Record TableColumnDefinition : Type := {
  column_Name : string;
  column_Type : string;
  column_Format : string;
  column_Description : string;
  column_Priority : Z
}.

(** [metav1.Table] (the fields the convertor sets). *)
Record Table : Type := {
  table_ResourceVersion : string;
  table_Continue : string;
  ColumnDefinitions : list TableColumnDefinition;
  Rows : list TableRow
}.

(** [cdn.FileList]: the list meta and the items. *)
Record FileList : Type := {
  list_ResourceVersion : string;
  list_Continue : string;
  Items : list File
}.

(** The [runtime.Object] handed to [ConvertToTable], as its type switch sees
    it. *)
Inductive TableObject : Type :=
| ObjectFileList (obj : FileList)
| ObjectFile (obj : File)
| ObjectOther.

Section TableConvertor.
(** What the convertor takes from outside: the two descriptions out of
    [metav1.ObjectMeta{}.SwaggerDoc()], the elapsed time [time.Since] of a
    creation time, and [humanDuration], whose arithmetic is on [float64]. *)
Variable swaggerDocName swaggerDocCreationTimestamp : string.
Variable timeSince : Z -> Z.
Variable humanDuration : Z -> string.

(** [translateTimestampSince]: [None] is the zero time. *)
Definition translateTimestampSince (timestamp : option Z) : string :=
  match timestamp with
  | None => "<unknown>"
  | Some t => humanDuration (timeSince t)
  end.

(** [fileToRow] *)
Definition fileToRow (file : File) : TableRow :=
  {| row_Object := file;
     Cells := [CellString (Name (ObjectMeta file));
               CellInt (Size (Spec file));
               CellString (translateTimestampSince
                             (CreationTimestamp (ObjectMeta file)));
               CellString (ContentType (Spec file));
               CellBool (Uploaded (Status file))] |}.

(** The column definitions of [ConvertToTable]. *)
Definition fileColumns : list TableColumnDefinition :=
  [ {| column_Name := "Name"; column_Type := "string"; column_Format := "name";
       column_Description := swaggerDocName; column_Priority := 0 |};
    {| column_Name := "Size"; column_Type := "integer";
       column_Format := EmptyString;
       column_Description := "Size of the file in bytes"; column_Priority := 0 |};
    {| column_Name := "Age"; column_Type := "string"; column_Format := EmptyString;
       column_Description := swaggerDocCreationTimestamp;
       column_Priority := 0 |};
    {| column_Name := "Content-Type"; column_Type := "string";
       column_Format := EmptyString;
       column_Description := "MIME type of the file"; column_Priority := 1 |};
    {| column_Name := "Uploaded"; column_Type := "boolean";
       column_Format := EmptyString;
       column_Description := "Whether the file has been uploaded";
       column_Priority := 1 |} ].

(** The loop [for i := range obj.Items] with its [append]. *)
Definition appendRows (rows : list TableRow) (items : list File)
  : list TableRow :=
  fold_left (fun rows file => rows ++ [fileToRow file]) items rows.

(** [ConvertToTable]; the error it returns is always [nil]. *)
Definition ConvertToTable (object : TableObject) : Table :=
  match object with
  | ObjectFileList obj =>
      {| table_ResourceVersion := list_ResourceVersion obj;
         table_Continue := list_Continue obj;
         ColumnDefinitions := fileColumns;
         Rows := appendRows [] (Items obj) |}
  | ObjectFile obj =>
      {| table_ResourceVersion := ResourceVersion (ObjectMeta obj);
         table_Continue := EmptyString;
         ColumnDefinitions := fileColumns;
         Rows := [] ++ [fileToRow obj] |}
  | ObjectOther =>
      {| table_ResourceVersion := EmptyString;
         table_Continue := EmptyString;
         ColumnDefinitions := fileColumns;
         Rows := [] |}
  end.

End TableConvertor.

(** ** [VersionToKubeVersion] (server options) *)

(** Go's [uint] and [int] on the 64-bit targets the server is built for. *)
Definition wrapUint (z : Z) : Z := z mod 2 ^ 64.
Definition wrapInt (z : Z) : Z := (z + 2 ^ 63) mod 2 ^ 64 - 2 ^ 63.

(** A [version.Version] of the form major.minor (apimachinery's
    [util/version]), which is what [MajorMinor] builds and what
    [DefaultKubeBinaryVersion] parses to. *)
Record KubeVersion : Type := {
  Major : Z;
  Minor : Z
}.

(** [version.MajorMinor] *)
Definition MajorMinor (major minor : Z) : KubeVersion :=
  {| Major := major; Minor := minor |}.

(** [Version.OffsetMinor]: the minor moved by [offset], not below 0; same
    major. *)
Definition OffsetMinor (v : KubeVersion) (offset : Z) : KubeVersion :=
  let minor :=
    if 0 <=? offset then wrapUint (Minor v + wrapUint offset)
    else
      let diff := wrapUint (wrapInt (- offset)) in
      if diff <? Minor v then wrapUint (Minor v - diff) else 0 in
  MajorMinor (Major v) minor.

(** [Version.GreaterThan] on two major.minor versions. *)
Definition GreaterThan (v other : KubeVersion) : bool :=
  (Major other <? Major v)
  || ((Major other =? Major v) && (Minor other <? Minor v)).

(** [VersionToKubeVersion]; [kubeVer] is
    [version.MustParse(baseversion.DefaultKubeBinaryVersion)], [None] is
    [nil]. *)
Definition VersionToKubeVersion (kubeVer ver : KubeVersion)
  : option KubeVersion :=
  if negb (Major ver =? 1) then None
  else
    let offset := wrapInt (wrapInt (Minor ver) - 2) in
    let mappedVer := OffsetMinor kubeVer offset in
    if GreaterThan mappedVer kubeVer then Some kubeVer else Some mappedVer.

(** ** The kubectl plugin (plugin/kubectl-cdn) *)

Module KubectlCdn.



End KubectlCdn.

(** ** The file list of the web UI (FilesList.tsx) *)

Module FilesList.

(** A [Map<string, FileType>]: its entries in insertion order, one per key. *)
Fixpoint mapGet (key : string) (m : list (string * File)) : option File :=
  match m with
  | [] => None
  | (k, v) :: m' => if String.eqb k key then Some v else mapGet key m'
  end.

(** [Map.prototype.set]: the value of an existing key is replaced where it
    stands, a new key goes to the end. *)
Fixpoint mapSet (key : string) (value : File) (m : list (string * File))
  : list (string * File) :=
  match m with
  | [] => [(key, value)]
  | (k, v) :: m' =>
      if String.eqb k key then (k, value) :: m'
      else (k, v) :: mapSet key value m'
  end.

(** [Map.prototype.delete] *)
Fixpoint mapDelete (key : string) (m : list (string * File))
  : list (string * File) :=
  match m with
  | [] => []
  | (k, v) :: m' =>
      if String.eqb k key then m' else (k, v) :: mapDelete key m'
  end.

(** [WatchEvent]; an absent [object] is [None]. *)
Record WatchEvent : Type := {
  type : string;
  object : option File
}.

(** The state of the component: [files], [status], [lastEvent]. *)
Record State : Type := {
  files : list (string * File);
  status : string;
  lastEvent : option string
}.

(** [watchEvent.object?.metadata?.name]; the empty string stands for
    [undefined] as well, both being falsy. *)
Definition fileName (watchEvent : WatchEvent) : string :=
  match object watchEvent with
  | Some file => Name (ObjectMeta file)
  | None => EmptyString
  end.

(** The updater handed to [setFiles]. *)
Definition updateFiles (watchEvent : WatchEvent) (prevFiles : list (string * File))
  : list (string * File) :=
  if String.eqb (type watchEvent) "ADDED"
     || String.eqb (type watchEvent) "MODIFIED"
  then match object watchEvent with
       | Some file => mapSet (fileName watchEvent) file prevFiles
       | None => prevFiles
       end
  else if String.eqb (type watchEvent) "DELETED"
       then mapDelete (fileName watchEvent) prevFiles
       else prevFiles.

(** [eventSource.onmessage] on an event that parsed. *)
Definition onmessage (watchEvent : WatchEvent) (st : State) : State :=
  let shown :=
    type watchEvent +:+ ": " +:+
    (if String.eqb (fileName watchEvent) EmptyString then "unknown"
     else fileName watchEvent) in
  if String.eqb (type watchEvent) "ERROR"
  then {| files := files st; status := "error"; lastEvent := Some shown |}
  else if String.eqb (type watchEvent) "BOOKMARK"
       then {| files := files st; status := status st;
               lastEvent := Some shown |}
       else if String.eqb (fileName watchEvent) EmptyString
            then {| files := files st; status := status st;
                    lastEvent := Some shown |}
            else {| files := updateFiles watchEvent (files st);
                    status := status st; lastEvent := Some shown |}.

(** The map built from the initial list: items without a name are skipped. *)
Definition initialFiles (items : list File) : list (string * File) :=
  fold_left
    (fun m file =>
       if String.eqb (Name (ObjectMeta file)) EmptyString then m
       else mapSet (Name (ObjectMeta file)) file m)
    items [].

(** [Array.from(files.values())] *)
Definition filesList (m : list (string * File)) : list File := map snd m.

(** The states the component goes through: it starts with an empty map; the
    initial fetch, when it resolves, sets the map built from its items; the
    event source opens, delivers messages, and reports errors. *)
Inductive shown : State -> Prop :=
| shown_start :
    shown {| files := []; status := "connecting"; lastEvent := None |}
| shown_fetched (items : list File) (st : State) :
    shown st ->
    shown {| files := initialFiles items; status := status st;
             lastEvent := lastEvent st |}
| shown_open (st : State) :
    shown st ->
    shown {| files := files st; status := "connected";
             lastEvent := lastEvent st |}
| shown_message (watchEvent : WatchEvent) (st : State) :
    shown st -> shown (onmessage watchEvent st)
| shown_error (st : State) :
    shown st ->
    shown {| files := files st; status := "error"; lastEvent := lastEvent st |}.

(** Every key is the non-empty name of the file it maps to, and no key
    occurs twice. *)
Definition wellKeyed (m : list (string * File)) : Prop :=
  NoDup (map fst m)
  /\ forall key file, In (key, file) m ->
       key <> EmptyString /\ Name (ObjectMeta file) = key.

End FilesList.

(** ** Tokens *)

(** Every byte of [s] is a token character of RFC 2045. *)
Fixpoint isToken (s : string) : bool :=
  match s with
  | EmptyString => true
  | String c s' => isTokenChar c && isToken s'
  end.

(** The byte [c] occurs in [s]. *)
Fixpoint hasByte (c : ascii) (s : string) : bool :=
  match s with
  | EmptyString => false
  | String x s' => Ascii.eqb c x || hasByte c s'
  end.

(** ** Runs of several requests, and more worlds to run on *)

Section Sequences.
Context `{U : GoUnicode} {S : Type} `{OS : ObjectStore S}.

(** The requests of a list served one after the other, each by the handler
    [Connect] made for it. *)
Definition serveAll (requests : list (contentHandler * Request)) (w : World S)
  : World S :=
  fold_left (fun w hr => fst (ServeHTTP (fst hr) (snd hr) w)) requests w.

End Sequences.

(** The handler for the same name in another namespace. *)
Definition otherHandler : contentHandler :=
  {| ctx := {| NamespaceValue := "other" |}; name := "hello";
     externalHost := "files.example" |}.

(** A world with a File named hello in the namespace other, and none in
    default. *)
Definition otherWorld : World MemStore :=
  {| objects := {| files := {[("other", "hello") := labelledFile]};
                   failGet := None; failCreate := None; failUpdate := None |};
     entries := ∅; calls := [] |}.

(** The world after [plainPut] for hello in the namespace default, on
    [otherWorld]. *)
Definition otherUploadedWorld : World MemStore :=
  fst (ServeHTTP (U := asciiUnicode) helloHandler plainPut otherWorld).

(** The handler for another name in the default namespace. *)
Definition logoHandler : contentHandler :=
  {| ctx := {| NamespaceValue := "default" |}; name := "logo";
     externalHost := EmptyString |}.

(** A PUT without a Content-Type header, a DELETE, and a HEAD. *)
Definition barePut : Request :=
  {| Method := "PUT"; Host := "cdn.example:8443"; TLS := false;
     Header := ∅; Body := inl hi |}.

Definition deleteRequest : Request :=
  {| Method := "DELETE"; Host := "cdn.example:8443"; TLS := true;
     Header := ∅; Body := inl [] |}.

Definition headRequest : Request :=
  {| Method := "HEAD"; Host := "cdn.example:8443"; TLS := true;
     Header := ∅; Body := inl [] |}.

(** A watch event that adds the labelled File, one that deletes it, the
    state the file list starts in, and its state after the first event. *)
Definition helloAdded : FilesList.WatchEvent :=
  {| FilesList.type := "ADDED"; FilesList.object := Some labelledFile |}.

Definition helloDeleted : FilesList.WatchEvent :=
  {| FilesList.type := "DELETED"; FilesList.object := Some labelledFile |}.

Definition startState : FilesList.State :=
  {| FilesList.files := []; FilesList.status := "connecting";
     FilesList.lastEvent := None |}.

Definition listedState : FilesList.State :=
  FilesList.onmessage helloAdded startState.

(** A Content-Type header in mixed case with two parameters, and one whose
    charset is a quoted string with a space in it. *)
Definition flowedContentType : string :=
  "Text/Plain; Charset=UTF-8; format=flowed".

Definition quotedContentType : string :=
  "text/plain; charset=" +:+ String "034" ("utf 8" +:+ String "034" EmptyString).

(** * Properties *)

(** ** Strings *)

Lemma append_cons (c : ascii) (a b : string) :
  String c a +:+ b = String c (a +:+ b).
Proof. reflexivity. Qed.

Lemma append_assoc (a b c : string) : (a +:+ b) +:+ c = a +:+ (b +:+ c).
Proof.
  induction a as [|x a IH]; [reflexivity|].
  rewrite !append_cons. f_equal. exact IH.
Qed.

Lemma Cut_cons_slash (c : ascii) (s : string) :
  Cut (String c s) "/" =
  if Ascii.eqb "/" c then Some (EmptyString, s)
  else match Cut s "/" with
       | Some (before, after) => Some (String c before, after)
       | None => None
       end.
Proof.
  cbn [Cut HasPrefix dropBytes String.length]. now rewrite andb_true_r.
Qed.

Lemma Cut_slash_sound (s before after : string) :
  Cut s "/" = Some (before, after) -> s = before +:+ "/" +:+ after.
Proof.
  revert before. induction s as [|c s IH]; intros before.
  - discriminate.
  - rewrite Cut_cons_slash. destruct (Ascii.eqb "/" c) eqn:E.
    + apply Ascii.eqb_eq in E. subst c. intros [= <- <-]. reflexivity.
    + destruct (Cut s "/") as [[b a]|] eqn:Hc; [|discriminate].
      intros [= <- <-]. rewrite append_cons. f_equal. now apply IH.
Qed.

Lemma SplitN_slash_2 (s : string) :
  SplitN s "/" 2 = match Cut s "/" with
                   | Some (before, after) => [before; after]
                   | None => [s]
                   end.
Proof.
  cbn [SplitN]. destruct (Cut s "/") as [[b a]|]; reflexivity.
Qed.

Lemma allowed_lookup (topLevel : string) :
  default false (allowedMIMETypes !! topLevel) = true <->
  In topLevel allowedCategories.
Proof.
  split.
  - destruct (allowedMIMETypes !! topLevel) as [b|] eqn:E; simpl; [|discriminate].
    intros ->. apply elem_of_list_to_map_2 in E.
    apply list_elem_of_In in E. simpl in E.
    repeat (destruct E as [E|E]; [inversion E; simpl; tauto|]). destruct E.
  - simpl. intros Hin.
    repeat (destruct Hin as [<-|Hin]; [vm_compute; reflexivity|]). destruct Hin.
Qed.

Lemma Cut_allowed (topLevel subType : string) :
  In topLevel allowedCategories ->
  Cut (topLevel +:+ "/" +:+ subType) "/" = Some (topLevel, subType).
Proof.
  simpl. intros Hin.
  repeat (destruct Hin as [<-|Hin]; [reflexivity|]). destruct Hin.
Qed.

(** [isValidMIMEType] in the terms of the specification: the text before the
    first slash is an allowed category and the text after it is not empty. *)
Lemma isValidMIMEType_spec (mediaType : string) :
  isValidMIMEType mediaType = true <->
  exists topLevel subType,
    mediaType = topLevel +:+ "/" +:+ subType
    /\ In topLevel allowedCategories /\ subType <> EmptyString.
Proof.
  unfold isValidMIMEType. rewrite SplitN_slash_2. split.
  - destruct (Cut mediaType "/") as [[b a]|] eqn:Hc; [|discriminate].
    destruct (default false (allowedMIMETypes !! b)) eqn:Ha; simpl; [|discriminate].
    destruct (String.eqb a EmptyString) eqn:He; [discriminate|]. intros _.
    exists b, a. split; [now apply Cut_slash_sound|]. split.
    + now apply allowed_lookup.
    + intros ->. discriminate.
  - intros (b & a & -> & Hin & Hne). rewrite (Cut_allowed _ _ Hin).
    apply allowed_lookup in Hin. rewrite Hin. simpl.
    destruct (String.eqb a EmptyString) eqn:He; [|reflexivity].
    apply String.eqb_eq in He. contradiction.
Qed.

(** ** The parameter loop of [ParseMediaType] has fuel enough *)

Lemma TrimLeftSpace_bounded (n : nat) (s : string) :
  (String.length s <= n)%nat ->
  (String.length (TrimLeftSpace s) <= String.length s)%nat.
Proof.
  revert s. induction n as [|n IH]; intros s Hle.
  - destruct s; cbn [String.length TrimLeftSpace] in *; lia.
  - destruct s as [|a s1]; [cbn [String.length TrimLeftSpace]; lia|].
    pose proof (IH s1) as IH1.
    destruct s1 as [|b s2].
    { cbn [String.length TrimLeftSpace] in *.
      destruct (isAsciiSpace a); cbn [String.length]; lia. }
    pose proof (IH s2) as IH2.
    destruct s2 as [|c s3].
    { cbn [String.length] in Hle.
      change (TrimLeftSpace (String a (String b EmptyString)))
        with (if isAsciiSpace a then TrimLeftSpace (String b EmptyString)
              else if isSpace2 a b then TrimLeftSpace EmptyString
                   else String a (String b EmptyString)).
      destruct (isAsciiSpace a); [cbn [String.length] in *; lia|].
      destruct (isSpace2 a b); cbn [String.length TrimLeftSpace]; lia. }
    pose proof (IH s3) as IH3.
    cbn [String.length] in Hle.
    change (TrimLeftSpace (String a (String b (String c s3))))
      with (if isAsciiSpace a then TrimLeftSpace (String b (String c s3))
            else if isSpace2 a b then TrimLeftSpace (String c s3)
                 else if isSpace3 a b c then TrimLeftSpace s3
                      else String a (String b (String c s3))).
    destruct (isAsciiSpace a); [cbn [String.length] in *; lia|].
    destruct (isSpace2 a b); [cbn [String.length] in *; lia|].
    destruct (isSpace3 a b c); cbn [String.length] in *; lia.
Qed.

Lemma TrimLeftSpace_length (s : string) :
  (String.length (TrimLeftSpace s) <= String.length s)%nat.
Proof. apply (TrimLeftSpace_bounded (String.length s)). lia. Qed.

Lemma consumeToken_length (v : string) :
  (String.length (snd (consumeToken v)) <= String.length v)%nat.
Proof.
  induction v as [|c v IH]; cbn [consumeToken]; [cbn [snd String.length]; lia|].
  destruct (isTokenChar c); [|cbn [snd String.length]; lia].
  destruct (consumeToken v) as [token rest]. cbn [snd String.length] in *. lia.
Qed.

Lemma consumeQuoted_bounded (n : nat) (v value rest : string) :
  (String.length v <= n)%nat ->
  consumeQuoted v = Some (value, rest) ->
  (String.length rest < String.length v)%nat.
Proof.
  revert v value rest. induction n as [|n IH]; intros v value rest Hle.
  - destruct v; [discriminate|cbn [String.length] in Hle; lia].
  - destruct v as [|r v']; [discriminate|]. cbn [consumeQuoted].
    cbn [String.length] in *.
    assert (Hkeep : forall value rest,
               (if ((byteOf r =? 13) || (byteOf r =? 10))%nat then None
                else prod_map (String r) id <$> consumeQuoted v')
               = Some (value, rest) ->
               (String.length rest < S (String.length v'))%nat).
    { intros value0 rest0.
      destruct ((byteOf r =? 13) || (byteOf r =? 10))%nat; [discriminate|].
      destruct (consumeQuoted v') as [[a b]|] eqn:Hq; [|discriminate].
      cbn. intros [= <- <-]. specialize (IH v' a b ltac:(lia) Hq). lia. }
    destruct (byteOf r =? 34)%nat.
    { intros [= <- <-]. lia. }
    destruct (byteOf r =? 92)%nat; [|exact (Hkeep value rest)].
    destruct v' as [|m v'']; [exact (Hkeep value rest)|].
    destruct (isTSpecial m); [|exact (Hkeep value rest)].
    destruct (consumeQuoted v'') as [[a b]|] eqn:Hq; [|discriminate].
    cbn. intros [= <- <-]. cbn [String.length] in *.
    specialize (IH v'' a b ltac:(lia) Hq). lia.
Qed.

Lemma consumeValue_length (v : string) :
  (String.length (snd (consumeValue v)) <= String.length v)%nat.
Proof.
  destruct v as [|c v']; [cbn [consumeValue snd String.length]; lia|].
  unfold consumeValue.
  destruct (negb (byteOf c =? 34)%nat); [apply consumeToken_length|].
  destruct (consumeQuoted v') as [[value rest]|] eqn:Hq;
    [|cbn [snd String.length]; lia].
  apply (consumeQuoted_bounded (String.length v')) in Hq; [|lia].
  cbn [snd String.length]. lia.
Qed.

Lemma HasPrefix_byte (s : string) (c : ascii) :
  HasPrefix s (String c EmptyString) = true ->
  exists s', s = String c s' /\ dropBytes 1 s = s'.
Proof.
  destruct s as [|a s']; [discriminate|]. cbn [HasPrefix].
  rewrite andb_true_r. intros E. apply Ascii.eqb_eq in E. subst a.
  exists s'. split; reflexivity.
Qed.

Section Fuel.
Context `{U : GoUnicode}.

(** A parameter that was consumed took at least its semicolon. *)
Lemma consumeMediaParam_length (v key value rest : string) :
  consumeMediaParam v = (key, value, rest) ->
  key <> EmptyString ->
  (String.length rest < String.length v)%nat.
Proof.
  unfold consumeMediaParam. intros Hc Hkey.
  pose proof (TrimLeftSpace_length v) as H0.
  destruct (HasPrefix (TrimLeftSpace v) ";") eqn:Hsemi; cbn [negb] in Hc;
    [|injection Hc as <- _ _; contradiction].
  apply HasPrefix_byte in Hsemi. destruct Hsemi as (r1 & Hr1 & Hd1).
  rewrite Hd1 in Hc. rewrite Hr1 in H0. cbn [String.length] in H0.
  pose proof (TrimLeftSpace_length r1) as H1.
  pose proof (consumeToken_length (TrimLeftSpace r1)) as H2.
  destruct (consumeToken (TrimLeftSpace r1)) as [param r2]. cbn [snd] in H2.
  destruct (String.eqb (ToLower param) EmptyString);
    [injection Hc as <- _ _; contradiction|].
  pose proof (TrimLeftSpace_length r2) as H3.
  destruct (HasPrefix (TrimLeftSpace r2) "=") eqn:Heq; cbn [negb] in Hc;
    [|injection Hc as <- _ _; contradiction].
  apply HasPrefix_byte in Heq. destruct Heq as (r3 & Hr3 & Hd3).
  rewrite Hd3 in Hc. rewrite Hr3 in H3. cbn [String.length] in H3.
  pose proof (TrimLeftSpace_length r3) as H4.
  pose proof (consumeValue_length (TrimLeftSpace r3)) as H5.
  destruct (consumeValue (TrimLeftSpace r3)) as [val r4]. cbn [snd] in H5.
  destruct (String.eqb val EmptyString && String.eqb r4 (TrimLeftSpace r3));
    [injection Hc as <- _ _; contradiction|].
  injection Hc as _ _ <-. lia.
Qed.

Lemma parseParams_step (fuel : nat) (mediatype v : string)
    (params : gmap string string)
    (continuation : gmap string (gmap string string)) :
  (String.length v <= fuel)%nat ->
  parseParams (S fuel) mediatype v params continuation
  = parseParams fuel mediatype v params continuation.
Proof.
  revert v params continuation.
  induction fuel as [|fuel IH]; intros v params continuation Hle.
  - destruct v; [reflexivity|cbn [String.length] in Hle; lia].
  - remember (parseParams (S fuel) mediatype v params continuation)
      as rhs eqn:HR.
    cbn [parseParams] in HR.
    remember (S fuel) as fuel1 eqn:Hf. cbn [parseParams]. subst rhs.
    destruct (String.eqb v EmptyString); [reflexivity|].
    pose proof (TrimLeftSpace_length v) as Ht.
    destruct (String.eqb (TrimLeftSpace v) EmptyString); [reflexivity|].
    destruct (consumeMediaParam (TrimLeftSpace v)) as [[key value] rest] eqn:Hc.
    destruct (String.eqb key EmptyString) eqn:Hk; [reflexivity|].
    assert (Hrest : (String.length rest <= fuel)%nat).
    { apply consumeMediaParam_length in Hc; [lia|].
      intros ->. discriminate. }
    subst fuel1.
    destruct (Cut key "*") as [[baseName after]|].
    + destruct (default ∅ (continuation !! baseName) !! key) as [v0|];
        [destruct (negb (String.eqb v0 value)); [reflexivity|]|];
        apply IH; exact Hrest.
    + destruct (params !! key) as [v0|];
        [destruct (negb (String.eqb v0 value)); [reflexivity|]|];
        apply IH; exact Hrest.
Qed.

(** More fuel than the length of the text changes nothing: the loop of
    [ParseMediaType] runs to its own end. *)
Lemma parseParams_fuel (extra : nat) (mediatype v : string)
    (params : gmap string string)
    (continuation : gmap string (gmap string string)) :
  parseParams (String.length v + extra) mediatype v params continuation
  = parseParams (String.length v) mediatype v params continuation.
Proof.
  induction extra as [|extra IH]; [now rewrite Nat.add_0_r|].
  rewrite Nat.add_succ_r, parseParams_step by lia. exact IH.
Qed.

End Fuel.

(** ** The stitching loop of [ParseMediaType] has fuel enough *)

Lemma uint_of_string_star (s : string) :
  NilEmpty.uint_of_string (s +:+ "*") = None.
Proof.
  induction s as [|c s IH]; [reflexivity|].
  rewrite append_cons. cbn [NilEmpty.uint_of_string]. rewrite IH. reflexivity.
Qed.

Lemma formatInt_nat (n : nat) :
  exists d, formatInt (Z.of_nat n) = NilEmpty.string_of_uint d
            /\ Z.to_int (Z.of_nat n) = Decimal.Pos d.
Proof.
  unfold formatInt. destruct (Z.of_nat n) as [|p|p] eqn:E; [| |lia];
    eexists; split; reflexivity.
Qed.

Lemma formatInt_inj (a b : nat) :
  formatInt (Z.of_nat a) = formatInt (Z.of_nat b) -> a = b.
Proof.
  destruct (formatInt_nat a) as (da & -> & Ha).
  destruct (formatInt_nat b) as (db & -> & Hb).
  intros Heq. apply (f_equal NilEmpty.uint_of_string) in Heq.
  rewrite !NilEmpty.usu in Heq. injection Heq as ->.
  apply Nat2Z.inj, DecimalZ.to_int_inj. congruence.
Qed.

Lemma formatInt_no_star (a b : nat) :
  formatInt (Z.of_nat a) <> formatInt (Z.of_nat b) +:+ "*".
Proof.
  destruct (formatInt_nat a) as (da & -> & _). intros Heq.
  apply (f_equal NilEmpty.uint_of_string) in Heq.
  rewrite NilEmpty.usu, uint_of_string_star in Heq. discriminate.
Qed.

Lemma append_byte_inj (s1 s2 : string) (c : ascii) :
  s1 +:+ String c EmptyString = s2 +:+ String c EmptyString -> s1 = s2.
Proof.
  revert s2. induction s1 as [|x s1 IH]; intros [|y s2]; rewrite ?append_cons.
  - reflexivity.
  - cbn [String.append]. intros [= _ H]. destruct s2; discriminate.
  - cbn [String.append]. intros [= _ H]. destruct s1; discriminate.
  - intros [= -> H]. f_equal. now apply IH.
Qed.

(** The key the loop finds in round [n]: [key*n] when that is present, else
    [key*n*]. *)
Lemma stitch_keys_differ (key : string) (a b : nat) (ea eb : bool) :
  (if ea then (key +:+ "*" +:+ formatInt (Z.of_nat a)) +:+ "*"
   else key +:+ "*" +:+ formatInt (Z.of_nat a))
  = (if eb then (key +:+ "*" +:+ formatInt (Z.of_nat b)) +:+ "*"
     else key +:+ "*" +:+ formatInt (Z.of_nat b)) ->
  a = b.
Proof.
  destruct ea, eb; rewrite ?append_assoc; intros Heq;
    do 2 apply String.app_inj in Heq.
  - apply append_byte_inj in Heq. now apply formatInt_inj.
  - symmetry in Heq. now apply formatInt_no_star in Heq.
  - now apply formatInt_no_star in Heq.
  - now apply formatInt_inj.
Qed.

Section Stitching.
Context `{U : GoUnicode} (key : string) (pieceMap : gmap string string).

(** Round [n] of the loop goes on to round [n + 1]. *)
Let continues (n : nat) : Prop :=
  is_Some (pieceMap !! (key +:+ "*" +:+ formatInt (Z.of_nat n)))
  \/ is_Some (pieceMap !! ((key +:+ "*" +:+ formatInt (Z.of_nat n)) +:+ "*")).

Let found (n : nat) : string :=
  match pieceMap !! (key +:+ "*" +:+ formatInt (Z.of_nat n)) with
  | Some _ => key +:+ "*" +:+ formatInt (Z.of_nat n)
  | None => (key +:+ "*" +:+ formatInt (Z.of_nat n)) +:+ "*"
  end.

Lemma found_inj : Inj (=) (=) found.
Proof.
  intros a b. unfold found.
  destruct (pieceMap !! (key +:+ "*" +:+ formatInt (Z.of_nat a)));
    destruct (pieceMap !! (key +:+ "*" +:+ formatInt (Z.of_nat b)));
    intros Heq.
  - exact (stitch_keys_differ key a b false false Heq).
  - exact (stitch_keys_differ key a b false true Heq).
  - exact (stitch_keys_differ key a b true false Heq).
  - exact (stitch_keys_differ key a b true true Heq).
Qed.

Lemma found_in_map (n : nat) : continues n -> found n ∈ dom pieceMap.
Proof.
  unfold continues, found. intros Hc. apply elem_of_dom.
  destruct (pieceMap !! (key +:+ "*" +:+ formatInt (Z.of_nat n))) eqn:E.
  - rewrite E. eauto.
  - destruct Hc as [[x Hx]|Hc]; [discriminate|exact Hc].
Qed.

(** The rounds that go on find pairwise different keys of [pieceMap]: there
    are at most [size pieceMap] of them in a row. *)
Lemma rounds_bounded (n k : nat) :
  (forall i, (i < k)%nat -> continues (n + i)) -> (k <= size pieceMap)%nat.
Proof.
  intros Hrun.
  assert (Hnodup : NoDup (found <$> seq n k)).
  { apply (@NoDup_fmap_2 _ _ found found_inj), NoDup_seq. }
  assert (Hsub : (list_to_set (found <$> seq n k) : gset string)
                 ⊆ dom pieceMap).
  { intros x Hx. apply elem_of_list_to_set in Hx.
    apply list_elem_of_fmap in Hx. destruct Hx as (i & -> & Hi).
    apply elem_of_seq in Hi. apply found_in_map.
    replace i with (n + (i - n))%nat by lia. apply Hrun. lia. }
  apply subseteq_size in Hsub.
  rewrite size_list_to_set in Hsub by exact Hnodup.
  rewrite length_fmap, length_seq, size_dom in Hsub. exact Hsub.
Qed.

Lemma stitchPieces_agree (fuel fuel' n : nat) :
  (forall k, (forall i, (i < k)%nat -> continues (n + i)) -> (k < fuel)%nat) ->
  (forall k, (forall i, (i < k)%nat -> continues (n + i)) -> (k < fuel')%nat) ->
  stitchPieces fuel key pieceMap n = stitchPieces fuel' key pieceMap n.
Proof.
  revert fuel' n. induction fuel as [|fuel IH]; intros fuel' n Hf Hf'.
  { specialize (Hf 0%nat ltac:(intros i Hi; lia)). lia. }
  destruct fuel' as [|fuel'].
  { specialize (Hf' 0%nat ltac:(intros i Hi; lia)). lia. }
  assert (Hnext : continues n ->
                  stitchPieces fuel key pieceMap (S n)
                  = stitchPieces fuel' key pieceMap (S n)).
  { intros Hc. apply IH; intros k Hrun.
    - assert (S k < S fuel)%nat; [|lia]. apply Hf. intros [|i] Hi.
      + rewrite Nat.add_0_r. exact Hc.
      + replace (n + S i)%nat with (S n + i)%nat by lia. apply Hrun. lia.
    - assert (S k < S fuel')%nat; [|lia]. apply Hf'. intros [|i] Hi.
      + rewrite Nat.add_0_r. exact Hc.
      + replace (n + S i)%nat with (S n + i)%nat by lia. apply Hrun. lia. }
  cbn [stitchPieces]. unfold continues in Hnext.
  destruct (pieceMap !! (key +:+ "*" +:+ formatInt (Z.of_nat n))) as [v|].
  - rewrite Hnext by (left; eauto). reflexivity.
  - destruct (pieceMap !! ((key +:+ "*" +:+ formatInt (Z.of_nat n)) +:+ "*"))
      as [v|]; [|reflexivity].
    rewrite Hnext by (right; eauto). reflexivity.
Qed.

(** More fuel than [stitchOne] gives changes nothing. *)
Lemma stitchPieces_fuel (extra : nat) :
  stitchPieces (S (size pieceMap) + extra) key pieceMap 0
  = stitchPieces (S (size pieceMap)) key pieceMap 0.
Proof.
  apply stitchPieces_agree; intros k Hrun;
    pose proof (rounds_bounded 0 k Hrun); lia.
Qed.

End Stitching.

(** ** [ParseMediaType] on the cases of RFC 2045 and RFC 2231 *)

Section MediaTypes.
Context `{U : GoUnicode}.

(** A bare token parses (the function also serves Content-Disposition); case
    and blanks are normalized; a parameter may be repeated with the same
    value only; a trailing semicolon is ignored. *)
Example ParseMediaType_plain :
  ParseMediaType "form-data" = ("form-data", ∅, None)
  /\ ParseMediaType " FORM-DATA ; name=foo"
     = ("form-data", {["name" := "foo"]}, None)
  /\ ParseMediaType "text/plain; charset=utf-8; charset=utf-8; format=fixed"
     = ("text/plain", <["format" := "fixed"]> {["charset" := "utf-8"]}, None)
  /\ ParseMediaType "text/plain; charset=utf-8; charset=iso-8859-1"
     = (EmptyString, ∅, Some ErrDuplicateParameter)
  /\ ParseMediaType "text/plain;" = ("text/plain", ∅, None)
  /\ ParseMediaType "text/plain; charset" 
     = ("text/plain", ∅, Some ErrInvalidMediaParameter)
  /\ ParseMediaType "text/" = (EmptyString, ∅, Some ErrExpectedToken)
  /\ ParseMediaType "text/a/b" = (EmptyString, ∅, Some ErrUnexpectedContent)
  /\ ParseMediaType "text plain" = (EmptyString, ∅, Some ErrExpectedSlash)
  /\ ParseMediaType "/plain" = (EmptyString, ∅, Some ErrNoMediaType).
Proof. repeat split; vm_compute; reflexivity. Qed.

(** Quoted values lose their quotes, and the backslash before a tspecial. *)
Example ParseMediaType_quoted :
  ParseMediaType ("attachment; filename=" +:+ String "034" "foo bar.html"
                  +:+ String "034" EmptyString)
  = ("attachment", {["filename" := "foo bar.html"]}, None)
  /\ ParseMediaType ("attachment; filename=" +:+ String "034" "a"
                     +:+ String "092" (String "034" "b")
                     +:+ String "034" EmptyString)
     = ("attachment", {["filename" := "a" +:+ String "034" "b"]}, None).
Proof. repeat split; vm_compute; reflexivity. Qed.

(** The extended and continued parameters of RFC 2231. *)
Example ParseMediaType_rfc2231 :
  ParseMediaType
    "application/x-stuff; title*=us-ascii'en-us'This%20is%20%2A%2A%2Afun%2A%2A%2A"
  = ("application/x-stuff", {["title" := "This is ***fun***"]}, None)
  /\ ParseMediaType
       "message/external-body; access-type=URL; URL*0=ftp.; URL*1=cs.utk.edu"
     = ("message/external-body",
        <["url" := "ftp.cs.utk.edu"]> {["access-type" := "URL"]}, None)
  /\ ParseMediaType
       "application/x-stuff; title*0*=us-ascii'en'This%20is%20even%20more%20; title*1*=%2A%2A%2Afun%2A%2A%2A%20; title*2=indeed"
     = ("application/x-stuff",
        {["title" := "This is even more ***fun*** indeed"]}, None)
  /\ ParseMediaType "text/plain; charset*=latin-1''abc"
     = ("text/plain", ∅, None).
Proof. repeat split; vm_compute; reflexivity. Qed.

End MediaTypes.

(** ** The handlers *)

(** Run [handlePut] up to the point the facts at hand determine. *)
Ltac put_start Hbody Hparse :=
  unfold serve, handlePut; rewrite Hbody; cbv beta iota zeta;
  rewrite Hparse; cbv beta iota zeta.

Ltac run_handler :=
  unfold upsert, commit, bind, storeGet, storeCreate, storeUpdate, contentPut,
    contentLookup, reply, ret, record; cbn [objects entries calls].

Section Core.
Context `{U : GoUnicode} {S : Type} `{OS : ObjectStore S}.

(** A PUT whose Content-Type does not parse, or whose media type fails the
    allow-list, answers 400 and leaves the world as it was. *)
Lemma handlePut_rejected (h : contentHandler) (req : Request) (w : World S)
    (contentBytes : list Byte.byte) (mediaType : string)
    (params : gmap string string) (err : option mimeError) :
  Body req = inl contentBytes ->
  ParseMediaType (declaredContentType req) = (mediaType, params, err) ->
  err <> None \/ isValidMIMEType mediaType = false ->
  serve (handlePut h req) w =
  (w, HttpError (match err with
                 | Some e => invalidMessage e
                 | None => unsupportedMessage mediaType
                 end) StatusBadRequest).
Proof.
  intros Hbody Hparse Hrej. put_start Hbody Hparse.
  destruct err as [e|]; [reflexivity|].
  destruct Hrej as [Hrej|Hrej]; [congruence|]. rewrite Hrej. reflexivity.
Qed.

(** An accepted PUT, call by call. *)
Lemma handlePut_accepted (h : contentHandler) (req : Request) (w : World S)
    (contentBytes : list Byte.byte) (mediaType : string)
    (params : gmap string string) :
  Body req = inl contentBytes ->
  ParseMediaType (declaredContentType req) = (mediaType, params, None) ->
  isValidMIMEType mediaType = true ->
  let contentSize := Z.of_nat (length contentBytes) in
  let contentType := normalizedContentType mediaType params in
  let contentURL := buildContentURL h req in
  let result := store_Get (objects w) (ctx h) (name h) in
  let w1 := record (CallGet (name h) result) w in
  serve (handlePut h req) w =
  match result with
  | inr err =>
      if IsNotFound err then
        let file := newFile h contentURL contentSize contentType in
        let (s', e) := store_Create (objects w) (ctx h) file in
        let w2 := {| objects := s'; entries := entries w;
                     calls := calls w1 ++ [CallCreate file e] |} in
        match e with
        | Some e' =>
            (w2, HttpError ("failed to create file resource: "
                            +:+ error_Error e') StatusInternalServerError)
        | None => serve (commit h contentBytes contentSize contentType) w2
        end
      else (w1, ResponderError err)
  | inl OtherObject => (w1, ResponderError (Errorf "object is not a File"))
  | inl (FileObject file) =>
      let file' := updatedFile file contentURL contentSize contentType in
      let (s', e) := store_Update (objects w) (ctx h) (name h) file' in
      let w2 := {| objects := s'; entries := entries w;
                   calls := calls w1 ++ [CallUpdate (name h) file' e] |} in
      match e with
      | Some e' =>
          (w2, HttpError ("failed to update file resource: "
                          +:+ error_Error e') StatusInternalServerError)
      | None => serve (commit h contentBytes contentSize contentType) w2
      end
  end.
Proof.
  intros Hbody Hparse Hvalid. put_start Hbody Hparse. rewrite Hvalid.
  cbv beta iota zeta. cbn [negb]. unfold commit, serve. run_handler.
  destruct (store_Get (objects w) (ctx h) (name h)) as [[file|]|err];
    cbn [objects entries calls]; try reflexivity.
  - destruct (store_Update _ _ _ _) as [s' [e'|]]; reflexivity.
  - destruct (IsNotFound err); cbn [negb]; [|reflexivity].
    destruct (store_Create _ _ _) as [s' [e'|]]; reflexivity.
Qed.

Lemma serve_commit (h : contentHandler) (contentBytes : list Byte.byte)
    (contentSize : Z) (contentType : string) (w : World S) :
  serve (commit h contentBytes contentSize contentType) w =
  let entry := {| data := contentBytes;
                  status := uploadStatus h contentSize contentType |} in
  ({| objects := objects w; entries := <[name h := entry]> (entries w);
      calls := calls w ++ [CallContentPut (name h) entry] |},
   ResponderObject StatusCreated
     {| FileContent_TypeMeta := zeroTypeMeta;
        FileContent_Status := uploadStatus h contentSize contentType |}).
Proof. reflexivity. Qed.

End Core.

Lemma classic_rejected (err : option mimeError) (mediaType : string) :
  (err <> None \/ isValidMIMEType mediaType = false)
  \/ (err = None /\ isValidMIMEType mediaType = true).
Proof.
  destruct err as [e|]; [left; left; discriminate|].
  destruct (isValidMIMEType mediaType); [right|left; right]; auto.
Qed.

(** The six ways an accepted PUT can go: update refused, update done, the
    object is no File, create refused, create done, lookup failed. *)
Ltac put_cases h req w Hbody Hparse Hvalid :=
  rewrite (handlePut_accepted h req w _ _ _ Hbody Hparse Hvalid); cbv zeta;
  let file := fresh "file" in
  let err := fresh "err" in
  let s' := fresh "s'" in
  let e' := fresh "e'" in
  let Hget := fresh "Hget" in
  let Hupd := fresh "Hupd" in
  let Hcre := fresh "Hcre" in
  let Hnf := fresh "Hnf" in
  destruct (store_Get (objects w) (ctx h) (name h)) as [[file|]|err] eqn:Hget;
  [ destruct (store_Update (objects w) (ctx h) (name h) _) as [s' [e'|]] eqn:Hupd
  | idtac
  | destruct (IsNotFound err) eqn:Hnf;
    [ destruct (store_Create (objects w) (ctx h) _) as [s' [e'|]] eqn:Hcre
    | idtac ] ];
  rewrite ?serve_commit; cbv zeta;
  cbn [fst snd objects entries calls record];
  rewrite <- ?app_assoc; cbn [app].

Section Runs.
Context `{U : GoUnicode} {S : Type} `{OS : ObjectStore S}.

Lemma declared_of_header (req : Request) (contentType : string) :
  Header_Get (Header req) "Content-Type" = contentType ->
  contentType <> EmptyString ->
  declaredContentType req = contentType.
Proof.
  intros Hget Hne. unfold declaredContentType. rewrite Hget.
  destruct (String.eqb contentType EmptyString) eqn:E; [|reflexivity].
  apply String.eqb_eq in E. contradiction.
Qed.

(** What an accepted PUT can answer: never the 400 of a rejected type. *)
Lemma accepted_not_rejected (h : contentHandler) (req : Request) (w : World S)
    (contentBytes : list Byte.byte) (mediaType : string)
    (params : gmap string string) (message : string) :
  Body req = inl contentBytes ->
  ParseMediaType (declaredContentType req) = (mediaType, params, None) ->
  isValidMIMEType mediaType = true ->
  snd (serve (handlePut h req) w) <> HttpError message StatusBadRequest.
Proof.
  intros Hbody Hparse Hvalid.
  rewrite (handlePut_accepted h req w _ _ _ Hbody Hparse Hvalid).
  cbv zeta.
  destruct (store_Get (objects w) (ctx h) (name h)) as [[file|]|err];
    try (cbn [snd]; discriminate).
  - destruct (store_Update _ _ _ _) as [s' [e'|]]; cbn [snd];
      [discriminate|rewrite serve_commit; discriminate].
  - destruct (IsNotFound err); [|cbn [snd]; discriminate].
    destruct (store_Create _ _ _) as [s' [e'|]]; cbn [snd];
      [discriminate|rewrite serve_commit; discriminate].
Qed.


(** C4.  The media type is accepted exactly when the text before its first
    slash is one of application, audio, font, image, message, model,
    multipart, text, video and the text after that slash is not empty; a
    PUT whose Content-Type parses is answered with the 400 of an unsupported
    type exactly when that test fails.  A PUT with Content-Type
    application/x-custom passes the test and goes on to the upsert and the
    commit under that type (201 on the reference store); a PUT with
    Content-Type wibble/plain is answered 400 and changes nothing. *)
Theorem mime_allow_list :
  (forall mediaType,
      isValidMIMEType mediaType = true <->
      exists topLevel subType,
        mediaType = topLevel +:+ "/" +:+ subType
        /\ In topLevel allowedCategories /\ subType <> EmptyString)
  /\ (forall (h : contentHandler) (req : Request) (w : World S)
         contentBytes mediaType params,
        Body req = inl contentBytes ->
        ParseMediaType (declaredContentType req) = (mediaType, params, None) ->
        (snd (serve (handlePut h req) w)
         = HttpError (unsupportedMessage mediaType) StatusBadRequest
         <-> isValidMIMEType mediaType = false))
  /\ (forall (h : contentHandler) (req : Request) (w : World S) contentBytes,
        Body req = inl contentBytes ->
        Header_Get (Header req) "Content-Type" = "application/x-custom" ->
        let contentSize := Z.of_nat (length contentBytes) in
        serve (handlePut h req) w =
        serve (upsert h req contentSize "application/x-custom" ;;;
               commit h contentBytes contentSize "application/x-custom") w)
  /\ (exists w',
        serve (handlePut (S := MemStore) helloHandler
                 (putRequest "application/x-custom" hi)) emptyWorld
        = (w', ResponderObject StatusCreated
                 {| FileContent_TypeMeta := zeroTypeMeta;
                    FileContent_Status :=
                      uploadStatus helloHandler 2 "application/x-custom" |}))
  /\ (forall (h : contentHandler) (req : Request) (w : World S) contentBytes,
        Body req = inl contentBytes ->
        Header_Get (Header req) "Content-Type" = "wibble/plain" ->
        serve (handlePut h req) w =
        (w, HttpError (unsupportedMessage "wibble/plain") StatusBadRequest)).
Proof.
  split; [exact isValidMIMEType_spec|]. split; [|split; [|split]].
  - intros h req w contentBytes mediaType params Hbody Hparse. split.
    + intros Hresp. destruct (isValidMIMEType mediaType) eqn:Hvalid; [|reflexivity].
      exfalso.
      exact (accepted_not_rejected h req w _ _ _ _ Hbody Hparse Hvalid Hresp).
    + intros Hvalid.
      rewrite (handlePut_rejected h req w _ _ _ None Hbody Hparse (or_intror Hvalid)).
      reflexivity.
  - intros h req w contentBytes Hbody Hct contentSize.
    put_start Hbody
      (eq_trans (f_equal ParseMediaType
                   (declared_of_header req _ Hct ltac:(discriminate)))
                (ltac:(vm_compute; reflexivity)
                  : ParseMediaType "application/x-custom"
                    = ("application/x-custom", ∅, None))).
    reflexivity.
  - eexists. vm_compute. reflexivity.
  - intros h req w contentBytes Hbody Hct.
    apply (handlePut_rejected h req w contentBytes "wibble/plain" ∅ None Hbody).
    + rewrite (declared_of_header req _ Hct ltac:(discriminate)).
      vm_compute. reflexivity.
    + right. vm_compute. reflexivity.
Qed.

(** C6 (as the code has it).  [mime.ParseMediaType] accepts a bare token, so
    a PUT with Content-Type bogus-no-slash gets past the parser and is
    answered 400 by the allow-list check, with the unsupported Content-Type
    message; that message is none of the parse-failure messages.  Nothing
    is changed. *)
Theorem bogus_no_slash_unsupported (h : contentHandler) (req : Request)
    (w : World S) (contentBytes : list Byte.byte) :
  Body req = inl contentBytes ->
  Header_Get (Header req) "Content-Type" = "bogus-no-slash" ->
  ParseMediaType (declaredContentType req) = ("bogus-no-slash", ∅, None)
  /\ serve (handlePut h req) w =
     (w, HttpError (unsupportedMessage "bogus-no-slash") StatusBadRequest)
  /\ forall e, unsupportedMessage "bogus-no-slash" <> invalidMessage e.
Proof.
  intros Hbody Hct.
  assert (Hparse : ParseMediaType (declaredContentType req)
                   = ("bogus-no-slash", ∅, None)).
  { rewrite (declared_of_header req _ Hct ltac:(discriminate)).
    vm_compute. reflexivity. }
  split; [exact Hparse|]. split.
  - apply (handlePut_rejected h req w contentBytes _ _ None Hbody Hparse).
    right. vm_compute. reflexivity.
  - intros e. destruct e; vm_compute; discriminate.
Qed.

(** ** Sequences of calls *)

Lemma upsertedFirst_no_put (cs : list Call) :
  (forall c, In c cs -> isContentPut c = false) -> upsertedFirst cs.
Proof.
  intros Hno pre key entry post Heq. exfalso.
  assert (Hin : In (CallContentPut key entry) cs).
  { rewrite Heq. apply in_or_app. right. left. reflexivity. }
  apply Hno in Hin. discriminate.
Qed.

Lemma upsertedFirst_commit (g u : Call) (key : string) (entry : contentEntry) :
  isContentPut g = false -> upsertSucceeded u = true ->
  upsertedFirst [g; u; CallContentPut key entry].
Proof.
  intros Hg Hu pre key' entry' post Heq.
  destruct pre as [|a [|b [|c pre]]]; cbn [app] in Heq.
  - inversion Heq; subst. discriminate.
  - inversion Heq; subst. discriminate.
  - inversion Heq; subst. split.
    + exists b. split; [right; left; reflexivity|exact Hu].
    + intros c [].
  - exfalso. inversion Heq as [[Ha Hb Hc Hnil]]. destruct pre; discriminate.
Qed.

(** C1 (as the code has it).  Within one PUT the resource metadata is
    upserted first and the content bytes are committed to the content store
    afterwards: every content commit among the calls of the PUT comes after
    an upsert that returned no error, and no upsert follows it.  The commit
    is made exactly when an upsert succeeded, and without a commit the
    content store is left as it was. *)
Theorem upsert_precedes_commit (h : contentHandler) (req : Request)
    (w : World S) :
  let (w', resp) := serve (handlePut h req) w in
  exists new,
    calls w' = calls w ++ new
    /\ upsertedFirst new
    /\ ((exists c, In c new /\ upsertSucceeded c = true)
        <-> (exists c, In c new /\ isContentPut c = true))
    /\ ((forall c, In c new -> isContentPut c = false) ->
        entries w' = entries w).
Proof.
  destruct (Body req) as [contentBytes|msg] eqn:Hbody.
  2:{ unfold serve, handlePut. rewrite Hbody. cbn. exists [].
      rewrite app_nil_r. split; [reflexivity|].
      split; [apply upsertedFirst_no_put; intros c []|].
      split; [split; intros (c & [] & _)|reflexivity]. }
  destruct (ParseMediaType (declaredContentType req))
    as [[mediaType params] err] eqn:Hparse.
  destruct (classic_rejected err mediaType) as [Hrej|[-> Hvalid]].
  { rewrite (handlePut_rejected h req w _ _ _ _ Hbody Hparse Hrej).
    exists []. rewrite app_nil_r. split; [reflexivity|].
    split; [apply upsertedFirst_no_put; intros c []|].
    split; [split; intros (c & [] & _)|reflexivity]. }
  put_cases h req w Hbody Hparse Hvalid.
  all: eexists; split; [reflexivity|].
  all: split;
    [ first [ apply upsertedFirst_commit; reflexivity
            | apply upsertedFirst_no_put; cbn [In]; intros c Hc;
              repeat (destruct Hc as [<-|Hc]; [reflexivity|]); destruct Hc ]
    | ].
  all: split;
    [ split; intros (c & Hc & Hp); cbn [In] in Hc;
      repeat (destruct Hc as [<-|Hc]; [try discriminate|]);
      try (destruct Hc);
      first [ eexists; split; [right; right; left; reflexivity|reflexivity]
            | eexists; split; [right; left; reflexivity|reflexivity] ]
    | ].
  all: try (intros _; reflexivity).
  all: intros Hno; exfalso;
    specialize (Hno _ (or_intror (or_intror (or_introl eq_refl))));
    discriminate.
Qed.

(** ** What the upsert carries *)

(** C5.  For an accepted PUT the content type written to the resource
    metadata, by the create or by the update, is the parsed media type with
    the charset parameter and no other: with a charset parameter the string
    is the media type followed by [; charset=] and its value, without one it
    is the bare media type.  So [text/plain; charset=utf-8] is stored as it
    stands and [text/plain] as [text/plain].  The write is made: whenever the
    lookup finds a File or reports not-found the PUT calls the update or the
    create with that content type, a PUT answered 201 has made such a call
    with success, and from a store that reads back what was written the
    lookup after it returns a File with that content type. *)
Theorem stored_content_type (h : contentHandler) (req : Request) (w : World S)
    (contentBytes : list Byte.byte) (mediaType : string)
    (params : gmap string string) :
  Body req = inl contentBytes ->
  ParseMediaType (declaredContentType req) = (mediaType, params, None) ->
  isValidMIMEType mediaType = true ->
  (exists new,
      calls (fst (serve (handlePut h req) w)) = calls w ++ new
      /\ (forall c file,
            In c new -> upsertedFile c = Some file ->
            ContentType (Spec file) =
            match params !! "charset" with
            | Some value => mediaType +:+ "; charset=" +:+ value
            | None => mediaType
            end)
      /\ (match store_Get (objects w) (ctx h) (name h) with
          | inl (FileObject _) => True
          | inl OtherObject => False
          | inr err => IsNotFound err = true
          end ->
          exists c file, In c new /\ upsertedFile c = Some file)
      /\ (forall statusCode obj,
            snd (serve (handlePut h req) w) = ResponderObject statusCode obj ->
            exists c file,
              In c new /\ upsertSucceeded c = true
              /\ upsertedFile c = Some file))
  /\ (let '(mediaType, params, _) := ParseMediaType "text/plain; charset=utf-8" in
      normalizedContentType mediaType params = "text/plain; charset=utf-8")
  /\ (let '(mediaType, params, _) := ParseMediaType "text/plain" in
      normalizedContentType mediaType params = "text/plain")
  /\ (readsBack (objects w) ->
      forall w' statusCode obj,
        serve (handlePut h req) w = (w', ResponderObject statusCode obj) ->
        exists file,
          store_Get (objects w') (ctx h) (name h) = inl (FileObject file)
          /\ ContentType (Spec file) =
             match params !! "charset" with
             | Some value => mediaType +:+ "; charset=" +:+ value
             | None => mediaType
             end).
Proof.
  intros Hbody Hparse Hvalid.
  split; [|split; [|split]]; [|vm_compute; reflexivity..|].
  2:{ intros [Hcreate Hupdate] w' statusCode obj.
      put_cases h req w Hbody Hparse Hvalid; try discriminate.
      - intros [= <- _ _]. cbn [objects].
        destruct (Hupdate _ _ _ _ Hupd) as (g & Hg & Hspec & _).
        exists g. split; [exact Hg|]. now rewrite Hspec.
      - intros [= <- _ _]. cbn [objects].
        destruct (Hcreate _ _ _ Hcre) as (g & Hg & Hspec & _).
        exists g. split; [exact Hg|]. now rewrite Hspec. }
  put_cases h req w Hbody Hparse Hvalid.
  all: eexists; split; [reflexivity|]; split;
    [intros c f Hc Hf; cbn [In] in Hc;
     repeat (destruct Hc as [<-|Hc]; [try discriminate|]); try (destruct Hc);
     injection Hf as <-; reflexivity|].
  - split.
    + intros _. eexists _, _. split; [right; left; reflexivity|reflexivity].
    + discriminate.
  - split.
    + intros _. eexists _, _. split; [right; left; reflexivity|reflexivity].
    + intros code obj _. eexists _, _.
      split; [right; left; reflexivity|]. split; reflexivity.
  - split; [intros []|discriminate].
  - split.
    + intros _. eexists _, _. split; [right; left; reflexivity|reflexivity].
    + discriminate.
  - split.
    + intros _. eexists _, _. split; [right; left; reflexivity|reflexivity].
    + intros code obj _. eexists _, _.
      split; [right; left; reflexivity|]. split; reflexivity.
  - split; [congruence|discriminate].
Qed.

(** C8.  The content URL is [scheme://host/apis/{group}/{version}/namespaces/
    {namespace}/files/{name}/content]: the scheme is https exactly when the
    request came over TLS and http otherwise, the host is the configured
    external host when that is not empty and the Host of the request
    otherwise, the namespace is the one of the request context; and this is
    the URL every upsert of an accepted PUT carries. *)
Theorem content_url (h : contentHandler) (req : Request) :
  (exists scheme host,
      buildContentURL h req =
      scheme +:+ "://" +:+ host +:+ "/apis/" +:+ GroupName +:+ "/" +:+ Version
      +:+ "/namespaces/" +:+ NamespaceValue (ctx h) +:+ "/files/" +:+ name h
      +:+ "/content"
      /\ (TLS req = true -> scheme = "https")
      /\ (TLS req = false -> scheme = "http")
      /\ (externalHost h <> EmptyString -> host = externalHost h)
      /\ (externalHost h = EmptyString -> host = Host req))
  /\ (forall (w : World S) contentBytes mediaType params,
        Body req = inl contentBytes ->
        ParseMediaType (declaredContentType req) = (mediaType, params, None) ->
        isValidMIMEType mediaType = true ->
        exists new,
          calls (fst (serve (handlePut h req) w)) = calls w ++ new
          /\ forall c file,
              In c new -> upsertedFile c = Some file ->
              URL (Spec file) = buildContentURL h req).
Proof.
  split.
  - exists (if negb (TLS req) then "http" else "https"),
           (if String.eqb (externalHost h) EmptyString
            then Host req else externalHost h).
    split; [reflexivity|].
    split; [intros ->; reflexivity|]. split; [intros ->; reflexivity|].
    split.
    + intros Hne. destruct (String.eqb (externalHost h) EmptyString) eqn:E;
        [|reflexivity].
      apply String.eqb_eq in E. contradiction.
    + intros ->. reflexivity.
  - intros w contentBytes mediaType params Hbody Hparse Hvalid.
    put_cases h req w Hbody Hparse Hvalid.
    all: eexists; split; [reflexivity|].
    all: intros c f Hc Hf; cbn [In] in Hc;
      repeat (destruct Hc as [<-|Hc]; [try discriminate|]); try (destruct Hc).
    all: injection Hf as <-; reflexivity.
Qed.

(** C3.  An accepted PUT looks the resource up and then: when the lookup
    reports not-found (as [apierrors.IsNotFound] judges the error: by its
    reason, or by the code 404 under a reason the API machinery does not
    know), creates a File named after the handler with
    [status.uploaded] true and [spec.size] the number of bytes uploaded;
    when the lookup finds a File, updates it under the same name with
    [spec.url], [spec.size], [spec.contentType] set, [status.uploaded] true
    and [status.error] empty; when the lookup fails otherwise, answers with
    that error, the lookup being the only call made. *)
Theorem put_creates_or_updates (h : contentHandler) (req : Request)
    (w : World S) (contentBytes : list Byte.byte) (mediaType : string)
    (params : gmap string string) :
  Body req = inl contentBytes ->
  ParseMediaType (declaredContentType req) = (mediaType, params, None) ->
  isValidMIMEType mediaType = true ->
  let contentSize := Z.of_nat (length contentBytes) in
  let contentType := normalizedContentType mediaType params in
  let (w', resp) := serve (handlePut h req) w in
  match store_Get (objects w) (ctx h) (name h) with
  | inr err =>
      if IsNotFound err then
        exists file e rest,
          calls w' = calls w ++ CallGet (name h) (inr err)
                                :: CallCreate file e :: rest
          /\ (forall c, In c rest -> isUpsert c = false)
          /\ objects w' = fst (store_Create (objects w) (ctx h) file)
          /\ Name (ObjectMeta file) = name h
          /\ Uploaded (Status file) = true
          /\ Size (Spec file) = contentSize
      else
        w' = record (CallGet (name h) (inr err)) w
        /\ resp = ResponderError err
  | inl (FileObject file) =>
      exists file' e rest,
        calls w' = calls w ++ CallGet (name h) (inl (FileObject file))
                              :: CallUpdate (name h) file' e :: rest
        /\ (forall c, In c rest -> isUpsert c = false)
        /\ objects w' = fst (store_Update (objects w) (ctx h) (name h) file')
        /\ Name (ObjectMeta file') = Name (ObjectMeta file)
        /\ URL (Spec file') = buildContentURL h req
        /\ Size (Spec file') = contentSize
        /\ ContentType (Spec file') = contentType
        /\ Uploaded (Status file') = true
        /\ Error (Status file') = EmptyString
  | inl OtherObject =>
      w' = record (CallGet (name h) (inl OtherObject)) w
      /\ resp = ResponderError (Errorf "object is not a File")
  end.
Proof.
  intros Hbody Hparse Hvalid contentSize contentType.
  put_cases h req w Hbody Hparse Hvalid.
  - do 3 eexists. split; [reflexivity|]. split; [intros c []|].
    rewrite Hupd. repeat split.
  - do 3 eexists. split; [reflexivity|].
    split; [intros c [<-|[]]; reflexivity|].
    rewrite Hupd. repeat split.
  - split; reflexivity.
  - do 3 eexists. split; [reflexivity|]. split; [intros c []|].
    rewrite Hcre. repeat split.
  - do 3 eexists. split; [reflexivity|].
    split; [intros c [<-|[]]; reflexivity|].
    rewrite Hcre. repeat split.
  - split; reflexivity.
Qed.

(** C10.  On an existing resource the File handed to the update is the File
    the lookup returned with [spec.url], [spec.size], [spec.contentType],
    [status.uploaded] and [status.error] replaced: the type meta, the whole
    object meta (name, namespace, labels, annotations and the rest) and
    [spec.resourceLocation] are the fetched ones. *)
Theorem update_frame (h : contentHandler) (req : Request) (w : World S)
    (contentBytes : list Byte.byte) (mediaType : string)
    (params : gmap string string) (file : File) :
  Body req = inl contentBytes ->
  ParseMediaType (declaredContentType req) = (mediaType, params, None) ->
  isValidMIMEType mediaType = true ->
  store_Get (objects w) (ctx h) (name h) = inl (FileObject file) ->
  exists file' e rest,
    calls (fst (serve (handlePut h req) w))
    = calls w ++ CallGet (name h) (inl (FileObject file))
                 :: CallUpdate (name h) file' e :: rest
    /\ (forall c, In c rest -> isUpsert c = false)
    /\ file' =
       {| TypeMeta := TypeMeta file;
          ObjectMeta := ObjectMeta file;
          Spec := {| URL := buildContentURL h req;
                     Size := Z.of_nat (length contentBytes);
                     ContentType := normalizedContentType mediaType params;
                     ResourceLocation := ResourceLocation (Spec file) |};
          Status := {| Uploaded := true; Error := EmptyString |} |}
    /\ TypeMeta file' = TypeMeta file
    /\ ObjectMeta file' = ObjectMeta file
    /\ Name (ObjectMeta file') = Name (ObjectMeta file)
    /\ Namespace (ObjectMeta file') = Namespace (ObjectMeta file)
    /\ Labels (ObjectMeta file') = Labels (ObjectMeta file)
    /\ Annotations (ObjectMeta file') = Annotations (ObjectMeta file)
    /\ ResourceLocation (Spec file') = ResourceLocation (Spec file).
Proof.
  intros Hbody Hparse Hvalid Hfound.
  rewrite (handlePut_accepted h req w _ _ _ Hbody Hparse Hvalid). cbv zeta.
  rewrite Hfound.
  destruct (store_Update (objects w) (ctx h) (name h) _) as [s' [e'|]];
    rewrite ?serve_commit; cbv zeta; cbn [fst calls record];
    rewrite <- ?app_assoc; cbn [app].
  - do 3 eexists. split; [reflexivity|]. split; [intros c []|].
    repeat split.
  - do 3 eexists. split; [reflexivity|].
    split; [intros c [<-|[]]; reflexivity|]. repeat split.
Qed.

(** ** PUT, then GET *)

Lemma ServeHTTP_PUT (h : contentHandler) (req : Request) (w : World S) :
  Method req = "PUT" -> ServeHTTP h req w = serve (handlePut h req) w.
Proof. intros Hm. unfold ServeHTTP. rewrite Hm. reflexivity. Qed.

Lemma ServeHTTP_GET (h : contentHandler) (req : Request) (w : World S) :
  Method req = "GET" -> ServeHTTP h req w = serve (handleGet h req false) w.
Proof. intros Hm. unfold ServeHTTP. rewrite Hm. reflexivity. Qed.

Lemma normalized_not_empty (mediaType : string) (params : gmap string string) :
  isValidMIMEType mediaType = true ->
  String.eqb (normalizedContentType mediaType params) EmptyString = false.
Proof.
  intros Hvalid. unfold normalizedContentType.
  destruct mediaType as [|c mediaType]; [discriminate|].
  destruct (params !! "charset"); reflexivity.
Qed.

(** A GET on a world whose object store returns a File with a content type
    and whose content store holds an entry for the name. *)
Lemma handleGet_served (h : contentHandler) (req : Request) (w : World S)
    (file : File) (entry : contentEntry) :
  store_Get (objects w) (ctx h) (name h) = inl (FileObject file) ->
  entries w !! name h = Some entry ->
  String.eqb (ContentType (Spec file)) EmptyString = false ->
  exists header,
    serve (handleGet h req false) w
    = (record (CallGet (name h) (inl (FileObject file))) w,
       Written header StatusOK (data entry))
    /\ Header_Get header "Content-Type" = ContentType (Spec file)
    /\ Header_Get header "Content-Length"
       = formatInt (Z.of_nat (length (data entry))).
Proof.
  intros Hget Hentry Hne. unfold serve, handleGet. run_handler.
  rewrite Hget. cbv beta iota. cbn [entries]. rewrite Hentry, Hne.
  eexists. split; [reflexivity|].
  unfold Header_Get, Header_Set. split.
  - rewrite lookup_insert_ne by discriminate.
    rewrite lookup_insert_ne by discriminate.
    rewrite lookup_insert_eq. reflexivity.
  - rewrite lookup_insert_ne by discriminate.
    rewrite lookup_insert_eq. reflexivity.
Qed.

(** The GET that follows a commit. *)
Lemma get_after_commit (h h' : contentHandler) (req' : Request) (s' : S)
    (m : gmap string contentEntry) (cs : list Call) (entry : contentEntry)
    (g : File) :
  name h' = name h ->
  ctx h' = ctx h ->
  store_Get s' (ctx h) (name h) = inl (FileObject g) ->
  String.eqb (ContentType (Spec g)) EmptyString = false ->
  let w' := {| objects := s'; entries := <[name h := entry]> m;
               calls := cs |} in
  exists w'' header,
    serve (handleGet h' req' false) w'
    = (w'', Written header StatusOK (data entry))
    /\ Header_Get header "Content-Length"
       = formatInt (Z.of_nat (length (data entry)))
    /\ Header_Get header "Content-Type" = ContentType (Spec g)
    /\ entries w'' = entries w'.
Proof.
  intros Hname Hctx Hg Hne w'.
  destruct (handleGet_served h' req' w' g entry) as (header & Hs & Hc & Hl).
  - rewrite Hname, Hctx. exact Hg.
  - rewrite Hname. apply lookup_insert_eq.
  - exact Hne.
  - eexists _, header. split; [exact Hs|]. split; [exact Hl|].
    split; [exact Hc|reflexivity].
Qed.

(** C2.  On an object store that reads back what was written, a PUT of
    [contentBytes] that is answered 201, followed at once by a GET for the
    same name in the same namespace, is answered 200 with exactly
    [contentBytes] as body, Content-Length the number of those bytes and
    Content-Type the normalized content type the PUT stored. *)
Theorem put_then_get (h h' : contentHandler) (req req' : Request)
    (w w' : World S) (contentBytes : list Byte.byte) (mediaType : string)
    (params : gmap string string) (obj : FileContent) :
  readsBack (objects w) ->
  Method req = "PUT" ->
  Body req = inl contentBytes ->
  ParseMediaType (declaredContentType req) = (mediaType, params, None) ->
  ServeHTTP h req w = (w', ResponderObject StatusCreated obj) ->
  Method req' = "GET" ->
  name h' = name h ->
  ctx h' = ctx h ->
  exists w'' header,
    ServeHTTP h' req' w' = (w'', Written header StatusOK contentBytes)
    /\ Header_Get header "Content-Length"
       = formatInt (Z.of_nat (length contentBytes))
    /\ Header_Get header "Content-Type"
       = normalizedContentType mediaType params
    /\ entries w'' = entries w'.
Proof.
  intros [Hcreate Hupdate] Hput Hbody Hparse Hrun Hget Hname Hctx.
  rewrite (ServeHTTP_PUT _ _ _ Hput) in Hrun.
  rewrite (ServeHTTP_GET _ _ _ Hget).
  destruct (isValidMIMEType mediaType) eqn:Hvalid.
  2:{ rewrite (handlePut_rejected h req w _ _ _ None Hbody Hparse
                 (or_intror Hvalid)) in Hrun. discriminate. }
  pose proof (normalized_not_empty mediaType params Hvalid) as Hne.
  revert Hrun. put_cases h req w Hbody Hparse Hvalid; try discriminate.
  - intros [= <- _].
    destruct (Hupdate _ _ _ _ Hupd) as (g & Hg & Hspec & _).
    assert (Hg' : ContentType (Spec g) = normalizedContentType mediaType params)
      by (rewrite Hspec; reflexivity).
    rewrite <- Hg' in Hne.
    epose proof (get_after_commit h h' req' s' _ _
                   {| data := contentBytes; status := _ |} g
                   Hname Hctx Hg Hne) as (w'' & header & Hs & Hl & Hc & He).
    exists w'', header. split; [exact Hs|]. split; [exact Hl|].
    split; [rewrite Hc; exact Hg'|exact He].
  - intros [= <- _].
    destruct (Hcreate _ _ _ Hcre) as (g & Hg & Hspec & _).
    assert (Hg' : ContentType (Spec g) = normalizedContentType mediaType params)
      by (rewrite Hspec; reflexivity).
    rewrite <- Hg' in Hne.
    epose proof (get_after_commit h h' req' s' _ _
                   {| data := contentBytes; status := _ |} g
                   Hname Hctx Hg Hne) as (w'' & header & Hs & Hl & Hc & He).
    exists w'', header. split; [exact Hs|]. split; [exact Hl|].
    split; [rewrite Hc; exact Hg'|exact He].
Qed.

(** ** The content store over the life of the server *)

Lemma handleGet_entries (h : contentHandler) (req : Request) (headOnly : bool)
    (w : World S) :
  entries (fst (serve (handleGet h req headOnly) w)) = entries w.
Proof.
  unfold serve, handleGet. run_handler.
  destruct (store_Get (objects w) (ctx h) (name h)) as [[file|]|err];
    cbv beta iota; cbn [entries]; try reflexivity.
  destruct (entries w !! name h); reflexivity.
Qed.

(** What a PUT does to the content store: nothing, or one insertion under
    the handler's name, made after validation and a successful upsert and
    answered 201. *)
Lemma handlePut_writes (h : contentHandler) (req : Request) (w : World S) :
  let (w', resp) := serve (handlePut h req) w in
  entries w' = entries w
  \/ ((exists contentBytes mediaType params,
          Body req = inl contentBytes
          /\ ParseMediaType (declaredContentType req) = (mediaType, params, None)
          /\ isValidMIMEType mediaType = true
          /\ entries w' =
             <[name h := {| data := contentBytes;
                            status := uploadStatus h
                                        (Z.of_nat (length contentBytes))
                                        (normalizedContentType mediaType params) |}]>
               (entries w))
       /\ (exists new c,
             calls w' = calls w ++ new /\ In c new /\ upsertSucceeded c = true)
       /\ exists obj, resp = ResponderObject StatusCreated obj).
Proof.
  destruct (Body req) as [contentBytes|msg] eqn:Hbody.
  2:{ unfold serve, handlePut. rewrite Hbody. left. reflexivity. }
  destruct (ParseMediaType (declaredContentType req))
    as [[mediaType params] err] eqn:Hparse.
  destruct (classic_rejected err mediaType) as [Hrej|[-> Hvalid]].
  { rewrite (handlePut_rejected h req w _ _ _ _ Hbody Hparse Hrej).
    left. reflexivity. }
  put_cases h req w Hbody Hparse Hvalid; try (left; reflexivity).
  all: right; split;
    [ exists contentBytes, mediaType, params; repeat split; assumption
    | split;
      [ eexists _, _; split; [reflexivity|];
        split; [right; left; reflexivity|reflexivity]
      | eexists; reflexivity ] ].
Qed.

Lemma uploadStatus_success (h : contentHandler) (contentBytes : list Byte.byte)
    (contentType : string) :
  successEntry (name h)
    {| data := contentBytes;
       status := uploadStatus h (Z.of_nat (length contentBytes)) contentType |}.
Proof.
  unfold successEntry. cbn [status data uploadStatus status_Status
                            status_Code status_Message status_Details].
  split; [reflexivity|]. split; [reflexivity|].
  split; [exists contentType; reflexivity|].
  eexists. split; reflexivity.
Qed.

(** One request against any world: the content store is untouched, or the
    request is a PUT that passed validation, upserted the metadata without
    error, inserted the entry under its name and was answered 201. *)
Lemma ServeHTTP_writes (h : contentHandler) (req : Request) (w : World S) :
  let (w', resp) := ServeHTTP h req w in
  entries w' = entries w
  \/ (Method req = "PUT"
      /\ (exists contentBytes mediaType params,
            Body req = inl contentBytes
            /\ ParseMediaType (declaredContentType req)
               = (mediaType, params, None)
            /\ isValidMIMEType mediaType = true
            /\ entries w' =
               <[name h := {| data := contentBytes;
                              status := uploadStatus h
                                          (Z.of_nat (length contentBytes))
                                          (normalizedContentType mediaType params) |}]>
                 (entries w))
      /\ (exists new c,
            calls w' = calls w ++ new /\ In c new /\ upsertSucceeded c = true)
      /\ exists obj, resp = ResponderObject StatusCreated obj).
Proof.
  unfold ServeHTTP.
  destruct (String.eqb (Method req) "GET") eqn:Eget.
  { pose proof (handleGet_entries h req false w) as He.
    destruct (serve (handleGet h req false) w) as [w' resp]. left. exact He. }
  destruct (String.eqb (Method req) "HEAD") eqn:Ehead.
  { pose proof (handleGet_entries h req true w) as He.
    destruct (serve (handleGet h req true) w) as [w' resp]. left. exact He. }
  destruct (String.eqb (Method req) "PUT") eqn:Eput; [|left; reflexivity].
  apply String.eqb_eq in Eput.
  pose proof (handlePut_writes h req w) as Hw.
  destruct (serve (handlePut h req) w) as [w' resp].
  destruct Hw as [Hw|Hw]; [left; exact Hw|right; split; [exact Eput|exact Hw]].
Qed.

(** C9.  In every world the server can reach, each entry of the content
    store carries the success descriptor of its name: status Success, code
    201, message and details naming the resource.  Only a PUT writes to the
    store, and only after the body was read, the Content-Type passed both
    checks and the metadata upsert returned no error; such a PUT is answered
    201.  Every other request, failed PUTs included, leaves the entries as
    they were. *)
Theorem content_store_invariant (w : World S) :
  reachable w ->
  (forall key entry, entries w !! key = Some entry -> successEntry key entry)
  /\ (forall (h : contentHandler) (req : Request),
        let (w', resp) := ServeHTTP h req w in
        entries w' = entries w
        \/ (Method req = "PUT"
            /\ (exists contentBytes mediaType params,
                  Body req = inl contentBytes
                  /\ ParseMediaType (declaredContentType req)
                     = (mediaType, params, None)
                  /\ isValidMIMEType mediaType = true
                  /\ entries w' =
                     <[name h := {| data := contentBytes;
                                    status := uploadStatus h
                                                (Z.of_nat (length contentBytes))
                                                (normalizedContentType mediaType params) |}]>
                       (entries w))
            /\ (exists new c,
                  calls w' = calls w ++ new /\ In c new
                  /\ upsertSucceeded c = true)
            /\ exists obj, resp = ResponderObject StatusCreated obj)).
Proof.
  intros Hreach. split; [|intros h req; apply ServeHTTP_writes].
  induction Hreach as [s|w h req Hreach IH|w s Hreach IH]; cbn [entries].
  - intros key entry Hlook. rewrite lookup_empty in Hlook. discriminate.
  - pose proof (ServeHTTP_writes h req w) as Hw.
    destruct (ServeHTTP h req w) as [w' resp]. cbn [fst].
    destruct Hw as [->|(_ & (contentBytes & mediaType & params & _ & _ & _ & ->) & _)];
      [exact IH|].
    intros key entry Hlook.
    destruct (decide (name h = key)) as [<-|Hne].
    + rewrite lookup_insert_eq in Hlook. injection Hlook as <-.
      apply uploadStatus_success.
    + rewrite lookup_insert_ne in Hlook by exact Hne. now apply IH.
  - exact IH.
Qed.

End Runs.

(** ** The reference store, and runs on it *)

Lemma MemStore_readsBack (s : MemStore) : failGet s = None -> readsBack s.
Proof.
  intros Hget. split.
  - intros s' c f. cbn [store_Create MemStore_ObjectStore]. unfold MemStore_Create.
    destruct (failCreate s); [discriminate|].
    destruct (files s !! (NamespaceValue c, Name (ObjectMeta f))); [discriminate|].
    intros [= <-]. exists f.
    cbn [store_Get MemStore_ObjectStore]. unfold MemStore_Get, MemStore_put.
    cbn [failGet files]. rewrite Hget, lookup_insert_eq. auto.
  - intros s' c key f. cbn [store_Update MemStore_ObjectStore].
    unfold MemStore_Update.
    destruct (failUpdate s); [discriminate|].
    destruct (files s !! (NamespaceValue c, key)); [|discriminate].
    intros [= <-]. exists f.
    cbn [store_Get MemStore_ObjectStore]. unfold MemStore_Get, MemStore_put.
    cbn [failGet files]. rewrite Hget, lookup_insert_eq. auto.
Qed.

(** The runs below are on ASCII requests: they never reach the Unicode tables,
    and come out the same under any [GoUnicode]. *)
Lemma plainPut_any_unicode (U : GoUnicode) :
  serve (handlePut (U := U) helloHandler plainPut) emptyWorld
  = serve (handlePut (U := asciiUnicode) helloHandler plainPut) emptyWorld.
Proof. vm_compute. reflexivity. Qed.

Lemma bogusPut_any_unicode (U : GoUnicode) :
  serve (handlePut (U := U) helloHandler (putRequest "bogus-no-slash" hi))
    emptyWorld
  = serve (handlePut (U := asciiUnicode) helloHandler
             (putRequest "bogus-no-slash" hi)) emptyWorld.
Proof. vm_compute. reflexivity. Qed.

Section Examples.
Local Existing Instance asciiUnicode.

(** C1, as stated, fails: on the empty reference store a PUT calls Get, then
    Create, then commits the content; the Create has no content commit
    before it. *)
Lemma content_committed_first_counterexample :
  ~ contentCommittedFirst
      (calls (fst (serve (handlePut helloHandler plainPut) emptyWorld))).
Proof.
  intros Hclaim.
  destruct (Hclaim
              [CallGet "hello" (inr (NewNotFound (cdn_Resource "files") "hello"))]
              (CallCreate
                 (newFile helloHandler
                    (buildContentURL helloHandler plainPut)
                    2 "text/plain") None)
              [CallContentPut "hello"
                 {| data := hi;
                    status := uploadStatus helloHandler 2 "text/plain" |}])
    as (key & entry & Hin).
  - vm_compute. reflexivity.
  - reflexivity.
  - destruct Hin as [Hin|[]]. discriminate.
Qed.

(** C6, as stated, fails: the PUT with Content-Type bogus-no-slash is not
    answered with any of the parse-failure messages. *)
Lemma bogus_no_slash_counterexample :
  ~ exists e,
      snd (serve (handlePut helloHandler (putRequest "bogus-no-slash" hi))
             emptyWorld)
      = HttpError (invalidMessage e) StatusBadRequest.
Proof.
  intros [e He]. destruct e; vm_compute in He; discriminate.
Qed.

(** What the two PUT requests declare. *)
Lemma charsetPut_parses :
  ParseMediaType (declaredContentType charsetPut)
  = ("text/plain", {["charset" := "utf-8"]}, None).
Proof. vm_compute. reflexivity. Qed.

Lemma plainPut_parses :
  ParseMediaType (declaredContentType plainPut) = ("text/plain", ∅, None).
Proof. vm_compute. reflexivity. Qed.

(** [put_then_get] on the reference store: PUT two bytes as text/plain with a
    charset, then GET them. *)
Lemma put_then_get_witness :
  readsBack (objects emptyWorld)
  /\ Method charsetPut = "PUT"
  /\ Body charsetPut = inl hi
  /\ ParseMediaType (declaredContentType charsetPut)
     = ("text/plain", {["charset" := "utf-8"]}, None)
  /\ ServeHTTP helloHandler charsetPut emptyWorld
     = (uploadedWorld,
        ResponderObject StatusCreated
          {| FileContent_TypeMeta := zeroTypeMeta;
             FileContent_Status :=
               uploadStatus helloHandler 2 "text/plain; charset=utf-8" |})
  /\ Method getRequest = "GET"
  /\ exists w'' header,
       ServeHTTP helloHandler getRequest uploadedWorld
       = (w'', Written header StatusOK hi)
       /\ Header_Get header "Content-Length" = "2"
       /\ Header_Get header "Content-Type" = "text/plain; charset=utf-8"
       /\ entries w'' = entries uploadedWorld.
Proof.
  assert (Hrb : readsBack (objects emptyWorld))
    by (apply MemStore_readsBack; reflexivity).
  assert (Hrun : ServeHTTP helloHandler charsetPut emptyWorld
                 = (uploadedWorld,
                    ResponderObject StatusCreated
                      {| FileContent_TypeMeta := zeroTypeMeta;
                         FileContent_Status :=
                           uploadStatus helloHandler 2
                             "text/plain; charset=utf-8" |}))
    by (vm_compute; reflexivity).
  split; [exact Hrb|]. split; [reflexivity|]. split; [reflexivity|].
  split; [exact charsetPut_parses|]. split; [exact Hrun|].
  split; [reflexivity|].
  exact (put_then_get helloHandler helloHandler charsetPut getRequest
           emptyWorld uploadedWorld hi _ _ _ Hrb eq_refl eq_refl
           charsetPut_parses Hrun eq_refl eq_refl eq_refl).
Defined.


(** [bogus_no_slash_unsupported] against a world that already holds content. *)
Lemma bogus_no_slash_unsupported_witness :
  Body (putRequest "bogus-no-slash" hi) = inl hi
  /\ Header_Get (Header (putRequest "bogus-no-slash" hi)) "Content-Type"
     = "bogus-no-slash"
  /\ serve (handlePut helloHandler (putRequest "bogus-no-slash" hi))
       uploadedWorld
     = (uploadedWorld,
        HttpError (unsupportedMessage "bogus-no-slash") StatusBadRequest).
Proof.
  assert (Hh : Header_Get (Header (putRequest "bogus-no-slash" hi))
                 "Content-Type" = "bogus-no-slash")
    by (vm_compute; reflexivity).
  split; [reflexivity|]. split; [exact Hh|].
  exact (proj1 (proj2 (bogus_no_slash_unsupported helloHandler
                         (putRequest "bogus-no-slash" hi) uploadedWorld hi
                         eq_refl Hh))).
Defined.

(** [mime_allow_list] at wibble/plain and application/x-custom. *)
Lemma mime_allow_list_witness :
  ParseMediaType (declaredContentType (putRequest "wibble/plain" hi))
  = ("wibble/plain", ∅, None)
  /\ isValidMIMEType "wibble/plain" = false
  /\ snd (serve (handlePut helloHandler (putRequest "wibble/plain" hi))
            emptyWorld)
     = HttpError (unsupportedMessage "wibble/plain") StatusBadRequest
  /\ isValidMIMEType "application/x-custom" = true.
Proof.
  assert (Hp : ParseMediaType (declaredContentType (putRequest "wibble/plain" hi))
               = ("wibble/plain", ∅, None))
    by (vm_compute; reflexivity).
  assert (Hv : isValidMIMEType "wibble/plain" = false)
    by (vm_compute; reflexivity).
  destruct (mime_allow_list (S := MemStore)) as (Hiff & Hrej & _).
  split; [exact Hp|]. split; [exact Hv|]. split.
  - exact (proj2 (Hrej helloHandler (putRequest "wibble/plain" hi) emptyWorld
                    hi _ _ eq_refl Hp) Hv).
  - apply Hiff. exists "application", "x-custom".
    split; [reflexivity|]. split; [left; reflexivity|discriminate].
Defined.

(** [put_creates_or_updates], one PUT for each outcome of the lookup: no File
    yet, a File in place, a store that cannot be reached, and a lookup
    answered 404 without a reason. *)
Lemma put_creates_or_updates_witness :
  (Body charsetPut = inl hi
   /\ ParseMediaType (declaredContentType charsetPut)
      = ("text/plain", {["charset" := "utf-8"]}, None)
   /\ isValidMIMEType "text/plain" = true)
  /\ (exists file rest,
        calls (fst (serve (handlePut helloHandler charsetPut) emptyWorld))
        = CallGet "hello" (inr (NewNotFound (cdn_Resource "files") "hello"))
          :: CallCreate file None :: rest
        /\ Name (ObjectMeta file) = "hello"
        /\ Uploaded (Status file) = true
        /\ Size (Spec file) = 2)
  /\ (exists file' rest,
        calls (fst (serve (handlePut helloHandler charsetPut) labelledWorld))
        = CallGet "hello" (inl (FileObject labelledFile))
          :: CallUpdate "hello" file' None :: rest
        /\ Name (ObjectMeta file') = "hello"
        /\ Size (Spec file') = 2
        /\ ContentType (Spec file') = "text/plain; charset=utf-8"
        /\ Uploaded (Status file') = true
        /\ Error (Status file') = EmptyString)
  /\ serve (handlePut helloHandler charsetPut) brokenWorld
     = (record (CallGet "hello" (inr unavailable)) brokenWorld,
        ResponderError unavailable)
  /\ (IsNotFound pageNotFound = true
      /\ exists file rest,
           calls (fst (serve (handlePut helloHandler charsetPut) proxiedWorld))
           = CallGet "hello" (inr pageNotFound) :: CallCreate file None :: rest
           /\ Name (ObjectMeta file) = "hello"
           /\ Uploaded (Status file) = true
           /\ Size (Spec file) = 2).
Proof.
  assert (Hv : isValidMIMEType "text/plain" = true) by (vm_compute; reflexivity).
  split; [split; [reflexivity|split; [exact charsetPut_parses|exact Hv]]|].
  split; [|split; [|split]].
  - pose proof (put_creates_or_updates helloHandler charsetPut emptyWorld hi
                  _ _ eq_refl charsetPut_parses Hv) as Hrun.
    cbv zeta in Hrun.
    destruct (serve (handlePut helloHandler charsetPut) emptyWorld)
      as [w' resp] eqn:Hserve.
    change (store_Get (objects emptyWorld) (ctx helloHandler) (name helloHandler))
      with (@inr Object error (NewNotFound (cdn_Resource "files") "hello"))
      in Hrun.
    cbn [IsNotFound] in Hrun.
    destruct Hrun as (file & e & rest & Hcalls & _ & Hobj & Hname & Hup & Hsize).
    assert (He : e = None).
    { apply (f_equal fst) in Hserve. cbn [fst] in Hserve. subst w'.
      vm_compute in Hcalls. injection Hcalls as _ <- _. reflexivity. }
    subst e. exists file, rest. cbn [fst]. repeat split; assumption.
  - pose proof (put_creates_or_updates helloHandler charsetPut labelledWorld hi
                  _ _ eq_refl charsetPut_parses Hv) as Hrun.
    cbv zeta in Hrun.
    destruct (serve (handlePut helloHandler charsetPut) labelledWorld)
      as [w' resp] eqn:Hserve.
    change (store_Get (objects labelledWorld) (ctx helloHandler)
              (name helloHandler))
      with (@inl Object error (FileObject labelledFile)) in Hrun.
    destruct Hrun as (file' & e & rest & Hcalls & _ & Hobj & Hname & _
                      & Hsize & Hct & Hup & Herr).
    assert (He : e = None).
    { apply (f_equal fst) in Hserve. cbn [fst] in Hserve. subst w'.
      vm_compute in Hcalls. injection Hcalls as _ <- _. reflexivity. }
    subst e. exists file', rest. cbn [fst]. repeat split; assumption.
  - pose proof (put_creates_or_updates helloHandler charsetPut brokenWorld hi
                  _ _ eq_refl charsetPut_parses Hv) as Hrun.
    cbv zeta in Hrun.
    destruct (serve (handlePut helloHandler charsetPut) brokenWorld)
      as [w' resp].
    change (store_Get (objects brokenWorld) (ctx helloHandler)
              (name helloHandler))
      with (@inr Object error unavailable) in Hrun.
    change (IsNotFound unavailable) with false in Hrun. cbv iota in Hrun.
    destruct Hrun as [-> ->]. reflexivity.
  - split; [reflexivity|].
    pose proof (put_creates_or_updates helloHandler charsetPut proxiedWorld hi
                  _ _ eq_refl charsetPut_parses Hv) as Hrun.
    cbv zeta in Hrun.
    destruct (serve (handlePut helloHandler charsetPut) proxiedWorld)
      as [w' resp] eqn:Hserve.
    change (store_Get (objects proxiedWorld) (ctx helloHandler)
              (name helloHandler))
      with (@inr Object error pageNotFound) in Hrun.
    change (IsNotFound pageNotFound) with true in Hrun. cbv iota in Hrun.
    destruct Hrun as (file & e & rest & Hcalls & _ & Hobj & Hname & Hup & Hsize).
    assert (He : e = None).
    { apply (f_equal fst) in Hserve. cbn [fst] in Hserve. subst w'.
      vm_compute in Hcalls. injection Hcalls as _ <- _. reflexivity. }
    subst e. exists file, rest. cbn [fst]. repeat split; assumption.
Defined.

(** [stored_content_type] for an update of the labelled File on the
    reference store. *)
Lemma stored_content_type_witness :
  (Body charsetPut = inl hi
   /\ ParseMediaType (declaredContentType charsetPut)
      = ("text/plain", {["charset" := "utf-8"]}, None)
   /\ isValidMIMEType "text/plain" = true)
  /\ (exists new,
        calls (fst (serve (handlePut helloHandler charsetPut) labelledWorld))
        = calls labelledWorld ++ new
        /\ (forall c file,
              In c new -> upsertedFile c = Some file ->
              ContentType (Spec file) = "text/plain; charset=utf-8")
        /\ exists c file,
             In c new /\ upsertSucceeded c = true
             /\ upsertedFile c = Some file)
  /\ (readsBack (objects labelledWorld)
      /\ exists file,
           store_Get
             (objects (fst (serve (handlePut helloHandler charsetPut)
                              labelledWorld)))
             (ctx helloHandler) (name helloHandler)
           = inl (FileObject file)
           /\ ContentType (Spec file) = "text/plain; charset=utf-8").
Proof.
  assert (Hv : isValidMIMEType "text/plain" = true) by (vm_compute; reflexivity).
  assert (Hrb : readsBack (objects labelledWorld))
    by (apply MemStore_readsBack; reflexivity).
  assert (Hrun : serve (handlePut helloHandler charsetPut) labelledWorld
                 = (fst (serve (handlePut helloHandler charsetPut) labelledWorld),
                    ResponderObject StatusCreated
                      {| FileContent_TypeMeta := zeroTypeMeta;
                         FileContent_Status :=
                           uploadStatus helloHandler 2
                             "text/plain; charset=utf-8" |}))
    by (vm_compute; reflexivity).
  split; [split; [reflexivity|split; [exact charsetPut_parses|exact Hv]]|].
  destruct (stored_content_type helloHandler charsetPut labelledWorld hi
              _ _ eq_refl charsetPut_parses Hv)
    as ((new & Hcalls & Hall & _ & Hmade) & _ & _ & Hback).
  split.
  - exists new. split; [exact Hcalls|]. split; [exact Hall|].
    apply (Hmade StatusCreated
             {| FileContent_TypeMeta := zeroTypeMeta;
                FileContent_Status :=
                  uploadStatus helloHandler 2 "text/plain; charset=utf-8" |}).
    rewrite Hrun. reflexivity.
  - split; [exact Hrb|]. exact (Hback Hrb _ _ _ Hrun).
Defined.

(** [content_url] for a PUT over TLS with no external host configured. *)
Lemma content_url_witness :
  (Body plainPut = inl hi
   /\ ParseMediaType (declaredContentType plainPut) = ("text/plain", ∅, None)
   /\ isValidMIMEType "text/plain" = true)
  /\ buildContentURL helloHandler plainPut
     = "https://cdn.example:8443/apis/cdn.k8s.toms.place/v1alpha1/namespaces/default/files/hello/content"
  /\ exists new,
       calls (fst (serve (handlePut helloHandler plainPut) emptyWorld))
       = calls emptyWorld ++ new
       /\ forall c file,
           In c new -> upsertedFile c = Some file ->
           URL (Spec file) = buildContentURL helloHandler plainPut.
Proof.
  assert (Hv : isValidMIMEType "text/plain" = true) by (vm_compute; reflexivity).
  split; [split; [reflexivity|split; [exact plainPut_parses|exact Hv]]|].
  split; [reflexivity|].
  exact (proj2 (content_url helloHandler plainPut) emptyWorld hi _ _
           eq_refl plainPut_parses Hv).
Defined.

(** [content_store_invariant] in the world reached by one PUT. *)
Lemma content_store_invariant_witness :
  reachable uploadedWorld
  /\ entries uploadedWorld !! "hello"
     = Some {| data := hi;
               status := uploadStatus helloHandler 2
                           "text/plain; charset=utf-8" |}
  /\ successEntry "hello"
       {| data := hi;
          status := uploadStatus helloHandler 2 "text/plain; charset=utf-8" |}.
Proof.
  assert (Hreach : reachable uploadedWorld)
    by (apply reachable_serve, (reachable_start emptyStore)).
  assert (Hlook : entries uploadedWorld !! "hello"
                  = Some {| data := hi;
                            status := uploadStatus helloHandler 2
                                        "text/plain; charset=utf-8" |})
    by (vm_compute; reflexivity).
  split; [exact Hreach|]. split; [exact Hlook|].
  exact (proj1 (content_store_invariant uploadedWorld Hreach) _ _ Hlook).
Defined.

(** [update_frame] for the labelled File: labels, annotations and resource
    location come through, the recorded error is cleared. *)
Lemma update_frame_witness :
  (Body plainPut = inl hi
   /\ ParseMediaType (declaredContentType plainPut) = ("text/plain", ∅, None)
   /\ isValidMIMEType "text/plain" = true
   /\ store_Get (objects labelledWorld) (ctx helloHandler) (name helloHandler)
      = inl (FileObject labelledFile))
  /\ exists file' e rest,
       calls (fst (serve (handlePut helloHandler plainPut) labelledWorld))
       = CallGet "hello" (inl (FileObject labelledFile))
         :: CallUpdate "hello" file' e :: rest
       /\ ObjectMeta file' = ObjectMeta labelledFile
       /\ Labels (ObjectMeta file') = {["team" := "web"]}
       /\ Annotations (ObjectMeta file') = {["note" := "logo"]}
       /\ ResourceLocation (Spec file') = "/path/to/content"
       /\ ContentType (Spec file') = "text/plain"
       /\ Error (Status file') = EmptyString.
Proof.
  assert (Hv : isValidMIMEType "text/plain" = true) by (vm_compute; reflexivity).
  assert (Hg : store_Get (objects labelledWorld) (ctx helloHandler)
                 (name helloHandler) = inl (FileObject labelledFile))
    by (vm_compute; reflexivity).
  split;
    [split; [reflexivity|split; [exact plainPut_parses|split; [exact Hv|exact Hg]]]|].
  destruct (update_frame helloHandler plainPut labelledWorld hi _ _ labelledFile
              eq_refl plainPut_parses Hv Hg)
    as (file' & e & rest & Hcalls & _ & Hfile & _ & Hmeta & _ & _ & Hl & Ha & Hrl).
  exists file', e, rest. split; [exact Hcalls|]. split; [exact Hmeta|].
  split; [exact Hl|]. split; [exact Ha|]. split; [exact Hrl|].
  rewrite Hfile. split; reflexivity.
Defined.

End Examples.

(** * Further properties *)

(** ** The handlers, beyond upload and download of one File *)

Section MoreRuns.
Context `{U : GoUnicode} {S : Type} `{OS : ObjectStore S}.

(** [handleGet], outcome by outcome. *)
Lemma handleGet_run (h : contentHandler) (req : Request) (headOnly : bool)
    (w : World S) :
  let result := store_Get (objects w) (ctx h) (name h) in
  serve (handleGet h req headOnly) w =
  (record (CallGet (name h) result) w,
   match result with
   | inr err => ResponderError err
   | inl OtherObject => ResponderError (Errorf "object is not a File")
   | inl (FileObject file) =>
       match entries w !! name h with
       | Some entry =>
           Written
             (Header_Set
                (Header_Set
                   (Header_Set ∅ "Content-Type"
                      (if String.eqb (ContentType (Spec file)) EmptyString
                       then "application/octet-stream"
                       else ContentType (Spec file)))
                   "Content-Length"
                   (formatInt (Z.of_nat (length (data entry)))))
                "Content-Disposition"
                ("attachment; filename=" +:+ strconv_Quote (name h)))
             StatusOK (if headOnly then [] else data entry)
       | None => ResponderError (NewNotFound (cdn_Resource "file") (name h))
       end
   end).
Proof.
  cbv zeta. unfold serve, handleGet. run_handler.
  destruct (store_Get (objects w) (ctx h) (name h)) as [[file|]|err];
    cbv beta iota; cbn [entries]; try reflexivity.
  destruct (entries w !! name h); reflexivity.
Qed.

(** What [handlePut] answers through [http.Error] is a 400 or a 500. *)
Lemma handlePut_error_codes (h : contentHandler) (req : Request) (w : World S)
    (message : string) (code : Z) :
  snd (serve (handlePut h req) w) = HttpError message code ->
  code = StatusBadRequest \/ code = StatusInternalServerError.
Proof.
  destruct (Body req) as [contentBytes|msg] eqn:Hbody.
  2:{ unfold serve, handlePut. rewrite Hbody. cbn. intros [= _ <-]. now right. }
  destruct (ParseMediaType (declaredContentType req))
    as [[mediaType params] err] eqn:Hparse.
  destruct (classic_rejected err mediaType) as [Hrej|[-> Hvalid]].
  { rewrite (handlePut_rejected h req w _ _ _ _ Hbody Hparse Hrej).
    cbn. intros [= _ <-]. now left. }
  put_cases h req w Hbody Hparse Hvalid; try discriminate;
    intros [= _ <-]; now right.
Qed.

(** X1.  The dispatcher answers 405, naming the method and changing nothing,
    exactly for the methods that [ConnectMethods] does not list. *)
Theorem method_not_allowed_iff (h : contentHandler) (req : Request)
    (w : World S) :
  ServeHTTP h req w
  = (w, HttpError ("method " +:+ Method req +:+ " not allowed")
          StatusMethodNotAllowed)
  <-> ~ In (Method req) ConnectMethods.
Proof.
  unfold ServeHTTP, ConnectMethods. split.
  - intros Hrun [Hm|[Hm|[Hm|[]]]]; rewrite <- Hm in Hrun; cbn in Hrun.
    + rewrite handleGet_run in Hrun. cbv zeta in Hrun.
      injection Hrun as _ Hresp.
      destruct (store_Get (objects w) (ctx h) (name h)) as [[file|]|err];
        try discriminate.
      destruct (entries w !! name h); discriminate.
    + rewrite handleGet_run in Hrun. cbv zeta in Hrun.
      injection Hrun as _ Hresp.
      destruct (store_Get (objects w) (ctx h) (name h)) as [[file|]|err];
        try discriminate.
      destruct (entries w !! name h); discriminate.
    + apply (f_equal snd) in Hrun. cbn [snd] in Hrun.
      apply handlePut_error_codes in Hrun. destruct Hrun; discriminate.
  - intros Hnot.
    destruct (String.eqb (Method req) "GET") eqn:E1.
    { apply String.eqb_eq in E1. exfalso. apply Hnot. left. now symmetry. }
    destruct (String.eqb (Method req) "HEAD") eqn:E2.
    { apply String.eqb_eq in E2. exfalso. apply Hnot. right. left.
      now symmetry. }
    destruct (String.eqb (Method req) "PUT") eqn:E3.
    { apply String.eqb_eq in E3. exfalso. apply Hnot. right. right. left.
      now symmetry. }
    reflexivity.
Qed.

Lemma ServeHTTP_HEAD (h : contentHandler) (req : Request) (w : World S) :
  Method req = "HEAD" -> ServeHTTP h req w = serve (handleGet h req true) w.
Proof. intros Hm. unfold ServeHTTP. rewrite Hm. reflexivity. Qed.

(** X2.  A HEAD is answered like the GET for the same handler on the same
    world, with the same status and headers and the same effect on the world,
    but with no body; where the GET answers with an error, the HEAD answers
    with the same error. *)
Theorem head_is_get_without_body (h : contentHandler) (req req' : Request)
    (w : World S) :
  Method req = "GET" ->
  Method req' = "HEAD" ->
  fst (ServeHTTP h req' w) = fst (ServeHTTP h req w)
  /\ snd (ServeHTTP h req' w)
     = match snd (ServeHTTP h req w) with
       | Written header statusCode _ => Written header statusCode []
       | resp => resp
       end.
Proof.
  intros Hget Hhead.
  rewrite (ServeHTTP_GET _ _ _ Hget), (ServeHTTP_HEAD _ _ _ Hhead).
  rewrite !handleGet_run. cbv zeta. cbn [fst snd]. split; [reflexivity|].
  destruct (store_Get (objects w) (ctx h) (name h)) as [[file|]|err];
    try reflexivity.
  destruct (entries w !! name h); reflexivity.
Qed.

(** X3.  A GET or a HEAD reads only: the object store and the content store
    are what they were, and the one call made is the lookup of the File. *)
Theorem get_reads_only (h : contentHandler) (req : Request) (w : World S) :
  Method req = "GET" \/ Method req = "HEAD" ->
  let (w', resp) := ServeHTTP h req w in
  objects w' = objects w
  /\ entries w' = entries w
  /\ calls w' = calls w ++ [CallGet (name h)
                              (store_Get (objects w) (ctx h) (name h))].
Proof.
  intros [Hm|Hm];
    [rewrite (ServeHTTP_GET _ _ _ Hm)|rewrite (ServeHTTP_HEAD _ _ _ Hm)];
    rewrite handleGet_run; cbv zeta; repeat split.
Qed.

(** X4.  A GET is answered 200 with a body exactly when the object store
    returns a File for the name and the content store holds an entry for it.
    The body is then the bytes of the entry, Content-Length their number, and
    Content-Type the content type of the File, or application/octet-stream
    when the File has none.  A File without an entry is answered with the
    not-found error of the resource file (404); an error of the lookup is
    passed on as it is. *)
Theorem get_answers (h : contentHandler) (req : Request) (w : World S) :
  Method req = "GET" ->
  let resp := snd (ServeHTTP h req w) in
  ((exists header statusCode body, resp = Written header statusCode body)
   <-> exists file entry,
         store_Get (objects w) (ctx h) (name h) = inl (FileObject file)
         /\ entries w !! name h = Some entry)
  /\ (forall file entry,
        store_Get (objects w) (ctx h) (name h) = inl (FileObject file) ->
        entries w !! name h = Some entry ->
        exists header,
          resp = Written header StatusOK (data entry)
          /\ Header_Get header "Content-Length"
             = formatInt (Z.of_nat (length (data entry)))
          /\ Header_Get header "Content-Type"
             = (if String.eqb (ContentType (Spec file)) EmptyString
                then "application/octet-stream" else ContentType (Spec file))
          /\ Header_Get header "Content-Disposition"
             = "attachment; filename=" +:+ strconv_Quote (name h))
  /\ (forall file,
        store_Get (objects w) (ctx h) (name h) = inl (FileObject file) ->
        entries w !! name h = None ->
        resp = ResponderError (NewNotFound (cdn_Resource "file") (name h))
        /\ Response_code resp = StatusNotFound)
  /\ (forall err,
        store_Get (objects w) (ctx h) (name h) = inr err ->
        resp = ResponderError err).
Proof.
  intros Hm. cbv zeta. rewrite (ServeHTTP_GET _ _ _ Hm), handleGet_run.
  cbv zeta. cbn [snd]. split; [|split; [|split]].
  - split.
    + intros (header & code & body & Hresp).
      destruct (store_Get (objects w) (ctx h) (name h)) as [[file|]|err];
        try discriminate.
      destruct (entries w !! name h) as [entry|]; [|discriminate]. eauto.
    + intros (file & entry & -> & ->). eauto.
  - intros file entry -> ->. eexists. split; [reflexivity|].
    unfold Header_Get, Header_Set. split; [|split].
    + rewrite lookup_insert_ne by discriminate.
      rewrite lookup_insert_eq. reflexivity.
    + rewrite lookup_insert_ne by discriminate.
      rewrite lookup_insert_ne by discriminate.
      rewrite lookup_insert_eq. reflexivity.
    + rewrite lookup_insert_eq. reflexivity.
  - intros file -> ->. split; reflexivity.
  - intros err ->. reflexivity.
Qed.

(** X5.  A PUT without a Content-Type header (or with an empty one) is taken
    as application/octet-stream: it passes both checks and goes on to the
    upsert and the commit under that content type. *)
Theorem put_without_content_type (h : contentHandler) (req : Request)
    (w : World S) (contentBytes : list Byte.byte) :
  Body req = inl contentBytes ->
  Header_Get (Header req) "Content-Type" = EmptyString ->
  let contentSize := Z.of_nat (length contentBytes) in
  serve (handlePut h req) w =
  serve (upsert h req contentSize "application/octet-stream" ;;;
         commit h contentBytes contentSize "application/octet-stream") w.
Proof.
  intros Hbody Hct contentSize.
  assert (Hparse : ParseMediaType (declaredContentType req)
                   = ("application/octet-stream", ∅, None)).
  { unfold declaredContentType. rewrite Hct. vm_compute. reflexivity. }
  put_start Hbody Hparse. reflexivity.
Qed.

(** What a request that is answered through [responder.Object] has done. *)
Lemma ServeHTTP_created (h : contentHandler) (req : Request) (w w' : World S)
    (statusCode : Z) (obj : FileContent) :
  ServeHTTP h req w = (w', ResponderObject statusCode obj) ->
  exists contentBytes,
    Method req = "PUT"
    /\ Body req = inl contentBytes
    /\ statusCode = StatusCreated
    /\ entries w' = <[name h := {| data := contentBytes;
                                  status := FileContent_Status obj |}]>
                      (entries w).
Proof.
  unfold ServeHTTP.
  destruct (String.eqb (Method req) "GET") eqn:E1.
  { rewrite handleGet_run. cbv zeta. intros [= _ Hresp].
    destruct (store_Get (objects w) (ctx h) (name h)) as [[file|]|err];
      try discriminate.
    destruct (entries w !! name h); discriminate. }
  destruct (String.eqb (Method req) "HEAD") eqn:E2.
  { rewrite handleGet_run. cbv zeta. intros [= _ Hresp].
    destruct (store_Get (objects w) (ctx h) (name h)) as [[file|]|err];
      try discriminate.
    destruct (entries w !! name h); discriminate. }
  destruct (String.eqb (Method req) "PUT") eqn:E3; [|discriminate].
  apply String.eqb_eq in E3.
  destruct (Body req) as [contentBytes|msg] eqn:Hbody.
  2:{ unfold serve, handlePut. rewrite Hbody. discriminate. }
  destruct (ParseMediaType (declaredContentType req))
    as [[mediaType params] err] eqn:Hparse.
  destruct (classic_rejected err mediaType) as [Hrej|[-> Hvalid]].
  { rewrite (handlePut_rejected h req w _ _ _ _ Hbody Hparse Hrej).
    discriminate. }
  put_cases h req w Hbody Hparse Hvalid; try discriminate.
  all: intros [= <- <- <-]; exists contentBytes; repeat split; assumption.
Qed.

(** X6.  A request answered with a created object is a PUT whose body was
    read, the code is 201, and the entry then stored under the name holds
    exactly the request body together with the status the response carries. *)
Theorem created_response_is_stored (h : contentHandler) (req : Request)
    (w w' : World S) (statusCode : Z) (obj : FileContent) :
  ServeHTTP h req w = (w', ResponderObject statusCode obj) ->
  exists contentBytes,
    Method req = "PUT"
    /\ Body req = inl contentBytes
    /\ statusCode = StatusCreated
    /\ entries w' !! name h
       = Some {| data := contentBytes; status := FileContent_Status obj |}.
Proof.
  intros Hrun. destruct (ServeHTTP_created _ _ _ _ _ _ Hrun)
    as (contentBytes & Hm & Hb & Hc & He).
  exists contentBytes. repeat split; try assumption.
  rewrite He. apply lookup_insert_eq.
Qed.

(** X7.  A request touches no entry of the content store but the one under
    the name of its handler. *)
Theorem other_entries_untouched (h : contentHandler) (req : Request)
    (w : World S) (key : string) :
  key <> name h ->
  entries (fst (ServeHTTP h req w)) !! key = entries w !! key.
Proof.
  intros Hne. pose proof (ServeHTTP_writes h req w) as Hw.
  destruct (ServeHTTP h req w) as [w' resp]. cbn [fst].
  destruct Hw as [->|(_ & (contentBytes & mediaType & params & _ & _ & _ & ->) & _)];
    [reflexivity|].
  apply lookup_insert_ne. congruence.
Qed.

Lemma ServeHTTP_keeps (h : contentHandler) (req : Request) (w : World S)
    (key : string) :
  is_Some (entries w !! key) ->
  is_Some (entries (fst (ServeHTTP h req w)) !! key).
Proof.
  intros Hsome. pose proof (ServeHTTP_writes h req w) as Hw.
  destruct (ServeHTTP h req w) as [w' resp]. cbn [fst].
  destruct Hw as [->|(_ & (contentBytes & mediaType & params & _ & _ & _ & ->) & _)];
    [exact Hsome|].
  destruct (decide (name h = key)) as [<-|Hne].
  - rewrite lookup_insert_eq. eauto.
  - rewrite lookup_insert_ne by exact Hne. exact Hsome.
Qed.

(** X8.  No sequence of requests removes content: a name that has an entry
    in the content store still has one after any number of requests, by any
    handlers. *)
Theorem content_is_never_removed
    (requests : list (contentHandler * Request)) (w : World S) (key : string) :
  is_Some (entries w !! key) ->
  is_Some (entries (serveAll requests w) !! key).
Proof.
  unfold serveAll. revert w.
  induction requests as [|[h req] requests IH]; intros w Hsome; [exact Hsome|].
  cbn [fold_left fst snd]. apply IH. now apply ServeHTTP_keeps.
Qed.

(** X9.  The content store is keyed by the name alone: after a PUT answered
    201 for a name in one namespace, a GET for the same name in any namespace
    in which the object store has a File of that name is answered 200 with
    the bytes of that PUT. *)
Theorem content_keyed_by_name_alone (h h' : contentHandler)
    (req req' : Request) (w w' : World S) (statusCode : Z) (obj : FileContent)
    (contentBytes : list Byte.byte) (file : File) :
  ServeHTTP h req w = (w', ResponderObject statusCode obj) ->
  Body req = inl contentBytes ->
  Method req' = "GET" ->
  name h' = name h ->
  store_Get (objects w') (ctx h') (name h') = inl (FileObject file) ->
  exists header,
    snd (ServeHTTP h' req' w') = Written header StatusOK contentBytes.
Proof.
  intros Hrun Hbody Hget Hname Hfile.
  destruct (ServeHTTP_created _ _ _ _ _ _ Hrun)
    as (contentBytes' & _ & Hbody' & _ & Hentry).
  rewrite Hbody in Hbody'. injection Hbody' as <-.
  rewrite (ServeHTTP_GET _ _ _ Hget), handleGet_run. cbv zeta.
  rewrite Hfile, Hname, Hentry, lookup_insert_eq. cbn [snd data]. eauto.
Qed.

(** The status code of a GET or a HEAD. *)
Lemma handleGet_code (h : contentHandler) (req : Request) (headOnly : bool)
    (w : World S) :
  Response_code (snd (serve (handleGet h req headOnly) w)) = StatusBadRequest
  <-> exists err,
        store_Get (objects w) (ctx h) (name h) = inr err
        /\ Response_code (ResponderError err) = StatusBadRequest.
Proof.
  rewrite handleGet_run. cbv zeta. cbn [snd].
  destruct (store_Get (objects w) (ctx h) (name h)) as [[file|]|err].
  - split; [|intros (err & [=] & _)].
    destruct (entries w !! name h); discriminate.
  - split; [discriminate|intros (err & [=] & _)].
  - split; [eauto|]. now intros (err' & [= <-] & Hcode).
Qed.

(** X10.  A request is answered with status 400 in two cases and no other:
    it is a PUT whose body was read and whose Content-Type does not parse or
    names a media type outside the allow-list; or the lookup of the File
    fails with an error that itself carries the status 400 and is passed on
    to the responder, which happens for a GET, a HEAD, and an accepted PUT
    whose lookup error does not count as not-found.  A body that cannot be
    read, a create or update that fails, and a method that is not allowed are
    never answered 400. *)
Theorem bad_request_iff (h : contentHandler) (req : Request) (w : World S) :
  Response_code (snd (ServeHTTP h req w)) = StatusBadRequest
  <-> (Method req = "PUT"
       /\ (exists contentBytes, Body req = inl contentBytes)
       /\ (snd (ParseMediaType (declaredContentType req)) <> None
           \/ isValidMIMEType
                (fst (fst (ParseMediaType (declaredContentType req)))) = false))
      \/ (exists err,
            store_Get (objects w) (ctx h) (name h) = inr err
            /\ Response_code (ResponderError err) = StatusBadRequest
            /\ (Method req = "GET" \/ Method req = "HEAD"
                \/ (Method req = "PUT"
                    /\ (exists contentBytes, Body req = inl contentBytes)
                    /\ snd (ParseMediaType (declaredContentType req)) = None
                    /\ isValidMIMEType
                         (fst (fst (ParseMediaType (declaredContentType req))))
                       = true
                    /\ IsNotFound err = false))).
Proof.
  destruct (ParseMediaType (declaredContentType req))
    as [[mediaType params] err] eqn:Hparse. cbn [fst snd].
  split.
  - unfold ServeHTTP.
    destruct (String.eqb (Method req) "GET") eqn:E1.
    { apply String.eqb_eq in E1. intros Hcode. apply handleGet_code in Hcode.
      destruct Hcode as (e & Hget & Hcode). right. exists e. auto. }
    destruct (String.eqb (Method req) "HEAD") eqn:E2.
    { apply String.eqb_eq in E2. intros Hcode. apply handleGet_code in Hcode.
      destruct Hcode as (e & Hget & Hcode). right. exists e. auto. }
    destruct (String.eqb (Method req) "PUT") eqn:E3; [|discriminate].
    apply String.eqb_eq in E3.
    destruct (Body req) as [contentBytes|msg] eqn:Hbody.
    2:{ unfold serve, handlePut. rewrite Hbody. discriminate. }
    destruct (classic_rejected err mediaType) as [Hrej|[-> Hvalid]].
    { intros _. left. eauto. }
    put_cases h req w Hbody Hparse Hvalid; try discriminate.
    intros Hcode. right. exists err. split; [reflexivity|].
    split; [exact Hcode|]. right. right. eauto 10.
  - intros [(Hput & [contentBytes Hbody] & Hrej)
           |(e & Hget & Hcode & [Hm|[Hm|(Hput & [contentBytes Hbody] & -> & Hvalid & Hnf)]])].
    + rewrite (ServeHTTP_PUT _ _ _ Hput).
      now rewrite (handlePut_rejected h req w _ _ _ _ Hbody Hparse Hrej).
    + rewrite (ServeHTTP_GET _ _ _ Hm). apply handleGet_code. eauto.
    + rewrite (ServeHTTP_HEAD _ _ _ Hm). apply handleGet_code. eauto.
    + rewrite (ServeHTTP_PUT _ _ _ Hput).
      rewrite (handlePut_accepted h req w _ _ _ Hbody Hparse Hvalid).
      cbv zeta. rewrite Hget, Hnf. exact Hcode.
Qed.

(** X11.  On an object store that reads back what was written, the PUT that
    follows a PUT answered 201 for the same File finds that File, marked
    uploaded, and goes on to update it: it never creates a second one. *)
Theorem second_put_updates (h : contentHandler) (req req' : Request)
    (w w' : World S) (obj : FileContent) (contentBytes' : list Byte.byte)
    (mediaType' : string) (params' : gmap string string) :
  readsBack (objects w) ->
  ServeHTTP h req w = (w', ResponderObject StatusCreated obj) ->
  Body req' = inl contentBytes' ->
  ParseMediaType (declaredContentType req') = (mediaType', params', None) ->
  isValidMIMEType mediaType' = true ->
  exists file file' e rest,
    calls (fst (serve (handlePut h req') w'))
    = calls w' ++ CallGet (name h) (inl (FileObject file))
                  :: CallUpdate (name h) file' e :: rest
    /\ Uploaded (Status file) = true
    /\ file' = updatedFile file (buildContentURL h req')
                 (Z.of_nat (length contentBytes'))
                 (normalizedContentType mediaType' params')
    /\ Forall (fun c => isUpsert c = false) rest.
Proof.
  intros [Hcreate Hupdate] Hrun Hbody' Hparse' Hvalid'.
  assert (Hfile : exists file,
             store_Get (objects w') (ctx h) (name h) = inl (FileObject file)
             /\ Uploaded (Status file) = true).
  { revert Hrun. unfold ServeHTTP.
    destruct (String.eqb (Method req) "GET") eqn:E1.
    { rewrite handleGet_run. cbv zeta. intros [= _ Hresp].
      destruct (store_Get (objects w) (ctx h) (name h)) as [[file|]|e];
        try discriminate.
      destruct (entries w !! name h); discriminate. }
    destruct (String.eqb (Method req) "HEAD") eqn:E2.
    { rewrite handleGet_run. cbv zeta. intros [= _ Hresp].
      destruct (store_Get (objects w) (ctx h) (name h)) as [[file|]|e];
        try discriminate.
      destruct (entries w !! name h); discriminate. }
    destruct (String.eqb (Method req) "PUT") eqn:E3; [|discriminate].
    destruct (Body req) as [contentBytes|msg] eqn:Hbody.
    2:{ unfold serve, handlePut. rewrite Hbody. discriminate. }
    destruct (ParseMediaType (declaredContentType req))
      as [[mediaType params] err] eqn:Hparse.
    destruct (classic_rejected err mediaType) as [Hrej|[-> Hvalid]].
    { rewrite (handlePut_rejected h req w _ _ _ _ Hbody Hparse Hrej).
      discriminate. }
    put_cases h req w Hbody Hparse Hvalid; try discriminate.
    - intros [= <- _]. cbn [objects].
      destruct (Hupdate _ _ _ _ Hupd) as (g & Hg & _ & Hstatus).
      exists g. split; [exact Hg|]. now rewrite Hstatus.
    - intros [= <- _]. cbn [objects].
      destruct (Hcreate _ _ _ Hcre) as (g & Hg & _ & Hstatus).
      exists g. split; [exact Hg|]. now rewrite Hstatus. }
  destruct Hfile as (file & Hfile & Huploaded).
  put_cases h req' w' Hbody' Hparse' Hvalid'; try discriminate.
  - injection Hfile as <-. eexists _, _, _, _.
    split; [reflexivity|]. split; [exact Huploaded|]. split; [reflexivity|].
    constructor.
  - injection Hfile as <-. eexists _, _, _, _.
    split; [reflexivity|]. split; [exact Huploaded|]. split; [reflexivity|].
    repeat constructor.
Qed.

End MoreRuns.

(** ** The shape of an accepted media type *)

Lemma tokenChar_byte (c : ascii) :
  isTokenChar c = true ->
  (32 < byteOf c < 127)%nat /\ ~ In (byteOf c) tspecials.
Proof.
  unfold isTokenChar, isTSpecial. intros H.
  apply andb_true_iff in H. destruct H as [Hrange Hspecial].
  apply andb_true_iff in Hrange. destruct Hrange as [Hlo Hhi].
  apply Nat.ltb_lt in Hlo, Hhi. split; [lia|].
  intros Hin. apply negb_true_iff in Hspecial.
  assert (Hex : existsb (Nat.eqb (byteOf c)) tspecials = true).
  { apply existsb_exists. exists (byteOf c). split; [exact Hin|].
    apply Nat.eqb_refl. }
  congruence.
Qed.

Lemma eqb_byte (a c : ascii) :
  byteOf c <> byteOf a -> Ascii.eqb a c = false.
Proof.
  intros Hne. apply Ascii.eqb_neq. intros ->. now apply Hne.
Qed.

Lemma tokenChar_not (a c : ascii) :
  In (byteOf a) tspecials -> isTokenChar c = true -> Ascii.eqb a c = false.
Proof.
  intros Hin Hc. apply eqb_byte. intros Heq.
  apply tokenChar_byte in Hc. destruct Hc as [_ Hnot]. apply Hnot.
  now rewrite Heq.
Qed.

Lemma consumeToken_spec (v token rest : string) :
  consumeToken v = (token, rest) ->
  v = token +:+ rest
  /\ isToken token = true
  /\ match rest with
     | EmptyString => True
     | String c _ => isTokenChar c = false
     end.
Proof.
  revert token. induction v as [|c v IH]; intros token; cbn [consumeToken].
  - intros [= <- <-]. auto.
  - destruct (isTokenChar c) eqn:Hc.
    + destruct (consumeToken v) as [token' rest'] eqn:Hv.
      intros [= <- <-]. destruct (IH token' eq_refl) as (-> & Htoken & Hrest).
      rewrite append_cons. cbn [isToken]. rewrite Hc, Htoken. auto.
    + intros [= <- <-]. rewrite Hc. auto.
Qed.

Lemma consumeToken_token (token rest : string) :
  isToken token = true ->
  match rest with
  | EmptyString => True
  | String c _ => isTokenChar c = false
  end ->
  consumeToken (token +:+ rest) = (token, rest).
Proof.
  intros Htoken Hrest. induction token as [|c token IH].
  - change (EmptyString +:+ rest) with rest.
    destruct rest as [|c rest]; [reflexivity|].
    cbn [consumeToken]. now rewrite Hrest.
  - cbn [isToken] in Htoken. apply andb_true_iff in Htoken.
    destruct Htoken as [Hc Htoken]. rewrite append_cons.
    cbn [consumeToken]. now rewrite Hc, (IH Htoken).
Qed.

Lemma append_empty_r (s : string) : s +:+ EmptyString = s.
Proof.
  induction s as [|c s IH]; [reflexivity|]. now rewrite append_cons, IH.
Qed.

Lemma eqb_empty (s : string) : String.eqb s EmptyString = false -> s <> EmptyString.
Proof. intros E ->. discriminate. Qed.

Lemma not_empty_eqb (s : string) : s <> EmptyString -> String.eqb s EmptyString = false.
Proof. intros Hne. apply String.eqb_neq. exact Hne. Qed.

(** What passes [checkMediaTypeDisposition]: a token, or two tokens around a
    slash. *)
Lemma checkMediaTypeDisposition_shape (s : string) :
  checkMediaTypeDisposition s = None <->
  (s <> EmptyString /\ isToken s = true)
  \/ exists typ subtype,
       s = typ +:+ "/" +:+ subtype
       /\ typ <> EmptyString /\ isToken typ = true
       /\ subtype <> EmptyString /\ isToken subtype = true.
Proof.
  unfold checkMediaTypeDisposition. split.
  - destruct (consumeToken s) as [typ rest] eqn:Htyp.
    apply consumeToken_spec in Htyp. destruct Htyp as (-> & Htoken & _).
    destruct (String.eqb typ EmptyString) eqn:Ety; [discriminate|].
    apply eqb_empty in Ety.
    destruct (String.eqb rest EmptyString) eqn:Erest.
    { apply String.eqb_eq in Erest. subst rest. rewrite append_empty_r.
      intros _. left. auto. }
    destruct (HasPrefix rest "/") eqn:Hslash; [|discriminate]. cbn [negb].
    apply HasPrefix_byte in Hslash. destruct Hslash as (rest' & -> & ->).
    destruct (consumeToken rest') as [subtype rest2] eqn:Hsub.
    apply consumeToken_spec in Hsub. destruct Hsub as (-> & Hsubtoken & _).
    destruct (String.eqb subtype EmptyString) eqn:Esub; [discriminate|].
    apply eqb_empty in Esub.
    destruct (String.eqb rest2 EmptyString) eqn:Erest2; [|discriminate].
    apply String.eqb_eq in Erest2. subst rest2. rewrite append_empty_r.
    intros _. right. exists typ, subtype. auto.
  - intros [[Hne Htoken]|(typ & subtype & -> & Hne & Htoken & Hne' & Htoken')].
    + rewrite <- (append_empty_r s) at 1.
      rewrite (consumeToken_token s EmptyString Htoken I).
      now rewrite (not_empty_eqb _ Hne).
    + rewrite (consumeToken_token typ ("/" +:+ subtype) Htoken) by reflexivity.
      rewrite (not_empty_eqb _ Hne).
      change ("/" +:+ subtype) with (String "/" subtype).
      cbn [String.eqb HasPrefix dropBytes negb].
      rewrite Ascii.eqb_refl. cbn [andb negb].
      rewrite <- (append_empty_r subtype) at 1.
      rewrite (consumeToken_token subtype EmptyString Htoken' I).
      now rewrite (not_empty_eqb _ Hne'), String.eqb_refl.
Qed.

Lemma Cut_token_slash (typ subtype : string) :
  isToken typ = true ->
  Cut (typ +:+ "/" +:+ subtype) "/" = Some (typ, subtype).
Proof.
  intros Htoken. induction typ as [|c typ IH].
  - reflexivity.
  - cbn [isToken] in Htoken. apply andb_true_iff in Htoken.
    destruct Htoken as [Hc Htoken]. rewrite append_cons, Cut_cons_slash.
    rewrite (tokenChar_not "/" c) by (try exact Hc; cbn; tauto).
    now rewrite (IH Htoken).
Qed.

Lemma Cut_token_none (s : string) :
  isToken s = true -> Cut s "/" = None.
Proof.
  intros Htoken. induction s as [|c s IH]; [reflexivity|].
  cbn [isToken] in Htoken. apply andb_true_iff in Htoken.
  destruct Htoken as [Hc Htoken]. rewrite Cut_cons_slash.
  rewrite (tokenChar_not "/" c) by (try exact Hc; cbn; tauto).
  now rewrite (IH Htoken).
Qed.

Section Shape.
Context `{U : GoUnicode}.

Lemma ParseMediaType_checked (contentType mediaType : string)
    (params : gmap string string) :
  ParseMediaType contentType = (mediaType, params, None) ->
  checkMediaTypeDisposition mediaType = None.
Proof.
  unfold ParseMediaType. cbv zeta.
  destruct (checkMediaTypeDisposition _) eqn:Hcheck; [discriminate|].
  destruct (parseParams _ _ _ _ _) as [[ps cont]|[mt err]]; [|discriminate].
  now intros [= <- _].
Qed.

(** X12.  A media type that [mime.ParseMediaType] returns and the allow-list
    accepts is an allowed category, a slash, and a subtype that is a
    non-empty RFC 2045 token: no space, no control or non-ASCII byte, no
    second slash, no tspecial in it. *)
Theorem accepted_media_type_shape (contentType mediaType : string)
    (params : gmap string string) :
  ParseMediaType contentType = (mediaType, params, None) ->
  isValidMIMEType mediaType = true ->
  exists topLevel subType,
    mediaType = topLevel +:+ "/" +:+ subType
    /\ In topLevel allowedCategories
    /\ subType <> EmptyString
    /\ isToken subType = true.
Proof.
  intros Hparse Hvalid. apply ParseMediaType_checked in Hparse.
  apply checkMediaTypeDisposition_shape in Hparse.
  unfold isValidMIMEType in Hvalid. rewrite SplitN_slash_2 in Hvalid.
  destruct Hparse as [[_ Htoken]|(typ & subtype & -> & _ & Htyp & Hne & Hsub)].
  - rewrite (Cut_token_none _ Htoken) in Hvalid. discriminate.
  - rewrite (Cut_token_slash _ _ Htyp) in Hvalid.
    exists typ, subtype. split; [reflexivity|].
    destruct (default false (allowedMIMETypes !! typ)) eqn:Hallowed;
      [|discriminate].
    split; [now apply allowed_lookup|]. auto.
Qed.

End Shape.

(** ** The stored content type, sent back as a Content-Type *)

Lemma isSpace2_ascii (a b : ascii) : (byteOf a < 128)%nat -> isSpace2 a b = false.
Proof.
  intros Ha. unfold isSpace2.
  replace (byteOf a =? 194)%nat with false; [reflexivity|].
  symmetry. apply Nat.eqb_neq. lia.
Qed.

Lemma isSpace3_ascii (a b c : ascii) :
  (byteOf a < 128)%nat -> isSpace3 a b c = false.
Proof.
  intros Ha. unfold isSpace3.
  replace (byteOf a =? 225)%nat with false by (symmetry; apply Nat.eqb_neq; lia).
  replace (byteOf a =? 226)%nat with false by (symmetry; apply Nat.eqb_neq; lia).
  replace (byteOf a =? 227)%nat with false by (symmetry; apply Nat.eqb_neq; lia).
  reflexivity.
Qed.

Lemma isSpace2_last_ascii (a b : ascii) :
  (byteOf b < 128)%nat -> isSpace2 a b = false.
Proof.
  intros Hb. unfold isSpace2.
  replace (byteOf b =? 133)%nat with false by (symmetry; apply Nat.eqb_neq; lia).
  replace (byteOf b =? 160)%nat with false by (symmetry; apply Nat.eqb_neq; lia).
  apply andb_false_r.
Qed.

Lemma isSpace3_last_ascii (a b c : ascii) :
  (byteOf c < 128)%nat -> isSpace3 a b c = false.
Proof.
  intros Hc. unfold isSpace3.
  replace (byteOf c =? 128)%nat with false by (symmetry; apply Nat.eqb_neq; lia).
  replace (128 <=? byteOf c)%nat with false by (symmetry; apply Nat.leb_gt; lia).
  replace (byteOf c =? 168)%nat with false by (symmetry; apply Nat.eqb_neq; lia).
  replace (byteOf c =? 169)%nat with false by (symmetry; apply Nat.eqb_neq; lia).
  replace (byteOf c =? 175)%nat with false by (symmetry; apply Nat.eqb_neq; lia).
  replace (byteOf c =? 159)%nat with false by (symmetry; apply Nat.eqb_neq; lia).
  cbn [andb orb]. now rewrite !andb_false_r.
Qed.

Lemma TrimLeftSpace_first (c : ascii) (s : string) :
  isAsciiSpace c = false -> (byteOf c < 128)%nat ->
  TrimLeftSpace (String c s) = String c s.
Proof.
  intros Hspace Hc. cbn [TrimLeftSpace]. rewrite Hspace.
  destruct s as [|b s2]; [reflexivity|]. rewrite (isSpace2_ascii _ _ Hc).
  destruct s2 as [|d s3]; [reflexivity|]. now rewrite (isSpace3_ascii _ _ _ Hc).
Qed.

Lemma trimLeftSpaceRev_first (c : ascii) (s : string) :
  isAsciiSpace c = false -> (byteOf c < 128)%nat ->
  trimLeftSpaceRev (String c s) = String c s.
Proof.
  intros Hspace Hc. cbn [trimLeftSpaceRev]. rewrite Hspace.
  destruct s as [|b s2]; [reflexivity|]. rewrite (isSpace2_last_ascii _ _ Hc).
  destruct s2 as [|d s3]; [reflexivity|].
  now rewrite (isSpace3_last_ascii _ _ _ Hc).
Qed.

Lemma rev_app_app (a b c : string) :
  String.rev_app (a +:+ b) c = String.rev_app b (String.rev_app a c).
Proof.
  revert c. induction a as [|x a IH]; intros c; [reflexivity|].
  rewrite append_cons. cbn [String.rev_app]. apply IH.
Qed.

Lemma rev_app_rev_app (a b c : string) :
  String.rev_app (String.rev_app a b) c = String.rev_app b (a +:+ c).
Proof.
  revert b c. induction a as [|x a IH]; intros b c; [reflexivity|].
  cbn [String.rev_app]. rewrite IH. cbn [String.rev_app].
  now rewrite append_cons.
Qed.

Lemma rev_last (s : string) (c : ascii) :
  String.rev (s +:+ String c EmptyString) = String c (String.rev s).
Proof. unfold String.rev. now rewrite rev_app_app. Qed.

Lemma rev_rev (s : string) : String.rev (String.rev s) = s.
Proof.
  unfold String.rev. rewrite rev_app_rev_app. cbn [String.rev_app].
  apply append_empty_r.
Qed.

Lemma tokenChar_plain (c : ascii) :
  isTokenChar c = true -> isAsciiSpace c = false /\ (byteOf c < 128)%nat.
Proof.
  intros Hc. apply tokenChar_byte in Hc. destruct Hc as [Hrange _].
  split; [|lia]. unfold isAsciiSpace.
  replace (byteOf c <=? 13)%nat with false by (symmetry; apply Nat.leb_gt; lia).
  replace (byteOf c =? 32)%nat with false by (symmetry; apply Nat.eqb_neq; lia).
  now rewrite andb_false_r.
Qed.

Lemma token_last (s : string) :
  s <> EmptyString -> isToken s = true ->
  exists init c, s = init +:+ String c EmptyString /\ isTokenChar c = true.
Proof.
  induction s as [|c s IH]; [contradiction|]. intros _ Htoken.
  cbn [isToken] in Htoken. apply andb_true_iff in Htoken.
  destruct Htoken as [Hc Htoken]. destruct s as [|d s].
  - exists EmptyString, c. auto.
  - destruct (IH ltac:(discriminate) Htoken) as (init & e & Heq & He).
    exists (String c init), e. rewrite append_cons, <- Heq. auto.
Qed.

Lemma TrimSpace_between (c : ascii) (s : string) (e : ascii) :
  isTokenChar c = true -> isTokenChar e = true ->
  TrimSpace (String c s +:+ String e EmptyString)
  = String c s +:+ String e EmptyString.
Proof.
  intros Hc He. apply tokenChar_plain in Hc, He.
  destruct Hc as [Hc Hc'], He as [He He'].
  unfold TrimSpace, TrimRightSpace. rewrite append_cons.
  rewrite (TrimLeftSpace_first _ _ Hc Hc'), <- append_cons.
  rewrite rev_last, (trimLeftSpaceRev_first _ _ He He'), <- rev_last.
  apply rev_rev.
Qed.

Lemma media_type_trimmed (typ subtype : string) :
  typ <> EmptyString -> isToken typ = true ->
  subtype <> EmptyString -> isToken subtype = true ->
  TrimSpace (typ +:+ "/" +:+ subtype) = typ +:+ "/" +:+ subtype.
Proof.
  intros Hne Htyp Hne' Hsub.
  destruct typ as [|c typ]; [contradiction|].
  cbn [isToken] in Htyp. apply andb_true_iff in Htyp. destruct Htyp as [Hc _].
  destruct (token_last _ Hne' Hsub) as (init & e & -> & He).
  assert (Heq : String c typ +:+ "/" +:+ init +:+ String e EmptyString
                = String c (typ +:+ "/" +:+ init) +:+ String e EmptyString)
    by (now rewrite !append_cons, !append_assoc).
  rewrite Heq. now apply TrimSpace_between.
Qed.

Lemma isASCII_app (a b : string) : isASCII (a +:+ b) = isASCII a && isASCII b.
Proof.
  induction a as [|c a IH]; [reflexivity|].
  rewrite append_cons. cbn [isASCII]. now rewrite IH, andb_assoc.
Qed.

Lemma isASCII_token (s : string) : isToken s = true -> isASCII s = true.
Proof.
  induction s as [|c s IH]; [reflexivity|]. cbn [isToken isASCII].
  intros H. apply andb_true_iff in H. destruct H as [Hc Hs].
  rewrite (IH Hs), andb_true_r. apply tokenChar_plain in Hc.
  unfold isRuneSelf. apply negb_true_iff, Nat.leb_gt. lia.
Qed.

Lemma hasByte_app (c : ascii) (a b : string) :
  hasByte c (a +:+ b) = hasByte c a || hasByte c b.
Proof.
  induction a as [|x a IH]; [reflexivity|].
  rewrite append_cons. cbn [hasByte]. now rewrite IH, orb_assoc.
Qed.

Lemma hasByte_token (c : ascii) (s : string) :
  In (byteOf c) tspecials -> isToken s = true -> hasByte c s = false.
Proof.
  intros Hc. induction s as [|x s IH]; [reflexivity|]. cbn [isToken hasByte].
  intros H. apply andb_true_iff in H. destruct H as [Hx Hs].
  now rewrite (tokenChar_not c x Hc Hx), (IH Hs).
Qed.

Lemma Cut_cons_byte (sep c : ascii) (s : string) :
  Cut (String c s) (String sep EmptyString) =
  if Ascii.eqb sep c then Some (EmptyString, s)
  else match Cut s (String sep EmptyString) with
       | Some (before, after) => Some (String c before, after)
       | None => None
       end.
Proof.
  cbn [Cut HasPrefix dropBytes String.length]. now rewrite andb_true_r.
Qed.

Lemma Cut_first (sep : ascii) (before after : string) :
  hasByte sep before = false ->
  Cut (before +:+ String sep after) (String sep EmptyString)
  = Some (before, after).
Proof.
  induction before as [|c before IH]; intros Hno.
  - change (EmptyString +:+ String sep after) with (String sep after).
    now rewrite Cut_cons_byte, Ascii.eqb_refl.
  - cbn [hasByte] in Hno. apply orb_false_iff in Hno.
    destruct Hno as [Hc Hno]. rewrite append_cons, Cut_cons_byte, Hc.
    now rewrite (IH Hno).
Qed.

Lemma Cut_absent (sep : ascii) (s : string) :
  hasByte sep s = false -> Cut s (String sep EmptyString) = None.
Proof.
  induction s as [|c s IH]; intros Hno; [reflexivity|].
  cbn [hasByte] in Hno. apply orb_false_iff in Hno. destruct Hno as [Hc Hno].
  now rewrite Cut_cons_byte, Hc, (IH Hno).
Qed.

Lemma dropBytes_app (a b : string) : dropBytes (String.length a) (a +:+ b) = b.
Proof.
  induction a as [|c a IH]; [now destruct b|].
  rewrite append_cons. cbn [String.length dropBytes]. exact IH.
Qed.

Lemma dropBytes_all (a : string) : dropBytes (String.length a) a = EmptyString.
Proof.
  rewrite <- (append_empty_r a) at 2. apply dropBytes_app.
Qed.

Lemma consumeValue_token (value : string) :
  value <> EmptyString -> isToken value = true ->
  consumeValue value = (value, EmptyString).
Proof.
  intros Hne Htoken. destruct value as [|c value]; [contradiction|].
  unfold consumeValue.
  assert (Hc : isTokenChar c = true).
  { cbn [isToken] in Htoken. now apply andb_true_iff in Htoken. }
  apply tokenChar_byte in Hc. destruct Hc as [_ Hnot].
  replace (byteOf c =? 34)%nat with false.
  - cbn [negb]. rewrite <- (append_empty_r (String c value)) at 1.
    now apply consumeToken_token.
  - symmetry. apply Nat.eqb_neq. intros Heq. apply Hnot. rewrite Heq.
    cbn. tauto.
Qed.

(** What holds of a string and of every tail of it holds of what the two
    trimming scans leave. *)
Lemma TrimLeftSpace_tail (P : string -> Prop) :
  (forall c s, P (String c s) -> P s) ->
  forall s, P s -> P (TrimLeftSpace s).
Proof.
  intros Htail s. remember (String.length s) as n eqn:Hn.
  assert (Hle : (String.length s <= n)%nat) by lia. clear Hn.
  revert s Hle. induction n as [|n IH]; intros s Hle Hs.
  - destruct s; [exact Hs|cbn [String.length] in Hle; lia].
  - destruct s as [|a s1]; [exact Hs|]. cbn [String.length] in Hle.
    assert (H1 : P (TrimLeftSpace s1)) by (apply IH; [lia|eauto]).
    destruct s1 as [|b s2].
    { cbn [TrimLeftSpace]. now destruct (isAsciiSpace a). }
    cbn [String.length] in Hle.
    assert (H2 : P (TrimLeftSpace s2)) by (apply IH; [lia|eauto]).
    destruct s2 as [|c s3].
    { change (TrimLeftSpace (String a (String b EmptyString)))
        with (if isAsciiSpace a then TrimLeftSpace (String b EmptyString)
              else if isSpace2 a b then TrimLeftSpace EmptyString
                   else String a (String b EmptyString)).
      destruct (isAsciiSpace a); [exact H1|]. now destruct (isSpace2 a b). }
    cbn [String.length] in Hle.
    assert (H3 : P (TrimLeftSpace s3)) by (apply IH; [lia|eauto]).
    change (TrimLeftSpace (String a (String b (String c s3))))
      with (if isAsciiSpace a then TrimLeftSpace (String b (String c s3))
            else if isSpace2 a b then TrimLeftSpace (String c s3)
                 else if isSpace3 a b c then TrimLeftSpace s3
                      else String a (String b (String c s3))).
    destruct (isAsciiSpace a); [exact H1|].
    destruct (isSpace2 a b); [exact H2|]. now destruct (isSpace3 a b c).
Qed.

Lemma trimLeftSpaceRev_tail (P : string -> Prop) :
  (forall c s, P (String c s) -> P s) ->
  forall s, P s -> P (trimLeftSpaceRev s).
Proof.
  intros Htail s. remember (String.length s) as n eqn:Hn.
  assert (Hle : (String.length s <= n)%nat) by lia. clear Hn.
  revert s Hle. induction n as [|n IH]; intros s Hle Hs.
  - destruct s; [exact Hs|cbn [String.length] in Hle; lia].
  - destruct s as [|a s1]; [exact Hs|]. cbn [String.length] in Hle.
    assert (H1 : P (trimLeftSpaceRev s1)) by (apply IH; [lia|eauto]).
    destruct s1 as [|b s2].
    { cbn [trimLeftSpaceRev]. now destruct (isAsciiSpace a). }
    cbn [String.length] in Hle.
    assert (H2 : P (trimLeftSpaceRev s2)) by (apply IH; [lia|eauto]).
    destruct s2 as [|c s3].
    { change (trimLeftSpaceRev (String a (String b EmptyString)))
        with (if isAsciiSpace a then trimLeftSpaceRev (String b EmptyString)
              else if isSpace2 b a then trimLeftSpaceRev EmptyString
                   else String a (String b EmptyString)).
      destruct (isAsciiSpace a); [exact H1|]. now destruct (isSpace2 b a). }
    cbn [String.length] in Hle.
    assert (H3 : P (trimLeftSpaceRev s3)) by (apply IH; [lia|eauto]).
    change (trimLeftSpaceRev (String a (String b (String c s3))))
      with (if isAsciiSpace a then trimLeftSpaceRev (String b (String c s3))
            else if isSpace2 b a then trimLeftSpaceRev (String c s3)
                 else if isSpace3 c b a then trimLeftSpaceRev s3
                      else String a (String b (String c s3))).
    destruct (isAsciiSpace a); [exact H1|].
    destruct (isSpace2 b a); [exact H2|]. now destruct (isSpace3 c b a).
Qed.

Lemma lowerByte_idem (c : ascii) : lowerByte (lowerByte c) = lowerByte c.
Proof. destruct c as [[] [] [] [] [] [] [] []]; vm_compute; reflexivity. Qed.

Lemma mapBytes_lower_idem (s : string) :
  mapBytes lowerByte (mapBytes lowerByte s) = mapBytes lowerByte s.
Proof.
  induction s as [|c s IH]; [reflexivity|]. cbn [mapBytes].
  now rewrite lowerByte_idem, IH.
Qed.

Lemma mapBytes_rev_app (f : ascii -> ascii) (a b : string) :
  mapBytes f (String.rev_app a b) = String.rev_app (mapBytes f a) (mapBytes f b).
Proof.
  revert b. induction a as [|c a IH]; intros b; [reflexivity|].
  cbn [String.rev_app mapBytes]. now rewrite IH.
Qed.

Lemma lower_rev (s : string) :
  mapBytes lowerByte s = s -> mapBytes lowerByte (String.rev s) = String.rev s.
Proof.
  intros Hs. unfold String.rev. now rewrite mapBytes_rev_app, Hs.
Qed.

Lemma lower_tail (c : ascii) (s : string) :
  mapBytes lowerByte (String c s) = String c s -> mapBytes lowerByte s = s.
Proof. cbn [mapBytes]. now intros [= _ ->]. Qed.

Lemma lower_TrimSpace (s : string) :
  mapBytes lowerByte s = s -> mapBytes lowerByte (TrimSpace s) = TrimSpace s.
Proof.
  intros Hs. unfold TrimSpace, TrimRightSpace.
  apply lower_rev.
  apply (trimLeftSpaceRev_tail (fun s => mapBytes lowerByte s = s) lower_tail).
  apply lower_rev.
  now apply (TrimLeftSpace_tail (fun s => mapBytes lowerByte s = s) lower_tail).
Qed.

Lemma Cut_byte_sound (sep : ascii) (s before after : string) :
  Cut s (String sep EmptyString) = Some (before, after) ->
  s = before +:+ String sep after.
Proof.
  revert before. induction s as [|c s IH]; intros before; [discriminate|].
  rewrite Cut_cons_byte. destruct (Ascii.eqb sep c) eqn:E.
  - apply Ascii.eqb_eq in E. subst c. now intros [= <- <-].
  - destruct (Cut s (String sep EmptyString)) as [[b a]|]; [|discriminate].
    intros [= <- <-]. rewrite append_cons. f_equal. now apply IH.
Qed.

(** The side conditions of [TrimLeftSpace_first] on a given byte. *)
Ltac plain_byte := first [reflexivity | apply Nat.ltb_lt; reflexivity].

Section RoundTrip.
Context `{U : GoUnicode}.

Lemma consumeMediaParam_charset (value : string) :
  value <> EmptyString -> isToken value = true ->
  consumeMediaParam ("; charset=" +:+ value) = ("charset", value, EmptyString).
Proof.
  intros Hne Htoken. unfold consumeMediaParam. cbv zeta.
  change ("; charset=" +:+ value)
    with (String ";" (String " " ("charset" +:+ String "=" value))).
  rewrite (TrimLeftSpace_first ";") by plain_byte.
  cbn [HasPrefix negb dropBytes]. rewrite Ascii.eqb_refl. cbn [andb negb].
  assert (Hsp : TrimLeftSpace (String " " ("charset" +:+ String "=" value))
                = "charset" +:+ String "=" value).
  { change (TrimLeftSpace (String " " ("charset" +:+ String "=" value)))
      with (TrimLeftSpace ("charset" +:+ String "=" value)).
    change ("charset" +:+ String "=" value)
      with (String "c" ("harset" +:+ String "=" value)).
    apply TrimLeftSpace_first; plain_byte. }
  rewrite Hsp.
  rewrite (consumeToken_token "charset" (String "=" value)) by reflexivity.
  change (ToLower "charset") with "charset".
  change (String.eqb "charset" EmptyString) with false. cbv iota.
  rewrite (TrimLeftSpace_first "=") by plain_byte.
  cbn [HasPrefix negb dropBytes]. rewrite Ascii.eqb_refl. cbn [andb negb].
  destruct value as [|c value]; [contradiction|].
  assert (Hc : isTokenChar c = true).
  { cbn [isToken] in Htoken. now apply andb_true_iff in Htoken. }
  destruct (tokenChar_plain _ Hc) as [Hspace Hascii].
  rewrite (TrimLeftSpace_first c value Hspace Hascii).
  rewrite (consumeValue_token (String c value) Hne Htoken).
  reflexivity.
Qed.

Lemma parseParams_charset (fuel : nat) (mediatype value : string) :
  value <> EmptyString -> isToken value = true ->
  parseParams (S fuel) mediatype ("; charset=" +:+ value) ∅ ∅
  = inl ({["charset" := value]}, ∅).
Proof.
  intros Hne Htoken. cbn [parseParams].
  change ("; charset=" +:+ value)
    with (String ";" (String " " ("charset" +:+ String "=" value))).
  change (String.eqb (String ";" (String " " ("charset" +:+ String "=" value)))
            EmptyString) with false. cbv iota.
  rewrite (TrimLeftSpace_first ";") by plain_byte.
  change (String.eqb (String ";" (String " " ("charset" +:+ String "=" value)))
            EmptyString) with false. cbv iota.
  change (String ";" (String " " ("charset" +:+ String "=" value)))
    with ("; charset=" +:+ value).
  rewrite (consumeMediaParam_charset value Hne Htoken).
  change (String.eqb "charset" EmptyString) with false. cbv iota.
  change (Cut "charset" "*") with (@None (string * string)). cbv iota.
  rewrite lookup_empty.
  destruct fuel as [|fuel]; reflexivity.
Qed.

(** The media type parsed from an ASCII header is in lower case. *)
Lemma parsed_media_type_lower (contentType mediaType : string)
    (params : gmap string string) :
  isASCII contentType = true ->
  ParseMediaType contentType = (mediaType, params, None) ->
  mapBytes lowerByte mediaType = mediaType.
Proof.
  intros Hascii. unfold ParseMediaType. cbv zeta.
  set (base := match Cut contentType ";" with
               | Some (before, _) => before
               | None => contentType
               end).
  assert (Hbase : isASCII base = true).
  { unfold base. destruct (Cut contentType ";") as [[before after]|] eqn:Hcut;
      [|exact Hascii].
    apply Cut_byte_sound in Hcut. rewrite Hcut, isASCII_app in Hascii.
    now apply andb_true_iff in Hascii. }
  destruct (checkMediaTypeDisposition _); [discriminate|].
  destruct (parseParams _ _ _ _ _) as [[ps cont]|[mt err]]; [|discriminate].
  intros [= <- _]. unfold ToLower. rewrite Hbase.
  apply lower_TrimSpace, mapBytes_lower_idem.
Qed.

Lemma ParseMediaType_media_type (mediaType rest : string) :
  checkMediaTypeDisposition mediaType = None ->
  isValidMIMEType mediaType = true ->
  mapBytes lowerByte mediaType = mediaType ->
  (rest = EmptyString \/ exists after, rest = String ";" after) ->
  ParseMediaType (mediaType +:+ rest)
  = match parseParams (String.length rest) mediaType rest ∅ ∅ with
    | inr (mt, err) => (mt, ∅, Some err)
    | inl (params, continuation) =>
        (mediaType, map_fold stitchOne params continuation, None)
    end.
Proof.
  intros Hcheck Hvalid Hlower Hrest.
  pose proof Hcheck as Hshape. apply checkMediaTypeDisposition_shape in Hshape.
  unfold isValidMIMEType in Hvalid. rewrite SplitN_slash_2 in Hvalid.
  destruct Hshape as [[_ Htoken]|(typ & subtype & -> & Hne & Htyp & Hne' & Hsub)].
  { rewrite (Cut_token_none _ Htoken) in Hvalid. discriminate. }
  clear Hvalid.
  set (mediaType := typ +:+ "/" +:+ subtype) in *.
  assert (Hsemi : hasByte ";" mediaType = false).
  { unfold mediaType. rewrite !hasByte_app.
    rewrite (hasByte_token ";" typ), (hasByte_token ";" subtype);
      try assumption; try reflexivity; cbn; tauto. }
  assert (Hascii : isASCII mediaType = true).
  { unfold mediaType. rewrite !isASCII_app.
    now rewrite (isASCII_token _ Htyp), (isASCII_token _ Hsub). }
  assert (Hbase : match Cut (mediaType +:+ rest) ";" with
                  | Some (before, _) => before
                  | None => mediaType +:+ rest
                  end = mediaType).
  { destruct Hrest as [->|[after ->]].
    - rewrite append_empty_r. now rewrite (Cut_absent _ _ Hsemi).
    - now rewrite (Cut_first _ _ _ Hsemi). }
  unfold ParseMediaType. cbv zeta. rewrite Hbase.
  unfold ToLower. rewrite Hascii, Hlower.
  pose proof (media_type_trimmed _ _ Hne Htyp Hne' Hsub) as Htrim.
  fold mediaType in Htrim. rewrite !Htrim, Hcheck, dropBytes_app. reflexivity.
Qed.

(** X13.  The content type the server stores can be sent back as a
    Content-Type: when an ASCII header is accepted and its charset, if it has
    one, is a non-empty token, the normalized content type parses without
    error to the same media type and the same charset and to no other
    parameter, so that normalizing it again gives the same string. *)
Theorem content_type_round_trip (contentType mediaType : string)
    (params : gmap string string) :
  ParseMediaType contentType = (mediaType, params, None) ->
  isValidMIMEType mediaType = true ->
  isASCII contentType = true ->
  (forall charset,
     params !! "charset" = Some charset ->
     charset <> EmptyString /\ isToken charset = true) ->
  let stored := normalizedContentType mediaType params in
  let params' := match params !! "charset" with
                 | Some charset => {["charset" := charset]}
                 | None => ∅
                 end in
  ParseMediaType stored = (mediaType, params', None)
  /\ normalizedContentType mediaType params' = stored.
Proof.
  intros Hparse Hvalid Hascii Hcharset. cbv zeta.
  pose proof (parsed_media_type_lower _ _ _ Hascii Hparse) as Hlower.
  apply ParseMediaType_checked in Hparse.
  unfold normalizedContentType at 1 3.
  destruct (params !! "charset") as [charset|] eqn:Hlook.
  - destruct (Hcharset charset eq_refl) as [Hne Htoken]. split.
    + rewrite (ParseMediaType_media_type mediaType ("; charset=" +:+ charset)
                 Hparse Hvalid Hlower).
      * change (String.length ("; charset=" +:+ charset))
          with (S (String.length (" charset=" +:+ charset))).
        rewrite (parseParams_charset _ _ _ Hne Htoken).
        now rewrite map_fold_empty.
      * right. eexists. reflexivity.
    + unfold normalizedContentType. now rewrite lookup_singleton_eq.
  - split.
    + rewrite <- (append_empty_r mediaType) at 1.
      rewrite (ParseMediaType_media_type mediaType EmptyString
                 Hparse Hvalid Hlower).
      * cbn [String.length parseParams]. now rewrite map_fold_empty.
      * now left.
    + unfold normalizedContentType. now rewrite lookup_empty.
Qed.

End RoundTrip.

(** ** The kubectl plugin against the server *)

Section Plugin.
Context `{U : GoUnicode} {S : Type} `{OS : ObjectStore S}.


End Plugin.

(** ** The table convertor *)

Section Tables.
Variable swaggerDocName swaggerDocCreationTimestamp : string.
Variable timeSince : Z -> Z.
Variable humanDuration : Z -> string.

Lemma appendRows_map (rows : list TableRow) (items : list File) :
  appendRows timeSince humanDuration rows items
  = rows ++ map (fileToRow timeSince humanDuration) items.
Proof.
  unfold appendRows. revert rows.
  induction items as [|file items IH]; intros rows; cbn [fold_left map].
  - now rewrite app_nil_r.
  - now rewrite IH, <- app_assoc.
Qed.

(** X16.  The table has one row per File, in the order of the list (a single
    File gives one row, any other object none); every row carries its File
    and starts with its name, and its cells answer the column definitions one
    by one in number and in type. *)
Theorem table_rows (object : TableObject) :
  let table := ConvertToTable swaggerDocName swaggerDocCreationTimestamp
                 timeSince humanDuration object in
  map row_Object (Rows table)
  = match object with
    | ObjectFileList obj => Items obj
    | ObjectFile obj => [obj]
    | ObjectOther => []
    end
  /\ Forall
       (fun row =>
          head (Cells row) = Some (CellString (Name (ObjectMeta (row_Object row))))
          /\ map cellType (Cells row)
             = map column_Type (ColumnDefinitions table))
       (Rows table).
Proof.
  assert (Hrows : forall items,
             map row_Object (map (fileToRow timeSince humanDuration) items)
             = items).
  { intros items. rewrite map_map. cbn [row_Object fileToRow].
    apply map_id. }
  assert (Hcells : forall items columns,
             columns = fileColumns swaggerDocName swaggerDocCreationTimestamp ->
             Forall
               (fun row =>
                  head (Cells row)
                  = Some (CellString (Name (ObjectMeta (row_Object row))))
                  /\ map cellType (Cells row) = map column_Type columns)
               (map (fileToRow timeSince humanDuration) items)).
  { intros items columns ->. apply Forall_forall. intros row Hin.
    apply list_elem_of_In, in_map_iff in Hin. destruct Hin as (file & <- & _).
    split; reflexivity. }
  destruct object as [obj|obj|]; cbv zeta;
    cbn [ConvertToTable Rows ColumnDefinitions].
  - rewrite appendRows_map. cbn [app]. split; [apply Hrows|now apply Hcells].
  - cbn [app]. split; [reflexivity|]. now apply (Hcells [obj]).
  - split; [reflexivity|constructor].
Qed.

End Tables.

(** ** The version mapping *)

Lemma wrapUint_small (z : Z) : 0 <= z < 2 ^ 64 -> wrapUint z = z.
Proof. intros Hz. unfold wrapUint. now apply Z.mod_small. Qed.

Lemma wrapInt_small (z : Z) : - 2 ^ 63 <= z < 2 ^ 63 -> wrapInt z = z.
Proof.
  intros Hz. unfold wrapInt. rewrite Z.mod_small; lia.
Qed.

(** X17.  [VersionToKubeVersion] maps the minor versions of major 1 onto the
    Kubernetes minors ending at the binary version: 1.2 and everything after
    it to the binary version itself, 1.1 to one minor before it, 1.0 to two
    before it, never below minor 0; a version of another major maps to
    nothing. *)
Theorem version_mapping (kubeVer ver : KubeVersion) :
  0 <= Minor kubeVer < 2 ^ 62 ->
  0 <= Minor ver < 2 ^ 62 ->
  VersionToKubeVersion kubeVer ver
  = if Major ver =? 1
    then Some (MajorMinor (Major kubeVer)
                 (Z.max 0 (Z.min (Minor kubeVer)
                             (Minor kubeVer + Minor ver - 2))))
    else None.
Proof.
  intros Hk Hv. unfold VersionToKubeVersion.
  destruct (Major ver =? 1); [|reflexivity]. cbn [negb].
  assert (H62 : 2 ^ 62 = 4611686018427387904) by reflexivity.
  assert (H63 : 2 ^ 63 = 9223372036854775808) by reflexivity.
  assert (H64 : 2 ^ 64 = 18446744073709551616) by reflexivity.
  rewrite (wrapInt_small (Minor ver)) by lia.
  rewrite (wrapInt_small (Minor ver - 2)) by lia.
  unfold OffsetMinor, GreaterThan, MajorMinor. cbn [Major Minor].
  rewrite Z.ltb_irrefl, Z.eqb_refl. cbn [orb andb].
  destruct kubeVer as [major minor]. cbn [Major Minor] in *.
  destruct (0 <=? Minor ver - 2) eqn:Eoff.
  - apply Z.leb_le in Eoff.
    rewrite (wrapUint_small (Minor ver - 2)) by lia.
    rewrite (wrapUint_small (minor + (Minor ver - 2))) by lia.
    destruct (minor <? minor + (Minor ver - 2)) eqn:Egt.
    + apply Z.ltb_lt in Egt. do 2 f_equal. lia.
    + apply Z.ltb_ge in Egt. do 2 f_equal. lia.
  - apply Z.leb_gt in Eoff.
    rewrite (wrapInt_small (- (Minor ver - 2))) by lia.
    rewrite (wrapUint_small (- (Minor ver - 2))) by lia.
    destruct (- (Minor ver - 2) <? minor) eqn:Ediff.
    + apply Z.ltb_lt in Ediff.
      rewrite (wrapUint_small (minor - - (Minor ver - 2))) by lia.
      destruct (minor <? minor - - (Minor ver - 2)) eqn:Egt.
      * apply Z.ltb_lt in Egt. lia.
      * do 2 f_equal. lia.
    + apply Z.ltb_ge in Ediff.
      destruct (minor <? 0) eqn:Egt.
      * apply Z.ltb_lt in Egt. lia.
      * do 2 f_equal. lia.
Qed.

(** ** The file list of the web UI *)

Section FileMaps.
Import FilesList.

Lemma mapGet_mapSet_eq (key : string) (value : File) (m : list (string * File)) :
  mapGet key (mapSet key value m) = Some value.
Proof.
  induction m as [|[k v] m IH]; cbn [mapGet mapSet].
  - now rewrite String.eqb_refl.
  - destruct (String.eqb k key) eqn:E; cbn [mapGet]; rewrite E;
      [reflexivity|exact IH].
Qed.

Lemma mapGet_mapSet_ne (key key' : string) (value : File)
    (m : list (string * File)) :
  key' <> key -> mapGet key' (mapSet key value m) = mapGet key' m.
Proof.
  intros Hne. induction m as [|[k v] m IH]; cbn [mapGet mapSet].
  - destruct (String.eqb key key') eqn:E; [|reflexivity].
    apply String.eqb_eq in E. congruence.
  - destruct (String.eqb k key) eqn:E; cbn [mapGet].
    + apply String.eqb_eq in E. subst k.
      destruct (String.eqb key key') eqn:E'; [|reflexivity].
      apply String.eqb_eq in E'. congruence.
    + now rewrite IH.
Qed.

Lemma mapGet_absent (key : string) (m : list (string * File)) :
  ~ In key (map fst m) -> mapGet key m = None.
Proof.
  induction m as [|[k v] m IH]; cbn [mapGet map fst]; [reflexivity|].
  intros Hnot. destruct (String.eqb k key) eqn:E.
  - apply String.eqb_eq in E. exfalso. apply Hnot. now left.
  - apply IH. intros Hin. apply Hnot. now right.
Qed.

Lemma mapGet_present (key : string) (file : File) (m : list (string * File)) :
  NoDup (map fst m) -> In (key, file) m -> mapGet key m = Some file.
Proof.
  induction m as [|[k v] m IH]; cbn [mapGet map fst]; [intros _ []|].
  intros Hnd [Heq|Hin].
  - injection Heq as -> ->. now rewrite String.eqb_refl.
  - inversion Hnd as [|? ? Hnot Hnd']; subst. rewrite list_elem_of_In in Hnot.
    destruct (String.eqb k key) eqn:E.
    + apply String.eqb_eq in E. subst k. exfalso. apply Hnot.
      apply in_map_iff. exists (key, file). auto.
    + now apply IH.
Qed.

Lemma mapDelete_filter (key : string) (m : list (string * File)) :
  NoDup (map fst m) ->
  mapDelete key m = List.filter (fun kv => negb (String.eqb (fst kv) key)) m.
Proof.
  induction m as [|[k v] m IH]; cbn [mapDelete map fst List.filter];
    [reflexivity|].
  intros Hnd. inversion Hnd as [|? ? Hnot Hnd']; subst. rewrite list_elem_of_In in Hnot.
  destruct (String.eqb k key) eqn:E; cbn [negb].
  - apply String.eqb_eq in E. subst k.
    symmetry. apply forallb_filter_id. apply forallb_forall.
    intros [k' v'] Hin. cbn [fst].
    destruct (String.eqb k' key) eqn:E'; [|reflexivity].
    apply String.eqb_eq in E'. subst k'. exfalso. apply Hnot.
    apply in_map_iff. exists (key, v'). auto.
  - now rewrite IH.
Qed.

Lemma keys_mapSet_present (key : string) (value : File)
    (m : list (string * File)) :
  In key (map fst m) -> map fst (mapSet key value m) = map fst m.
Proof.
  induction m as [|[k v] m IH]; cbn [mapSet map fst]; [intros []|].
  intros Hin. destruct (String.eqb k key) eqn:E; [reflexivity|].
  cbn [map fst]. f_equal. apply IH. destruct Hin as [->|Hin]; [|exact Hin].
  now rewrite String.eqb_refl in E.
Qed.

Lemma mapSet_absent (key : string) (value : File) (m : list (string * File)) :
  ~ In key (map fst m) -> mapSet key value m = m ++ [(key, value)].
Proof.
  induction m as [|[k v] m IH]; cbn [mapSet map fst]; [reflexivity|].
  intros Hnot. destruct (String.eqb k key) eqn:E.
  - apply String.eqb_eq in E. exfalso. apply Hnot. now left.
  - cbn [app]. f_equal. apply IH. intros Hin. apply Hnot. now right.
Qed.

Lemma in_mapSet (key : string) (value : File) (m : list (string * File))
    (kv : string * File) :
  In kv (mapSet key value m) -> kv = (key, value) \/ In kv m.
Proof.
  induction m as [|[k v] m IH]; cbn [mapSet].
  - intros [<-|[]]. now left.
  - destruct (String.eqb k key) eqn:E.
    + apply String.eqb_eq in E. subst k. intros [<-|Hin]; [now left|].
      right. now right.
    + intros [<-|Hin]; [right; now left|].
      destruct (IH Hin); [now left|right; now right].
Qed.

Lemma wellKeyed_mapSet (file : File) (m : list (string * File)) :
  Name (ObjectMeta file) <> EmptyString ->
  wellKeyed m -> wellKeyed (mapSet (Name (ObjectMeta file)) file m).
Proof.
  intros Hname [Hnd Hkeys]. split.
  - destruct (in_dec string_dec (Name (ObjectMeta file)) (map fst m))
      as [Hin|Hnot].
    + now rewrite keys_mapSet_present.
    + rewrite (mapSet_absent _ _ _ Hnot), map_app. cbn [map fst].
      apply NoDup_app. split; [exact Hnd|]. split.
      * intros k Hk Hk'. apply list_elem_of_In in Hk.
        apply list_elem_of_singleton in Hk'. congruence.
      * apply NoDup_singleton.
  - intros key file' Hin. apply in_mapSet in Hin.
    destruct Hin as [[= -> ->]|Hin]; [auto|]. now apply Hkeys.
Qed.

Lemma wellKeyed_mapDelete (key : string) (m : list (string * File)) :
  wellKeyed m -> wellKeyed (mapDelete key m).
Proof.
  intros [Hnd Hkeys]. rewrite (mapDelete_filter _ _ Hnd). split.
  - clear Hkeys. induction m as [|[k v] m IH]; [constructor|].
    inversion Hnd as [|? ? Hnot Hnd']; subst.
  rewrite list_elem_of_In in Hnot.
    cbn [List.filter fst].
    destruct (negb (String.eqb k key)); [|now apply IH].
    cbn [map fst]. constructor; [|now apply IH].
    rewrite list_elem_of_In. intros Hin. apply Hnot. apply in_map_iff in Hin.
    destruct Hin as (kv & Hk & Hin). apply filter_In in Hin.
    apply in_map_iff. exists kv. tauto.
  - intros k f Hin. apply filter_In in Hin. now apply Hkeys.
Qed.

Lemma wellKeyed_nil : wellKeyed [].
Proof. split; [constructor|intros ? ? []]. Qed.

Lemma wellKeyed_initialFiles (items : list File) : wellKeyed (initialFiles items).
Proof.
  unfold initialFiles. generalize wellKeyed_nil.
  generalize (@nil (string * File)) as m. 
  induction items as [|file items IH]; intros m Hm; cbn [fold_left]; [exact Hm|].
  apply IH. destruct (String.eqb (Name (ObjectMeta file)) EmptyString) eqn:E;
    [exact Hm|].
  apply wellKeyed_mapSet; [|exact Hm]. intros Heq. rewrite Heq in E. discriminate.
Qed.

Lemma wellKeyed_updateFiles (watchEvent : WatchEvent)
    (m : list (string * File)) :
  fileName watchEvent <> EmptyString ->
  wellKeyed m -> wellKeyed (updateFiles watchEvent m).
Proof.
  intros Hname Hm. unfold updateFiles, fileName in *.
  destruct (String.eqb (type watchEvent) "ADDED"
            || String.eqb (type watchEvent) "MODIFIED").
  - destruct (object watchEvent) as [file|]; [|exact Hm].
    now apply wellKeyed_mapSet.
  - destruct (String.eqb (type watchEvent) "DELETED"); [|exact Hm].
    now apply wellKeyed_mapDelete.
Qed.

Lemma wellKeyed_shown (st : State) : shown st -> wellKeyed (files st).
Proof.
  induction 1 as [|items st _ _|st _ IH|watchEvent st _ IH|st _ IH];
    cbn [files]; try assumption.
  - apply wellKeyed_nil.
  - apply wellKeyed_initialFiles.
  - unfold onmessage.
    destruct (String.eqb (type watchEvent) "ERROR"); [exact IH|].
    destruct (String.eqb (type watchEvent) "BOOKMARK"); [exact IH|].
    destruct (String.eqb (fileName watchEvent) EmptyString) eqn:E; [exact IH|].
    cbn [files]. apply wellKeyed_updateFiles; [|exact IH].
    intros Heq. rewrite Heq in E. discriminate.
Qed.

Lemma wellKeyed_names (m : list (string * File)) :
  wellKeyed m ->
  map (fun file => Name (ObjectMeta file)) (filesList m) = map fst m.
Proof.
  intros [_ Hkeys]. unfold filesList. rewrite map_map.
  apply map_ext_in. intros [k f] Hin. cbn [fst snd]. now apply Hkeys.
Qed.

Lemma onmessage_named (watchEvent : WatchEvent) (st : State) :
  String.eqb (type watchEvent) "ERROR" = false ->
  String.eqb (type watchEvent) "BOOKMARK" = false ->
  fileName watchEvent <> EmptyString ->
  files (onmessage watchEvent st) = updateFiles watchEvent (files st).
Proof.
  intros E1 E2 Hname. unfold onmessage. rewrite E1, E2.
  destruct (String.eqb (fileName watchEvent) EmptyString) eqn:E; [|reflexivity].
  apply String.eqb_eq in E. contradiction.
Qed.

Lemma onmessage_set (watchEvent : WatchEvent) (st : State) (file : File) :
  object watchEvent = Some file ->
  Name (ObjectMeta file) <> EmptyString ->
  type watchEvent = "ADDED" \/ type watchEvent = "MODIFIED" ->
  files (onmessage watchEvent st)
  = mapSet (Name (ObjectMeta file)) file (files st).
Proof.
  intros Hobj Hname Htype.
  assert (Hfn : fileName watchEvent = Name (ObjectMeta file))
    by (unfold fileName; now rewrite Hobj).
  rewrite onmessage_named.
  - unfold updateFiles. rewrite Hfn, Hobj.
    destruct Htype as [->| ->]; reflexivity.
  - destruct Htype as [->| ->]; reflexivity.
  - destruct Htype as [->| ->]; reflexivity.
  - now rewrite Hfn.
Qed.

Lemma onmessage_delete (watchEvent : WatchEvent) (st : State) (file : File) :
  object watchEvent = Some file ->
  Name (ObjectMeta file) <> EmptyString ->
  type watchEvent = "DELETED" ->
  files (onmessage watchEvent st) = mapDelete (Name (ObjectMeta file)) (files st).
Proof.
  intros Hobj Hname Htype.
  assert (Hfn : fileName watchEvent = Name (ObjectMeta file))
    by (unfold fileName; now rewrite Hobj).
  rewrite onmessage_named.
  - unfold updateFiles. rewrite Hfn, Htype. reflexivity.
  - now rewrite Htype.
  - now rewrite Htype.
  - now rewrite Hfn.
Qed.

Lemma mapGet_mapDelete_ne (key key' : string) (m : list (string * File)) :
  key' <> key -> mapGet key' (mapDelete key m) = mapGet key' m.
Proof.
  intros Hne. induction m as [|[k v] m IH]; cbn [mapGet mapDelete];
    [reflexivity|].
  destruct (String.eqb k key) eqn:E; cbn [mapGet].
  - apply String.eqb_eq in E. subst k.
    destruct (String.eqb key key') eqn:E'; [|reflexivity].
    apply String.eqb_eq in E'. congruence.
  - now rewrite IH.
Qed.

Lemma mapGet_mapDelete_eq (key : string) (m : list (string * File)) :
  NoDup (map fst m) -> mapGet key (mapDelete key m) = None.
Proof.
  intros Hnd. apply mapGet_absent. rewrite (mapDelete_filter _ _ Hnd).
  intros Hin. apply in_map_iff in Hin. destruct Hin as ([k v] & Hk & Hin).
  apply filter_In in Hin. cbn [fst] in *. subst k.
  rewrite String.eqb_refl in Hin. now destruct Hin.
Qed.

Lemma mapGet_In (key : string) (file : File) (m : list (string * File)) :
  mapGet key m = Some file -> In key (map fst m).
Proof.
  induction m as [|[k v] m IH]; cbn [mapGet map fst]; [discriminate|].
  destruct (String.eqb k key) eqn:E.
  - apply String.eqb_eq in E. now left.
  - right. now apply IH.
Qed.

Lemma filesList_filter (key : string) (m : list (string * File)) :
  wellKeyed m ->
  filesList (List.filter (fun kv => negb (String.eqb (fst kv) key)) m)
  = List.filter (fun file => negb (String.eqb (Name (ObjectMeta file)) key))
      (filesList m).
Proof.
  intros [_ Hkeys]. unfold filesList.
  induction m as [|[k v] m IH]; [reflexivity|].
  cbn [List.filter map fst snd].
  destruct (Hkeys k v) as [_ Hname]; [now left|]. rewrite Hname.
  rewrite <- IH by (intros ? ? ?; apply Hkeys; now right).
  now destruct (negb (String.eqb k key)).
Qed.

(** X18.  Whatever the fetch and the watch deliver, the list the component
    shows never holds two files of one name, nor a file without a name, and
    every file shown is the one the map holds for its name. *)
Theorem shown_names_unique (st : State) :
  shown st ->
  NoDup (map (fun file => Name (ObjectMeta file)) (filesList (files st)))
  /\ forall file,
       In file (filesList (files st)) ->
       Name (ObjectMeta file) <> EmptyString
       /\ mapGet (Name (ObjectMeta file)) (files st) = Some file.
Proof.
  intros Hshown. pose proof (wellKeyed_shown st Hshown) as Hwk.
  rewrite (wellKeyed_names _ Hwk). destruct Hwk as [Hnd Hkeys].
  split; [exact Hnd|]. intros file Hin. unfold filesList in Hin.
  apply in_map_iff in Hin. destruct Hin as ([k f] & Hf & Hin).
  cbn [snd] in Hf. subst f. destruct (Hkeys k file Hin) as [Hne Hname].
  rewrite Hname. split; [exact Hne|]. now apply mapGet_present.
Qed.

(** X19.  A watch event that carries a named file acts on the map under that
    name only: after ADDED or MODIFIED the name maps to the file of the event,
    after DELETED it maps to nothing, and whatever the type of the event
    every other name maps to what it did. *)
Theorem watch_event_applies (watchEvent : WatchEvent) (st : State)
    (file : File) :
  shown st ->
  object watchEvent = Some file ->
  Name (ObjectMeta file) <> EmptyString ->
  (type watchEvent = "ADDED" \/ type watchEvent = "MODIFIED" ->
   mapGet (Name (ObjectMeta file)) (files (onmessage watchEvent st)) = Some file)
  /\ (type watchEvent = "DELETED" ->
      mapGet (Name (ObjectMeta file)) (files (onmessage watchEvent st)) = None)
  /\ (forall key,
        key <> Name (ObjectMeta file) ->
        mapGet key (files (onmessage watchEvent st)) = mapGet key (files st)).
Proof.
  intros Hshown Hobj Hname. destruct (wellKeyed_shown st Hshown) as [Hnd _].
  split; [|split].
  - intros Htype. rewrite (onmessage_set _ _ _ Hobj Hname Htype).
    apply mapGet_mapSet_eq.
  - intros Htype. rewrite (onmessage_delete _ _ _ Hobj Hname Htype).
    now apply mapGet_mapDelete_eq.
  - intros key Hne.
    assert (Hfn : fileName watchEvent = Name (ObjectMeta file))
      by (unfold fileName; now rewrite Hobj).
    unfold onmessage.
    destruct (String.eqb (type watchEvent) "ERROR"); [reflexivity|].
    destruct (String.eqb (type watchEvent) "BOOKMARK"); [reflexivity|].
    destruct (String.eqb (fileName watchEvent) EmptyString); [reflexivity|].
    cbn [files]. unfold updateFiles. rewrite Hfn, Hobj.
    destruct (String.eqb (type watchEvent) "ADDED"
              || String.eqb (type watchEvent) "MODIFIED").
    + now apply mapGet_mapSet_ne.
    + destruct (String.eqb (type watchEvent) "DELETED"); [|reflexivity].
      now apply mapGet_mapDelete_ne.
Qed.

(** X20.  The list keeps its order.  An ADDED or MODIFIED event for a name
    already shown leaves every name where it was; for a name not yet shown it
    puts the file at the end.  A DELETED event removes the files of that name
    and leaves the others in their order. *)
Theorem shown_order (watchEvent : WatchEvent) (st : State) (file : File) :
  shown st ->
  object watchEvent = Some file ->
  Name (ObjectMeta file) <> EmptyString ->
  let names (m : list (string * File)) :=
    map (fun file => Name (ObjectMeta file)) (filesList m) in
  (type watchEvent = "ADDED" \/ type watchEvent = "MODIFIED" ->
   match mapGet (Name (ObjectMeta file)) (files st) with
   | Some _ => names (files (onmessage watchEvent st)) = names (files st)
   | None => filesList (files (onmessage watchEvent st))
             = filesList (files st) ++ [file]
   end)
  /\ (type watchEvent = "DELETED" ->
      filesList (files (onmessage watchEvent st))
      = List.filter
          (fun shownFile =>
             negb (String.eqb (Name (ObjectMeta shownFile))
                     (Name (ObjectMeta file))))
          (filesList (files st))).
Proof.
  intros Hshown Hobj Hname names.
  pose proof (wellKeyed_shown st Hshown) as Hwk.
  pose proof (wellKeyed_shown _ (shown_message watchEvent st Hshown)) as Hwk'.
  split.
  - intros Htype.
    destruct (mapGet (Name (ObjectMeta file)) (files st)) as [old|] eqn:Hget.
    + unfold names. rewrite (wellKeyed_names _ Hwk), (wellKeyed_names _ Hwk').
      rewrite (onmessage_set _ _ _ Hobj Hname Htype).
      apply keys_mapSet_present. now apply mapGet_In in Hget.
    + rewrite (onmessage_set _ _ _ Hobj Hname Htype).
      rewrite mapSet_absent.
      * unfold filesList. now rewrite map_app.
      * intros Hin. apply in_map_iff in Hin.
        destruct Hin as ([k f] & Hk & Hin). cbn [fst] in Hk. subst k.
        rewrite (mapGet_present _ _ _ (proj1 Hwk) Hin) in Hget. discriminate.
  - intros Htype. rewrite (onmessage_delete _ _ _ Hobj Hname Htype).
    rewrite (mapDelete_filter _ _ (proj1 Hwk)). now apply filesList_filter.
Qed.

(** X21.  Only ADDED, MODIFIED and DELETED events that carry a named file
    change the map: ERROR and BOOKMARK events, events of any other type and
    events without a file name leave it as it was. *)
Theorem only_named_changes (watchEvent : WatchEvent) (st : State) :
  files (onmessage watchEvent st) <> files st ->
  In (type watchEvent) ["ADDED"; "MODIFIED"; "DELETED"]
  /\ exists file,
       object watchEvent = Some file /\ Name (ObjectMeta file) <> EmptyString.
Proof.
  unfold onmessage.
  destruct (String.eqb (type watchEvent) "ERROR"); [now intros []|].
  destruct (String.eqb (type watchEvent) "BOOKMARK"); [now intros []|].
  destruct (String.eqb (fileName watchEvent) EmptyString) eqn:Ename;
    [now intros []|].
  cbn [files]. unfold updateFiles, fileName in *.
  destruct (object watchEvent) as [file|]; [|discriminate].
  intros Hchanged. split.
  - destruct (String.eqb (type watchEvent) "ADDED") eqn:E1.
    { apply String.eqb_eq in E1. rewrite E1. now left. }
    destruct (String.eqb (type watchEvent) "MODIFIED") eqn:E2.
    { apply String.eqb_eq in E2. rewrite E2. right. now left. }
    destruct (String.eqb (type watchEvent) "DELETED") eqn:E3.
    { apply String.eqb_eq in E3. rewrite E3. right. right. now left. }
    now destruct Hchanged.
  - exists file. split; [reflexivity|]. intros Heq. rewrite Heq in Ename.
    discriminate.
Qed.

Lemma initialFiles_fold (name : string) (items : list File)
    (m : list (string * File)) :
  name <> EmptyString ->
  mapGet name
    (fold_left
       (fun m file =>
          if String.eqb (Name (ObjectMeta file)) EmptyString then m
          else mapSet (Name (ObjectMeta file)) file m) items m)
  = match last (List.filter
                  (fun file => String.eqb (Name (ObjectMeta file)) name) items)
    with
    | Some file => Some file
    | None => mapGet name m
    end.
Proof.
  intros Hname. revert m.
  induction items as [|file items IH]; intros m; cbn [fold_left List.filter];
    [reflexivity|].
  rewrite IH. destruct (String.eqb (Name (ObjectMeta file)) name) eqn:E.
  - apply String.eqb_eq in E. rewrite last_cons.
    destruct (last _); [reflexivity|].
    destruct (String.eqb (Name (ObjectMeta file)) EmptyString) eqn:E'.
    + apply String.eqb_eq in E'. congruence.
    + rewrite E. apply mapGet_mapSet_eq.
  - destruct (last _); [reflexivity|].
    destruct (String.eqb (Name (ObjectMeta file)) EmptyString); [reflexivity|].
    apply mapGet_mapSet_ne. intros Heq. rewrite Heq, String.eqb_refl in E.
    discriminate.
Qed.

(** X22.  The map built from the initial fetch holds, for every name, the
    last item of that name in the fetched list, and nothing under the empty
    name: items without a name are skipped. *)
Theorem initial_list_last_wins (items : list File) (name : string) :
  mapGet name (initialFiles items)
  = if String.eqb name EmptyString then None
    else last (List.filter
                 (fun file => String.eqb (Name (ObjectMeta file)) name) items).
Proof.
  destruct (String.eqb name EmptyString) eqn:E.
  - apply String.eqb_eq in E. subst name. apply mapGet_absent.
    intros Hin. apply in_map_iff in Hin. destruct Hin as ([k f] & Hk & Hin).
    cbn [fst] in Hk. subst k.
    destruct (proj2 (wellKeyed_initialFiles items) _ _ Hin) as [Hne _].
    now apply Hne.
  - unfold initialFiles. rewrite initialFiles_fold.
    + now destruct (last _).
    + intros Heq. rewrite Heq in E. discriminate.
Qed.

End FileMaps.

(** ** Runs on the reference store *)

Section MoreExamples.
Local Existing Instance asciiUnicode.

(** [head_is_get_without_body] in the world reached by one PUT. *)
Lemma head_is_get_without_body_witness :
  Method getRequest = "GET"
  /\ Method headRequest = "HEAD"
  /\ fst (ServeHTTP helloHandler headRequest uploadedWorld)
     = fst (ServeHTTP helloHandler getRequest uploadedWorld)
  /\ snd (ServeHTTP helloHandler headRequest uploadedWorld)
     = match snd (ServeHTTP helloHandler getRequest uploadedWorld) with
       | Written header statusCode _ => Written header statusCode []
       | resp => resp
       end.
Proof.
  split; [reflexivity|]. split; [reflexivity|].
  exact (head_is_get_without_body helloHandler getRequest headRequest
           uploadedWorld eq_refl eq_refl).
Defined.

(** [get_reads_only] for a HEAD in the world reached by one PUT. *)
Lemma get_reads_only_witness :
  (Method headRequest = "GET" \/ Method headRequest = "HEAD")
  /\ let (w', resp) := ServeHTTP helloHandler headRequest uploadedWorld in
     objects w' = objects uploadedWorld
     /\ entries w' = entries uploadedWorld
     /\ calls w' = calls uploadedWorld
                   ++ [CallGet (name helloHandler)
                         (store_Get (objects uploadedWorld) (ctx helloHandler)
                            (name helloHandler))].
Proof.
  assert (Hm : Method headRequest = "GET" \/ Method headRequest = "HEAD")
    by (right; reflexivity).
  split; [exact Hm|].
  exact (get_reads_only helloHandler headRequest uploadedWorld Hm).
Defined.

(** [get_answers] in the world reached by one PUT, and in a world whose File
    has no content yet. *)
Lemma get_answers_witness :
  Method getRequest = "GET"
  /\ (exists header,
        snd (ServeHTTP helloHandler getRequest uploadedWorld)
        = Written header StatusOK hi
        /\ Header_Get header "Content-Length" = "2"
        /\ Header_Get header "Content-Type" = "text/plain; charset=utf-8")
  /\ snd (ServeHTTP helloHandler getRequest labelledWorld)
     = ResponderError (NewNotFound (cdn_Resource "file") "hello").
Proof.
  split; [reflexivity|]. split.
  - destruct (get_answers helloHandler getRequest uploadedWorld eq_refl)
      as (_ & Hserved & _).
    edestruct Hserved as (header & Hresp & Hlen & Htype & _);
      [vm_compute; reflexivity|vm_compute; reflexivity|].
    exists header. split; [exact Hresp|]. split; [exact Hlen|exact Htype].
  - destruct (get_answers helloHandler getRequest labelledWorld eq_refl)
      as (_ & _ & Hmissing & _).
    exact (proj1 (Hmissing labelledFile eq_refl eq_refl)).
Defined.

(** [put_without_content_type] for a PUT that carries no header at all. *)
Lemma put_without_content_type_witness :
  Body barePut = inl hi
  /\ Header_Get (Header barePut) "Content-Type" = EmptyString
  /\ serve (handlePut helloHandler barePut) emptyWorld
     = serve (upsert helloHandler barePut 2 "application/octet-stream" ;;;
              commit helloHandler hi 2 "application/octet-stream") emptyWorld.
Proof.
  split; [reflexivity|]. split; [reflexivity|].
  exact (put_without_content_type helloHandler barePut emptyWorld hi
           eq_refl eq_refl).
Defined.

(** [created_response_is_stored] for the first PUT on the empty store. *)
Lemma created_response_is_stored_witness :
  ServeHTTP helloHandler charsetPut emptyWorld
  = (uploadedWorld,
     ResponderObject StatusCreated
       {| FileContent_TypeMeta := zeroTypeMeta;
          FileContent_Status :=
            uploadStatus helloHandler 2 "text/plain; charset=utf-8" |})
  /\ exists contentBytes,
       Method charsetPut = "PUT"
       /\ Body charsetPut = inl contentBytes
       /\ StatusCreated = StatusCreated
       /\ entries uploadedWorld !! name helloHandler
          = Some {| data := contentBytes;
                    status := uploadStatus helloHandler 2
                                "text/plain; charset=utf-8" |}.
Proof.
  assert (Hrun : ServeHTTP helloHandler charsetPut emptyWorld
                 = (uploadedWorld,
                    ResponderObject StatusCreated
                      {| FileContent_TypeMeta := zeroTypeMeta;
                         FileContent_Status :=
                           uploadStatus helloHandler 2
                             "text/plain; charset=utf-8" |}))
    by (vm_compute; reflexivity).
  split; [exact Hrun|].
  exact (created_response_is_stored helloHandler charsetPut emptyWorld
           uploadedWorld _ _ Hrun).
Defined.

(** [other_entries_untouched]: a PUT for logo leaves the entry of hello. *)
Lemma other_entries_untouched_witness :
  "hello" <> name logoHandler
  /\ entries (fst (ServeHTTP logoHandler plainPut uploadedWorld)) !! "hello"
     = entries uploadedWorld !! "hello".
Proof.
  assert (Hne : "hello" <> name logoHandler) by discriminate.
  split; [exact Hne|].
  exact (other_entries_untouched logoHandler plainPut uploadedWorld "hello" Hne).
Defined.

(** [content_is_never_removed]: a second PUT, a PUT for another name and a
    DELETE leave hello with content. *)
Lemma content_is_never_removed_witness :
  is_Some (entries uploadedWorld !! "hello")
  /\ is_Some
       (entries
          (serveAll [(helloHandler, plainPut); (logoHandler, charsetPut);
                     (helloHandler, deleteRequest)] uploadedWorld) !! "hello").
Proof.
  assert (Hsome : is_Some (entries uploadedWorld !! "hello"))
    by (eexists; vm_compute; reflexivity).
  split; [exact Hsome|].
  exact (content_is_never_removed
           [(helloHandler, plainPut); (logoHandler, charsetPut);
            (helloHandler, deleteRequest)] uploadedWorld "hello" Hsome).
Defined.

(** [content_keyed_by_name_alone]: hello is uploaded in the namespace default,
    where there was no File, and is then served in the namespace other, whose
    File of that name never had an upload. *)
Lemma content_keyed_by_name_alone_witness :
  ServeHTTP helloHandler plainPut otherWorld
  = (otherUploadedWorld,
     ResponderObject StatusCreated
       {| FileContent_TypeMeta := zeroTypeMeta;
          FileContent_Status := uploadStatus helloHandler 2 "text/plain" |})
  /\ Body plainPut = inl hi
  /\ Method getRequest = "GET"
  /\ name otherHandler = name helloHandler
  /\ store_Get (objects otherUploadedWorld) (ctx otherHandler) (name otherHandler)
     = inl (FileObject labelledFile)
  /\ exists header,
       snd (ServeHTTP otherHandler getRequest otherUploadedWorld)
       = Written header StatusOK hi.
Proof.
  assert (Hrun : ServeHTTP helloHandler plainPut otherWorld
                 = (otherUploadedWorld,
                    ResponderObject StatusCreated
                      {| FileContent_TypeMeta := zeroTypeMeta;
                         FileContent_Status :=
                           uploadStatus helloHandler 2 "text/plain" |}))
    by (vm_compute; reflexivity).
  assert (Hfile : store_Get (objects otherUploadedWorld) (ctx otherHandler)
                    (name otherHandler)
                  = inl (FileObject labelledFile))
    by (vm_compute; reflexivity).
  split; [exact Hrun|]. split; [reflexivity|]. split; [reflexivity|].
  split; [reflexivity|]. split; [exact Hfile|].
  exact (content_keyed_by_name_alone helloHandler otherHandler plainPut
           getRequest otherWorld otherUploadedWorld _ _ hi labelledFile Hrun
           eq_refl eq_refl eq_refl Hfile).
Defined.

(** [second_put_updates]: a second PUT for hello on the reference store. *)
Lemma second_put_updates_witness :
  readsBack (objects emptyWorld)
  /\ ServeHTTP helloHandler charsetPut emptyWorld
     = (uploadedWorld,
        ResponderObject StatusCreated
          {| FileContent_TypeMeta := zeroTypeMeta;
             FileContent_Status :=
               uploadStatus helloHandler 2 "text/plain; charset=utf-8" |})
  /\ Body plainPut = inl hi
  /\ ParseMediaType (declaredContentType plainPut) = ("text/plain", ∅, None)
  /\ isValidMIMEType "text/plain" = true
  /\ exists file file' e rest,
       calls (fst (serve (handlePut helloHandler plainPut) uploadedWorld))
       = calls uploadedWorld
         ++ CallGet (name helloHandler) (inl (FileObject file))
            :: CallUpdate (name helloHandler) file' e :: rest
       /\ Uploaded (Status file) = true
       /\ file' = updatedFile file (buildContentURL helloHandler plainPut)
                    (Z.of_nat (length hi))
                    (normalizedContentType "text/plain" ∅)
       /\ Forall (fun c => isUpsert c = false) rest.
Proof.
  assert (Hrb : readsBack (objects emptyWorld))
    by (apply MemStore_readsBack; reflexivity).
  assert (Hrun : ServeHTTP helloHandler charsetPut emptyWorld
                 = (uploadedWorld,
                    ResponderObject StatusCreated
                      {| FileContent_TypeMeta := zeroTypeMeta;
                         FileContent_Status :=
                           uploadStatus helloHandler 2
                             "text/plain; charset=utf-8" |}))
    by (vm_compute; reflexivity).
  assert (Hv : isValidMIMEType "text/plain" = true) by (vm_compute; reflexivity).
  split; [exact Hrb|]. split; [exact Hrun|]. split; [reflexivity|].
  split; [exact plainPut_parses|]. split; [exact Hv|].
  exact (second_put_updates helloHandler charsetPut plainPut emptyWorld
           uploadedWorld _ hi _ _ Hrb Hrun eq_refl plainPut_parses Hv).
Defined.

(** [accepted_media_type_shape] at text/plain with a charset. *)
Lemma accepted_media_type_shape_witness :
  ParseMediaType "text/plain; charset=utf-8"
  = ("text/plain", {["charset" := "utf-8"]}, None)
  /\ isValidMIMEType "text/plain" = true
  /\ exists topLevel subType,
       "text/plain" = topLevel +:+ "/" +:+ subType
       /\ In topLevel allowedCategories
       /\ subType <> EmptyString
       /\ isToken subType = true.
Proof.
  assert (Hp : ParseMediaType "text/plain; charset=utf-8"
               = ("text/plain", {["charset" := "utf-8"]}, None))
    by (vm_compute; reflexivity).
  assert (Hv : isValidMIMEType "text/plain" = true) by (vm_compute; reflexivity).
  split; [exact Hp|]. split; [exact Hv|].
  exact (accepted_media_type_shape _ _ _ Hp Hv).
Defined.

(** [content_type_round_trip] for a header in mixed case with a second
    parameter: what is stored is in lower case but for the charset, and
    parses to itself. *)
Lemma content_type_round_trip_witness :
  ParseMediaType flowedContentType
  = ("text/plain", {["charset" := "UTF-8"; "format" := "flowed"]}, None)
  /\ isValidMIMEType "text/plain" = true
  /\ isASCII flowedContentType = true
  /\ (forall charset,
        ({["charset" := "UTF-8"; "format" := "flowed"]} : gmap string string)
          !! "charset" = Some charset ->
        charset <> EmptyString /\ isToken charset = true)
  /\ ParseMediaType "text/plain; charset=UTF-8"
     = ("text/plain", {["charset" := "UTF-8"]}, None)
  /\ normalizedContentType "text/plain" {["charset" := "UTF-8"]}
     = "text/plain; charset=UTF-8".
Proof.
  assert (Hp : ParseMediaType flowedContentType
               = ("text/plain",
                  {["charset" := "UTF-8"; "format" := "flowed"]}, None))
    by (vm_compute; reflexivity).
  assert (Hv : isValidMIMEType "text/plain" = true) by (vm_compute; reflexivity).
  assert (Ha : isASCII flowedContentType = true) by (vm_compute; reflexivity).
  assert (Hc : forall charset,
             ({["charset" := "UTF-8"; "format" := "flowed"]}
              : gmap string string) !! "charset" = Some charset ->
             charset <> EmptyString /\ isToken charset = true).
  { intros charset Hlook. vm_compute in Hlook. injection Hlook as <-.
    split; [discriminate|reflexivity]. }
  split; [exact Hp|]. split; [exact Hv|]. split; [exact Ha|].
  split; [exact Hc|].
  exact (content_type_round_trip _ _ _ Hp Hv Ha Hc).
Defined.

(** The charset has to be a token for that: a quoted charset with a space in
    it is accepted and stored without its quotes, and what is stored is then
    no Content-Type the server takes. *)
Lemma quoted_charset_is_not_sent_back :
  ParseMediaType quotedContentType
  = ("text/plain", {["charset" := "utf 8"]}, None)
  /\ normalizedContentType "text/plain" {["charset" := "utf 8"]}
     = "text/plain; charset=utf 8"
  /\ ParseMediaType "text/plain; charset=utf 8"
     = ("text/plain", ∅, Some ErrInvalidMediaParameter).
Proof. repeat split; vm_compute; reflexivity. Qed.

(** [version_mapping]: with the binary version 1.34, version 1.1 maps to
    1.33. *)
Lemma version_mapping_witness :
  0 <= Minor (MajorMinor 1 34) < 2 ^ 62
  /\ 0 <= Minor (MajorMinor 1 1) < 2 ^ 62
  /\ VersionToKubeVersion (MajorMinor 1 34) (MajorMinor 1 1)
     = Some (MajorMinor 1 33).
Proof.
  assert (Hk : 0 <= Minor (MajorMinor 1 34) < 2 ^ 62)
    by (split; [discriminate|reflexivity]).
  assert (Hv : 0 <= Minor (MajorMinor 1 1) < 2 ^ 62)
    by (split; [discriminate|reflexivity]).
  split; [exact Hk|]. split; [exact Hv|].
  exact (version_mapping (MajorMinor 1 34) (MajorMinor 1 1) Hk Hv).
Defined.

(** [shown_names_unique] after one ADDED event. *)
Lemma shown_names_unique_witness :
  FilesList.shown listedState
  /\ NoDup (map (fun file => Name (ObjectMeta file))
              (FilesList.filesList (FilesList.files listedState)))
  /\ forall file,
       In file (FilesList.filesList (FilesList.files listedState)) ->
       Name (ObjectMeta file) <> EmptyString
       /\ FilesList.mapGet (Name (ObjectMeta file)) (FilesList.files listedState)
          = Some file.
Proof.
  assert (Hshown : FilesList.shown listedState)
    by exact (FilesList.shown_message helloAdded _ FilesList.shown_start).
  split; [exact Hshown|].
  exact (shown_names_unique listedState Hshown).
Defined.

(** [watch_event_applies]: the File that was added is deleted again. *)
Lemma watch_event_applies_witness :
  FilesList.shown listedState
  /\ FilesList.object helloDeleted = Some labelledFile
  /\ Name (ObjectMeta labelledFile) <> EmptyString
  /\ FilesList.type helloDeleted = "DELETED"
  /\ FilesList.mapGet (Name (ObjectMeta labelledFile))
       (FilesList.files (FilesList.onmessage helloDeleted listedState))
     = None.
Proof.
  assert (Hshown : FilesList.shown listedState)
    by exact (FilesList.shown_message helloAdded _ FilesList.shown_start).
  assert (Hname : Name (ObjectMeta labelledFile) <> EmptyString)
    by discriminate.
  split; [exact Hshown|]. split; [reflexivity|]. split; [exact Hname|].
  split; [reflexivity|].
  exact (proj1 (proj2 (watch_event_applies helloDeleted listedState
                         labelledFile Hshown eq_refl Hname)) eq_refl).
Defined.

(** [shown_order]: a second ADDED event for the File leaves the names shown
    as they were, and a DELETED event empties the list. *)
Lemma shown_order_witness :
  FilesList.shown listedState
  /\ FilesList.object helloAdded = Some labelledFile
  /\ FilesList.object helloDeleted = Some labelledFile
  /\ Name (ObjectMeta labelledFile) <> EmptyString
  /\ map (fun file => Name (ObjectMeta file))
       (FilesList.filesList
          (FilesList.files (FilesList.onmessage helloAdded listedState)))
     = ["hello"]
  /\ FilesList.filesList
       (FilesList.files (FilesList.onmessage helloDeleted listedState))
     = [].
Proof.
  assert (Hshown : FilesList.shown listedState)
    by exact (FilesList.shown_message helloAdded _ FilesList.shown_start).
  assert (Hname : Name (ObjectMeta labelledFile) <> EmptyString)
    by discriminate.
  split; [exact Hshown|]. split; [reflexivity|]. split; [reflexivity|].
  split; [exact Hname|]. split.
  - exact (proj1 (shown_order helloAdded listedState labelledFile Hshown
                    eq_refl Hname) (or_introl eq_refl)).
  - exact (proj2 (shown_order helloDeleted listedState labelledFile Hshown
                    eq_refl Hname) eq_refl).
Defined.

(** [only_named_changes]: the event that changed the empty list. *)
Lemma only_named_changes_witness :
  FilesList.files (FilesList.onmessage helloAdded startState)
  <> FilesList.files startState
  /\ In (FilesList.type helloAdded) ["ADDED"; "MODIFIED"; "DELETED"]
  /\ exists file,
       FilesList.object helloAdded = Some file
       /\ Name (ObjectMeta file) <> EmptyString.
Proof.
  assert (Hchanged : FilesList.files (FilesList.onmessage helloAdded startState)
                     <> FilesList.files startState) by discriminate.
  split; [exact Hchanged|].
  exact (only_named_changes helloAdded startState Hchanged).
Defined.

End MoreExamples.
